(** * Chart-extraction backend: the analysis pipeline, embedded and verified

    A shallow embedding of the Python backend:
    - [services/chart_detector.py]   ([ChartDetector])
    - [services/ocr_service.py]      ([OCRService])
    - [services/inference_service.py] ([InferenceService])
    - [routers/pdf_router.py], [routers/image_router.py] ([Router])

    Python [float] is IEEE binary64; it is modelled by [spec_float] of the
    standard library at precision 53 and maximal exponent 1024, so NaN,
    infinities, signed zeros and rounding are those of the interpreter.
    Python [str] is modelled by [string]; only ASCII text is covered
    (Unicode digits and Unicode white space are outside the model).
    Python [dict]s that the code builds key by key are [gmap]s. *)

From Stdlib Require Import ZArith List String Ascii Bool Lia.
From Stdlib Require Import Floats.SpecFloat.
From Stdlib Require Import DecimalString.
From Stdlib Require DecimalZ DecimalPos.
From stdpp Require Import gmap strings list.
From Stdlib Require Import QArith Qround Qpower Lqa.
From Stdlib Require Import Sorted.

Open Scope Z_scope.

(* ===================================================================== *)
(** * Python floats *)
(* ===================================================================== *)

Module PyFloat.

Definition float := spec_float.

Definition prec : Z := 53.
Definition emax : Z := 1024.

Definition fdiv : float -> float -> float := SFdiv prec emax.
Definition fmul : float -> float -> float := SFmul prec emax.
Definition fsub : float -> float -> float := SFsub prec emax.
Definition fadd : float -> float -> float := SFadd prec emax.

(** [a < b], [a > b], [a == b] on floats: false as soon as a NaN is
    involved. *)
Definition flt (a b : float) : bool := SFltb a b.
Definition fgt (a b : float) : bool := SFltb b a.
Definition feq (a b : float) : bool := SFeqb a b.
Definition fle (a b : float) : bool := SFleb a b.

Definition is_nan (a : float) : bool :=
  match a with S754_nan => true | _ => false end.

Definition is_finite (a : float) : bool :=
  match a with S754_zero _ | S754_finite _ _ _ => true | _ => false end.

(** [float(n)] for an integer [n] (round to nearest even). *)
Definition of_Z (n : Z) : float := binary_normalize prec emax n 0 false.

(** The float nearest to [(-1)^s * m * 10^e]: what reading a decimal
    literal or a decimal string gives.  The quotient of two integers is
    rounded once, by the division of the standard library. *)
Definition of_decimal (s : bool) (m : Z) (e : Z) : float :=
  match m with
  | Zpos p =>
      if 0 <=? e
      then fdiv (S754_finite s (p * Z.to_pos (10 ^ e)) 0) (S754_finite false 1 0)
      else fdiv (S754_finite s p 0) (S754_finite false (Z.to_pos (10 ^ (- e))) 0)
  | _ => S754_zero s
  end.

(** [a / b] on Python integers (true division), rounded once, for
    [b <> 0]: both callers exclude a zero divisor, one by its guard
    [height > 0], the other by dividing inside a loop over a non-empty
    list. *)
Definition int_truediv (a b : Z) : float :=
  match a, b with
  | Z0, _ => S754_zero false
  | Zpos p, Zpos q => fdiv (S754_finite false p 0) (S754_finite false q 0)
  | Zpos p, Zneg q => fdiv (S754_finite false p 0) (S754_finite true q 0)
  | Zneg p, Zpos q => fdiv (S754_finite true p 0) (S754_finite false q 0)
  | Zneg p, Zneg q => fdiv (S754_finite true p 0) (S754_finite true q 0)
  | _, Z0 => S754_nan
  end.

(** [int(x)]: truncation toward zero of a finite float. *)
Definition to_Z_trunc (x : float) : option Z :=
  match x with
  | S754_zero _ => Some 0
  | S754_finite s m e =>
      let a := if 0 <=? e then Zpos m * 2 ^ e else Zpos m / 2 ^ (- e) in
      Some (if s then - a else a)
  | _ => None
  end.

(** The decimal literals of the sources. *)
Definition lit_0_0 : float := S754_zero false.
Definition lit_1 : float := of_Z 1.
Definition lit_0_05 : float := of_decimal false 5 (-2).
Definition lit_0_15 : float := of_decimal false 15 (-2).
Definition lit_0_2 : float := of_decimal false 2 (-1).
Definition lit_0_3 : float := of_decimal false 3 (-1).
Definition lit_0_5 : float := of_decimal false 5 (-1).
Definition lit_0_6 : float := of_decimal false 6 (-1).
Definition lit_0_7 : float := of_decimal false 7 (-1).
Definition lit_0_8 : float := of_decimal false 8 (-1).
Definition lit_2_5 : float := of_decimal false 25 (-1).
Definition lit_3_0 : float := of_decimal false 3 0.

(** [max(l)] and [min(l)] of the interpreter on a non-empty list: the
    first element is kept until a strictly greater (smaller) one is met. *)
Definition py_max (l : list float) : option float :=
  match l with
  | [] => None
  | x :: xs => Some (fold_left (fun m y => if fgt y m then y else m) xs x)
  end.

Definition py_min (l : list float) : option float :=
  match l with
  | [] => None
  | x :: xs => Some (fold_left (fun m y => if flt y m then y else m) xs x)
  end.

End PyFloat.

(* ===================================================================== *)
(** * Python strings: [strip], [replace], [float(s)], [str(x)] *)
(* ===================================================================== *)

Module PyStr.
Import PyFloat.

Definition chars (s : string) : list ascii := list_ascii_of_string s.
Definition of_chars (l : list ascii) : string := string_of_list_ascii l.

Definition code (c : ascii) : nat := nat_of_ascii c.

(** White space of [str.strip()], ASCII part: TAB, LF, VT, FF, CR, FS,
    GS, RS, US and the space. *)
Definition is_space (c : ascii) : bool :=
  let n := code c in
  ((9 <=? n) && (n <=? 13) || (28 <=? n) && (n <=? 32))%nat.

(** White space that [float()] skips around an ASCII string: TAB, LF, VT,
    FF, CR and the space (the separators FS to US are not skipped). *)
Definition is_float_space (c : ascii) : bool :=
  let n := code c in
  ((9 <=? n) && (n <=? 13) || (n =? 32))%nat.

Definition is_digit (c : ascii) : bool :=
  let n := code c in ((48 <=? n) && (n <=? 57))%nat.

Definition digit_val (c : ascii) : Z := Z.of_nat (code c) - 48.

(** ASCII lower-casing, for the case-insensitive words [inf] and [nan]. *)
Definition lower (c : ascii) : ascii :=
  let n := code c in
  if ((65 <=? n) && (n <=? 90))%nat then ascii_of_nat (n + 32) else c.

Fixpoint lstrip_chars (sp : ascii -> bool) (l : list ascii) : list ascii :=
  match l with
  | c :: r => if sp c then lstrip_chars sp r else l
  | [] => []
  end.

Definition strip_chars (sp : ascii -> bool) (l : list ascii) : list ascii :=
  rev (lstrip_chars sp (rev (lstrip_chars sp l))).

(** [s.strip()] *)
Definition strip (s : string) : string :=
  of_chars (strip_chars is_space (chars s)).

(** [s.replace(c, '')] for a one-character [c]. *)
Definition remove_char (c : ascii) (s : string) : string :=
  of_chars (List.filter (fun d => negb (Ascii.eqb d c)) (chars s)).

(** ** [float(s)]

    The accepted words are
    [[sign] (digits [. [digits]] | . digits) [(e|E) [sign] digits]] and
    [[sign] (inf | infinity | nan)] in any letter case, between optional
    white space; a single underscore may separate two digits. *)

(** Underscores are dropped when each stands between two digits. *)
Fixpoint drop_underscores (prev : option ascii) (l : list ascii)
  : option (list ascii) :=
  match l with
  | [] =>
      match prev with
      | Some p => if Ascii.eqb p "_" then None else Some []
      | None => Some []
      end
  | c :: r =>
      let prev_digit := match prev with Some p => is_digit p | None => false end in
      let prev_under := match prev with Some p => Ascii.eqb p "_" | None => false end in
      if Ascii.eqb c "_"
      then if prev_digit then drop_underscores (Some c) r else None
      else if prev_under && negb (is_digit c) then None
           else option_map (cons c) (drop_underscores (Some c) r)
  end.

Fixpoint span_digits (l : list ascii) : list ascii * list ascii :=
  match l with
  | c :: r =>
      if is_digit c
      then let '(ds, rest) := span_digits r in (c :: ds, rest)
      else ([], l)
  | [] => ([], [])
  end.

Definition digits_value (ds : list ascii) : Z :=
  fold_left (fun acc c => 10 * acc + digit_val c) ds 0.

(** An optional sign: [true] for [-]. *)
Definition take_sign (l : list ascii) : bool * list ascii :=
  match l with
  | c :: r =>
      if Ascii.eqb c "-" then (true, r)
      else if Ascii.eqb c "+" then (false, r)
      else (false, l)
  | [] => (false, [])
  end.

Definition is_word (w : string) (l : list ascii) : bool :=
  String.eqb (of_chars (map lower l)) w.

Definition parse_exponent (l : list ascii) : option Z :=
  match l with
  | [] => Some 0
  | c :: r =>
      if Ascii.eqb (lower c) "e"
      then let '(s, r1) := take_sign r in
           let '(ds, r2) := span_digits r1 in
           match ds, r2 with
           | _ :: _, [] => Some (if s then - digits_value ds else digits_value ds)
           | _, _ => None
           end
      else None
  end.

Definition parse_decimal (s : bool) (l : list ascii) : option float :=
  let '(ip, r1) := span_digits l in
  let '(fp, r2) :=
    match r1 with
    | c :: r => if Ascii.eqb c "." then span_digits r else ([], r1)
    | [] => ([], [])
    end in
  match ip ++ fp with
  | [] => None
  | ds =>
      match parse_exponent r2 with
      | Some e => Some (of_decimal s (digits_value ds) (e - Z.of_nat (length fp)))
      | None => None
      end
  end.

Definition parse_float_chars (l : list ascii) : option float :=
  let '(s, r) := take_sign l in
  if is_word "inf" r || is_word "infinity" r then Some (S754_infinity s)
  else if is_word "nan" r then Some S754_nan
  else parse_decimal s r.

(** [float(s)]: [None] stands for [ValueError]. *)
Definition py_float (s : string) : option float :=
  match drop_underscores None (strip_chars is_float_space (chars s)) with
  | Some l => parse_float_chars l
  | None => None
  end.

(** ** [str(n)] for an integer *)
Definition str_of_Z (n : Z) : string := NilZero.string_of_int (Z.to_int n).

(** ** [str(x)] for a float: the shortest digits that read back as [x] *)

Definition ndigits10 (n : Z) : Z := Z.of_nat (String.length (str_of_Z n)).

(** The [k] with [10^(k-1) <= num/den < 10^k], for positive [num], [den]. *)
Definition decimal_point (num den : Z) : Z :=
  if den <=? num then ndigits10 (num / den)
  else let d := ndigits10 (den / num) in
       if 10 ^ (d - 1) * num =? den then 2 - d else 1 - d.

(** The candidates with [n] digits around [num/den], whose decimal point
    is [k]: the digit string below, and how what is left over compares
    with half a unit of the last digit. *)
Definition candidate (num den k n : Z) : Z * comparison :=
  let t := k - n in
  let N := if t <? 0 then num * 10 ^ (- t) else num in
  let D := if t <? 0 then den else den * 10 ^ t in
  (N / D, (2 * (N mod D) ?= D)).

(** When the digit string below and the one above both read back as [x],
    the nearer one is taken, and the one whose last digit is even when
    [x] lies half-way between them. *)
Fixpoint shortest_digits (fuel : nat) (x : float) (num den k n : Z) : Z * Z :=
  let '(lo, half) := candidate num den k n in
  match fuel with
  | O => (lo, n)
  | S fuel' =>
      let ok_lo := feq (of_decimal false lo (k - n)) x in
      let ok_hi := feq (of_decimal false (lo + 1) (k - n)) x in
      if ok_lo && ok_hi then
        (match half with
         | Lt => lo
         | Gt => lo + 1
         | Eq => if Z.even lo then lo else lo + 1
         end, n)
      else if ok_lo then (lo, n)
      else if ok_hi then (lo + 1, n)
      else shortest_digits fuel' x num den k (n + 1)
  end.

Fixpoint drop_last_zeros (l : list ascii) : list ascii :=
  match l with
  | [] => []
  | c :: r =>
      match drop_last_zeros r with
      | [] => if Ascii.eqb c "0" then [] else [c]
      | r' => c :: r'
      end
  end.

Definition zeros (n : Z) : string := of_chars (repeat "0"%char (Z.to_nat n)).

(** The layout of [repr]: exponent form when the decimal point is at
    most [-4] or above [16], else positional with a digit after the dot. *)
Definition layout (digits : string) (decpt : Z) : string :=
  let nd := Z.of_nat (String.length digits) in
  if (decpt <=? -4) || (16 <? decpt) then
    let e := decpt - 1 in
    let mant :=
      match digits with
      | String c EmptyString => digits
      | String c r => String c ("." +:+ r)
      | EmptyString => digits
      end in
    let ex := str_of_Z (Z.abs e) in
    mant +:+ "e" +:+ (if e <? 0 then "-" else "+")
         +:+ (if Z.abs e <? 10 then "0" +:+ ex else ex)
  else if decpt <=? 0 then "0." +:+ zeros (- decpt) +:+ digits
  else if nd <=? decpt then digits +:+ zeros (decpt - nd) +:+ ".0"
  else substring 0 (Z.to_nat decpt) digits +:+ "."
       +:+ substring (Z.to_nat decpt) (Z.to_nat (nd - decpt)) digits.

Definition str_of_float (x : float) : string :=
  match x with
  | S754_nan => "nan"
  | S754_infinity s => if s then "-inf" else "inf"
  | S754_zero s => if s then "-0.0" else "0.0"
  | S754_finite s m e =>
      let num := if 0 <=? e then Zpos m * 2 ^ e else Zpos m in
      let den := if 0 <=? e then 1 else 2 ^ (- e) in
      let k := decimal_point num den in
      let '(c, n) := shortest_digits 17 (S754_finite false m e) num den k 1 in
      let digits := of_chars (drop_last_zeros (chars (str_of_Z c))) in
      let k' := if c =? 10 ^ n then k + 1 else k in
      (if s then "-" else "") +:+ layout digits k'
  end.

End PyStr.

(* ===================================================================== *)
(** * Values, exceptions and dictionaries shared by the services *)
(* ===================================================================== *)

Module Py.
Import PyFloat.

(** An exception that [except Exception] catches: its class and its
    [str(e)].  What only derives from [BaseException] (an interrupt, an
    exit) is not modelled. *)
Record exn := Exn { exn_class : string; exn_str : string }.

(** One entry of the [detections] list of [ChartDetector.detect]. *)
Record Detection := {
  det_label : string;
  det_confidence : float;
  det_bbox : list float
}.

(** The values stored in the dictionaries returned by the detector. *)
Inductive value :=
| VBool (b : bool)
| VStr (s : string)
| VFloat (x : float)
| VDetections (l : list Detection).

(** Truth value of [if v:]. *)
Definition truthy (v : value) : bool :=
  match v with
  | VBool b => b
  | VStr s => negb (String.eqb s "")
  | VFloat x => negb (feq x lit_0_0)
  | VDetections l => match l with [] => false | _ => true end
  end.

End Py.

(* ===================================================================== *)
(** * services/chart_detector.py *)
(* ===================================================================== *)

Module ChartDetector.
Import PyFloat Py.

(** What the imaging libraries give for an opened file: the 8-bit
    grey-level array of [img.convert('L')] as rows of pixels (the RGB
    array has the same height and width), and the result of
    [img.resize((100, 100)).getcolors(maxcolors=10000)], a list of
    (count, colour) pairs or [None]. *)
Record Image := {
  gray_array : list (list Z);
  resized_colors : option (list (Z * (Z * Z * Z)))
}.

Definition height (img : Image) : Z := Z.of_nat (length (gray_array img)).
Definition width (img : Image) : Z :=
  match gray_array img with
  | [] => 0
  | row :: _ => Z.of_nat (length row)
  end.

(** [np.diff(a, axis=0)]: each row minus the row above it. *)
Fixpoint diff_axis0 (a : list (list Z)) : list (list Z) :=
  match a with
  | r1 :: ((r2 :: _) as rest) => zip_with Z.sub r2 r1 :: diff_axis0 rest
  | _ => []
  end.

(** [np.diff(a, axis=1)]: in each row, each pixel minus its left neighbour. *)
Fixpoint diff_row (r : list Z) : list Z :=
  match r with
  | p1 :: ((p2 :: _) as rest) => (p2 - p1) :: diff_row rest
  | _ => []
  end.

Definition diff_axis1 (a : list (list Z)) : list (list Z) := map diff_row a.

(** [np.sum(np.abs(e) > 50)] and [e.size]. *)
Definition count_edges (e : list (list Z)) : Z :=
  fold_right (fun row acc =>
    Z.of_nat (length (List.filter (fun d => 50 <? Z.abs d) row)) + acc) 0 e.

Definition array_size (e : list (list Z)) : Z :=
  fold_right (fun row acc => Z.of_nat (length row) + acc) 0 e.

(** Edge density: a numpy integer divided by an integer, in binary64;
    [0 / 0] is NaN (numpy warns and goes on). *)
Definition edge_density (e : list (list Z)) : float :=
  fdiv (of_Z (count_edges e)) (of_Z (array_size e)).

Definition h_lines (img : Image) : float := edge_density (diff_axis0 (gray_array img)).
Definition v_lines (img : Image) : float := edge_density (diff_axis1 (gray_array img)).

Definition aspect_ratio (img : Image) : float :=
  if 0 <? height img then int_truediv (width img) (height img) else of_Z 1.

Definition unique_colors (img : Image) : Z :=
  match resized_colors img with
  | Some (c :: cs) => Z.of_nat (length (c :: cs))
  | _ => 0
  end.

Definition analysis (is_chart : bool) (chart_type : string) (confidence : float)
  : gmap string value :=
  <["is_chart" := VBool is_chart]>
    (<["chart_type" := VStr chart_type]>
       (<["confidence" := VFloat confidence]> ∅)).

Section WithFiles.
(** [Image.open(path)] followed by the conversions: [None] when any of
    them raises. *)
Variable Image_open : string -> option Image.

Definition _analyze_chart_characteristics (image_path : string)
  : gmap string value :=
  match Image_open image_path with
  | Some img =>
      let '(is_chart, chart_type, confidence) :=
        if (unique_colors img <? 50)
           && flt lit_0_5 (aspect_ratio img) && flt (aspect_ratio img) lit_2_5
        then (true, "chart", lit_0_6)
        else if (unique_colors img <? 100)
                && flt lit_0_3 (aspect_ratio img) && flt (aspect_ratio img) lit_3_0
        then (true, "graph", lit_0_5)
        else (false, "image", lit_0_3) in
      let '(is_chart, chart_type, confidence) :=
        if fgt (h_lines img) lit_0_05 && fgt (v_lines img) lit_0_05
        then (true, "table", lit_0_7)
        else (is_chart, chart_type, confidence) in
      analysis is_chart chart_type confidence
  | None => analysis false "image" lit_0_0
  end.

Definition _fallback_detection (image_path : string) : gmap string value :=
  _analyze_chart_characteristics image_path.

(** One box of a YOLO result: [box.cls[0]], [box.conf[0]],
    [box.xyxy[0].tolist()]. *)
Record YoloBox := { cls0 : float; conf0 : float; xyxy0 : list float }.

(** One YOLO result: its boxes and its class-name table. *)
Record YoloResult := { boxes : list YoloBox; names : gmap Z string }.

(** The loaded model: [None] when loading failed; a call may raise. *)
Definition Model := string -> exn + list YoloResult.

(** The body of the inner loop: [None] when it raises ([int] of a
    non-finite class, or a class missing from [names]). *)
Definition detection_of_box (r : YoloResult) (b : YoloBox) : option Detection :=
  match to_Z_trunc (cls0 b) with
  | Some cls_id =>
      match names r !! cls_id with
      | Some label =>
          Some {| det_label := label; det_confidence := conf0 b;
                  det_bbox := xyxy0 b |}
      | None => None
      end
  | None => None
  end.

Fixpoint collect_boxes (r : YoloResult) (bs : list YoloBox)
         (detections : list Detection) : option (list Detection) :=
  match bs with
  | [] => Some detections
  | b :: bs' =>
      match detection_of_box r b with
      | Some d => collect_boxes r bs' (detections ++ [d])
      | None => None
      end
  end.

Fixpoint collect_results (rs : list YoloResult) (detections : list Detection)
  : option (list Detection) :=
  match rs with
  | [] => Some detections
  | r :: rs' =>
      match collect_boxes r (boxes r) detections with
      | Some ds => collect_results rs' ds
      | None => None
      end
  end.

Definition detect (model : option Model) (image_path : string)
  : gmap string value :=
  match model with
  | None => _fallback_detection image_path
  | Some run =>
      match run image_path with
      | inr results =>
          match collect_results results [] with
          | Some detections =>
              let chart_analysis := _analyze_chart_characteristics image_path in
              match chart_analysis !! "is_chart", chart_analysis !! "chart_type",
                    chart_analysis !! "confidence" with
              | Some a, Some b, Some c =>
                  <["is_chart" := a]>
                    (<["chart_type" := b]>
                       (<["confidence" := c]>
                          (<["detections" := VDetections detections]> ∅)))
              | _, _, _ => _fallback_detection image_path
              end
          | None => _fallback_detection image_path
          end
      | inl _ => _fallback_detection image_path
      end
  end.

End WithFiles.

End ChartDetector.

(* ===================================================================== *)
(** * services/ocr_service.py *)
(* ===================================================================== *)

Module OCRService.
Import PyFloat PyStr Py.

(** A text box: the dictionary built by [extract_text] for one line. *)
Record TextBox := {
  text : string;
  confidence : float;
  bbox : list (float * float);
  y_center : float;
  x_center : float
}.

(** The [structured] dictionary; every producer sets the five keys. *)
Record StructuredChartText := {
  title : option string;
  x_axis : option string;
  y_axis : option string;
  values : list string;
  legends : list string
}.

Record OcrResult := {
  raw_text : list string;
  ocr_boxes : list TextBox;
  structured : StructuredChartText
}.

Definition empty_structured : StructuredChartText :=
  {| title := None; x_axis := None; y_axis := None; values := []; legends := [] |}.

Definition _empty_result : OcrResult :=
  {| raw_text := []; ocr_boxes := []; structured := empty_structured |}.

Definition _is_numeric (text : string) : bool :=
  let cleaned :=
    strip (remove_char "-" (remove_char "$" (remove_char "%" (remove_char "," text)))) in
  match py_float cleaned with
  | Some _ => true
  | None => false
  end.

(** The bounds computed before the loop of [_structure_chart_text]. *)
Record Bounds := { min_y : float; y_range : float; min_x : float; x_range : float }.

Definition range_of (lo hi : float) : float :=
  if fgt hi lo then fsub hi lo else of_Z 1.

Definition bounds_of (boxes : list TextBox) : option Bounds :=
  match py_min (map y_center boxes), py_max (map y_center boxes),
        py_min (map x_center boxes), py_max (map x_center boxes) with
  | Some mny, Some mxy, Some mnx, Some mxx =>
      Some {| min_y := mny; y_range := range_of mny mxy;
              min_x := mnx; x_range := range_of mnx mxx |}
  | _, _, _, _ => None
  end.

Definition y_pos (bd : Bounds) (box : TextBox) : float :=
  if fgt (y_range bd) lit_0_0
  then fdiv (fsub (y_center box) (min_y bd)) (y_range bd)
  else lit_0_5.

Definition x_pos (bd : Bounds) (box : TextBox) : float :=
  if fgt (x_range bd) lit_0_0
  then fdiv (fsub (x_center box) (min_x bd)) (x_range bd)
  else lit_0_5.

(** [cur is None or len(text) > len(cur)] *)
Definition longer (txt : string) (cur : option string) : bool :=
  match cur with
  | None => true
  | Some t => (String.length t <? String.length txt)%nat
  end.

(** The body of the loop: one box against the fields gathered so far. *)
Definition classify_box (bd : Bounds) (acc : StructuredChartText) (box : TextBox)
  : StructuredChartText :=
  let txt := strip (text box) in
  let y := y_pos bd box in
  let x := x_pos bd box in
  if flt y lit_0_2 && (flt lit_0_3 x && flt x lit_0_7) then
    if longer txt (title acc)
    then {| title := Some txt; x_axis := x_axis acc; y_axis := y_axis acc;
            values := values acc; legends := legends acc |}
    else acc
  else if fgt y lit_0_8 && (flt lit_0_3 x && flt x lit_0_7) then
    if longer txt (x_axis acc)
    then {| title := title acc; x_axis := Some txt; y_axis := y_axis acc;
            values := values acc; legends := legends acc |}
    else acc
  else if flt x lit_0_15 && (flt lit_0_2 y && flt y lit_0_8) then
    if longer txt (y_axis acc)
    then {| title := title acc; x_axis := x_axis acc; y_axis := Some txt;
            values := values acc; legends := legends acc |}
    else acc
  else if _is_numeric txt then
    {| title := title acc; x_axis := x_axis acc; y_axis := y_axis acc;
       values := values acc ++ [txt]; legends := legends acc |}
  else if fgt x lit_0_7 || (fgt y lit_0_7 && fgt x lit_0_5) then
    {| title := title acc; x_axis := x_axis acc; y_axis := y_axis acc;
       values := values acc; legends := legends acc ++ [txt] |}
  else acc.

(** The two [sorted] lists of the source are never read and are left out. *)
Definition _structure_chart_text (boxes : list TextBox) : StructuredChartText :=
  match bounds_of boxes with
  | None => empty_structured
  | Some bd => fold_left (classify_box bd) boxes empty_structured
  end.

(** One line of the OCR engine: the four corners and [(text, confidence)]. *)
Record OcrLine := {
  corner0 : float * float; corner1 : float * float;
  corner2 : float * float; corner3 : float * float;
  line_text : string; line_confidence : float
}.

Definition box_of_line (l : OcrLine) : TextBox :=
  {| text := line_text l;
     confidence := line_confidence l;
     bbox := [corner0 l; corner1 l; corner2 l; corner3 l];
     y_center := fdiv (fadd (snd (corner0 l)) (snd (corner2 l))) (of_Z 2);
     x_center := fdiv (fadd (fst (corner0 l)) (fst (corner2 l))) (of_Z 2) |}.

(** The engine: absent, or a call that raises or returns [result]
    ([None], or a list whose first item is [None] or the lines). *)
Definition Engine := string -> exn + option (list (option (list OcrLine))).

Definition extract_text (ocr : option Engine) (image_path : string) : OcrResult :=
  match ocr with
  | None => _empty_result
  | Some run =>
      match run image_path with
      | inr (Some (Some (l :: ls) :: _)) =>
          let lines := l :: ls in
          let boxes := map box_of_line lines in
          {| raw_text := map line_text lines;
             ocr_boxes := boxes;
             structured := _structure_chart_text boxes |}
      | _ => _empty_result
      end
  end.

End OCRService.

(* ===================================================================== *)
(** * services/inference_service.py *)
(* ===================================================================== *)

Module InferenceService.
Import PyFloat PyStr Py OCRService.

(** [max_point] and [min_point]: [{"description": d}] when read from the
    language model, [{"value": v, "label": l}] in the fallback. *)
Inductive Point :=
| PointDescription (description : string)
| PointValue (value : float) (label : string).

Record Inference := {
  trend : option string;
  max_point : option Point;
  min_point : option Point;
  correlations : list string;
  anomalies : list string;
  summary : string
}.

(** [str(x)] for an optional string inside an f-string. *)
Definition str_of_optional (o : option string) : string :=
  match o with Some s => s | None => "None" end.

(** The loop over [values]: the entries that [float] rejects are skipped. *)
Definition numeric_values (vals : list string) : list float :=
  omap (fun v => py_float (remove_char "$" (remove_char "%" (remove_char "," v)))) vals.

Definition trend_of (first last : float) : string :=
  if fgt last first then "increasing"
  else if flt last first then "decreasing"
  else "stable".

Definition point_of (v : float) : Point := PointValue v (str_of_float v).

Definition _fallback_inference (ocr_data : OcrResult) : Inference :=
  let st := structured ocr_data in
  let vals := values st in
  let nums := numeric_values vals in
  let '(trend, max_point, min_point) :=
    if (2 <=? length nums)%nat then
      match nums, last nums, py_max nums, py_min nums with
      | first :: _, Some lst, Some max_val, Some min_val =>
          (trend_of first lst, Some (point_of max_val), Some (point_of min_val))
      | _, _, _, _ => ("unknown", None, None)
      end
    else ("unknown", None, None) in
  {| trend := Some trend;
     max_point := max_point;
     min_point := min_point;
     correlations := [];
     anomalies := [];
     summary := "Chart with title '" +:+ str_of_optional (title st)
                +:+ "' showing " +:+ str_of_Z (Z.of_nat (length vals))
                +:+ " data points. Trend appears to be " +:+ trend +:+ "." |}.

(** ** Reading the answer of the language model *)

Fixpoint prefix_of (p l : list ascii) : bool :=
  match p, l with
  | [], _ => true
  | a :: p', b :: l' => Ascii.eqb a b && prefix_of p' l'
  | _ :: _, [] => false
  end.

(** [w in s] *)
Fixpoint contains_chars (w l : list ascii) : bool :=
  prefix_of w l || match l with [] => false | _ :: l' => contains_chars w l' end.

Definition contains (w s : string) : bool := contains_chars (chars w) (chars s).

(** [s.split(c)] on a one-character separator. *)
Fixpoint split_chars (c : ascii) (cur : list ascii) (l : list ascii) : list (list ascii) :=
  match l with
  | [] => [rev cur]
  | d :: l' => if Ascii.eqb d c then rev cur :: split_chars c [] l'
               else split_chars c (d :: cur) l'
  end.

Definition split_lines (s : string) : list string :=
  map of_chars (split_chars (ascii_of_nat 10) [] (chars s)).

(** [s.split(':', 1)[1]], for an [s] that holds a colon. *)
Fixpoint after_colon (l : list ascii) : list ascii :=
  match l with
  | [] => []
  | d :: l' => if Ascii.eqb d ":" then l' else after_colon l'
  end.

Definition section_text (line : string) : string :=
  strip (of_chars (after_colon (chars line))).

Definition lower_strip (line : string) : string :=
  strip (of_chars (map lower (chars line))).

Definition parse_line (result : Inference) (line : string) : Inference :=
  let line_lower := lower_strip line in
  let colon := contains ":" line in
  let set t mx mn co an su :=
    {| trend := t; max_point := mx; min_point := mn;
       correlations := co; anomalies := an; summary := su |} in
  if contains "trend" line_lower && colon then
    set (Some (section_text line)) (max_point result) (min_point result)
        (correlations result) (anomalies result) (summary result)
  else if contains "max" line_lower && colon then
    set (trend result) (Some (PointDescription (section_text line))) (min_point result)
        (correlations result) (anomalies result) (summary result)
  else if contains "min" line_lower && colon then
    set (trend result) (max_point result) (Some (PointDescription (section_text line)))
        (correlations result) (anomalies result) (summary result)
  else if contains "correlation" line_lower && colon then
    set (trend result) (max_point result) (min_point result)
        (correlations result ++ [section_text line]) (anomalies result) (summary result)
  else if contains "anomal" line_lower && colon then
    set (trend result) (max_point result) (min_point result)
        (correlations result) (anomalies result ++ [section_text line]) (summary result)
  else if contains "summary" line_lower && colon then
    set (trend result) (max_point result) (min_point result)
        (correlations result) (anomalies result) (section_text line)
  else result.

Definition _parse_response (response_text : string) (ocr_data : OcrResult) : Inference :=
  fold_left parse_line (split_lines response_text)
    {| trend := None; max_point := None; min_point := None;
       correlations := []; anomalies := []; summary := response_text |}.

(** The language model behind [self.model]: it is given what
    [_build_prompt] formats (chart type, OCR data, context) and answers
    with [response.text], or raises. *)
Definition Model := value -> OcrResult -> string -> exn + string.

Definition generate_inference (model : option Model)
           (image_path : string) (chart_type : value)
           (ocr_data : OcrResult) (pdf_context : string) : Inference :=
  match model with
  | None => _fallback_inference ocr_data
  | Some generate_content =>
      match generate_content chart_type ocr_data pdf_context with
      | inr response_text => _parse_response response_text ocr_data
      | inl _ => _fallback_inference ocr_data
      end
  end.

End InferenceService.

(* ===================================================================== *)
(** * routers/pdf_router.py and routers/image_router.py *)
(* ===================================================================== *)

Module Router.
Import PyFloat PyStr Py.
Import OCRService(OcrResult, StructuredChartText, structured).
Import InferenceService(Inference, Point).

(** ** models/schemas.py *)

Record OCRData := {
  od_title : option string;
  od_x_axis : option string;
  od_y_axis : option string;
  od_values : list string;          (* each [v] stands for [{"value": v}] *)
  od_legends : list string
}.

Record ImageExtraction := {
  ie_image_id : string;
  ie_image_path : string;
  ie_type : string;
  ie_page_number : Z;
  ie_ocr_data : option OCRData;
  ie_inference : option Inference
}.

Record PDFExtractionResult := {
  pdf_name : string;
  processed_at : Z;
  total_pages : Z;
  extracted_text : string;
  extractions : list ImageExtraction
}.

(** ** The status table *)

(** One entry of [processing_status]; [extraction_id] is the key that
    only a completed entry has. *)
Record StatusEntry := {
  status : string;
  message : string;
  progress : Z;
  result : option PDFExtractionResult;
  extraction_id : option string
}.

(** The shared table, and the history of the progress values written
    into it (task and value, oldest first). *)
Record World := {
  processing_status : gmap string StatusEntry;
  progress_log : list (string * Z)
}.

(** ** Code that may raise, over the shared table *)

Definition M (A : Type) : Type := World -> (exn + A) * World.

Definition ret {A} (a : A) : M A := fun w => (inr a, w).
Definition raise {A} (e : exn) : M A := fun w => (inl e, w).
Definition bind {A B} (c : M A) (k : A -> M B) : M B :=
  fun w => match c w with
           | (inr a, w') => k a w'
           | (inl e, w') => (inl e, w')
           end.
Definition lift {A} (r : exn + A) : M A :=
  match r with inr a => ret a | inl e => raise e end.

(** [try: body / except Exception as e: handler(e)] *)
Definition try_except {A} (body : M A) (handler : exn -> M A) : M A :=
  fun w => match body w with
           | (inr a, w') => (inr a, w')
           | (inl e, w') => handler e w'
           end.

Declare Scope py_scope.
Delimit Scope py_scope with py.
Notation "x <- c ;; k" := (bind c (fun x => k))
  (at level 100, c at next level, right associativity) : py_scope.
Notation "c ;;; k" := (bind c (fun _ => k))
  (at level 100, right associativity) : py_scope.
Open Scope py_scope.

Definition KeyError (key : string) : exn := Exn "KeyError" ("'" +:+ key +:+ "'").

(** [processing_status[task_id]["message"] = msg] *)
Definition set_message (task_id msg : string) : M unit :=
  fun w =>
    match processing_status w !! task_id with
    | Some e =>
        (inr tt,
         {| processing_status :=
              <[task_id := {| status := status e; message := msg;
                              progress := progress e; result := result e;
                              extraction_id := extraction_id e |}]>
                (processing_status w);
            progress_log := progress_log w |})
    | None => (inl (KeyError task_id), w)
    end.

(** [processing_status[task_id]["progress"] = p] *)
Definition set_progress (task_id : string) (p : Z) : M unit :=
  fun w =>
    match processing_status w !! task_id with
    | Some e =>
        (inr tt,
         {| processing_status :=
              <[task_id := {| status := status e; message := message e;
                              progress := p; result := result e;
                              extraction_id := extraction_id e |}]>
                (processing_status w);
            progress_log := progress_log w ++ [(task_id, p)] |})
    | None => (inl (KeyError task_id), w)
    end.

(** [processing_status[task_id] = entry] *)
Definition set_status (task_id : string) (entry : StatusEntry) : M unit :=
  fun w =>
    (inr tt,
     {| processing_status := <[task_id := entry]> (processing_status w);
        progress_log := progress_log w ++ [(task_id, progress entry)] |}).

(** [d[key]] on a dictionary of the detector. *)
Definition getitem (d : gmap string value) (key : string) : M value :=
  match d !! key with
  | Some v => ret v
  | None => raise (KeyError key)
  end.

(** ** Calling a Python function: binding arguments to parameters *)

Inductive pyarg :=
| AStr (s : string)
| AVal (v : value)
| AOcr (o : OcrResult).

(** A signature: the name, and the parameters with their defaults. *)
Record Signature := {
  fn_name : string;
  fn_params : list (string * option pyarg)
}.

Definition TypeError (msg : string) : exn := Exn "TypeError" msg.

Definition has_key {A} (k : string) (l : list (string * A)) : bool :=
  existsb (fun p => String.eqb (fst p) k) l.

(** Keyword arguments, in order: an unknown name or a name already bound
    raises. *)
Fixpoint bind_keywords (sg : Signature) (bound : list (string * pyarg))
         (kw : list (string * pyarg)) : exn + list (string * pyarg) :=
  match kw with
  | [] => inr bound
  | (k, v) :: kw' =>
      if negb (has_key k (fn_params sg)) then
        inl (TypeError (fn_name sg +:+ "() got an unexpected keyword argument '"
                        +:+ k +:+ "'"))
      else if has_key k bound then
        inl (TypeError (fn_name sg +:+ "() got multiple values for argument '"
                        +:+ k +:+ "'"))
      else bind_keywords sg (bound ++ [(k, v)]) kw'
  end.

Fixpoint quote_names (l : list string) : string :=
  match l with
  | [] => ""
  | [a] => "'" +:+ a +:+ "'"
  | [a; b] => "'" +:+ a +:+ "' and '" +:+ b +:+ "'"
  | a :: ((_ :: _ :: _) as r) =>
      "'" +:+ a +:+ "', " +:+
      match r with
      | [b; c] => "'" +:+ b +:+ "', and '" +:+ c +:+ "'"
      | _ => quote_names r
      end
  end.

Definition str_of_nat (n : nat) : string := str_of_Z (Z.of_nat n).

Definition bind_args (sg : Signature) (pos : list pyarg) (kw : list (string * pyarg))
  : exn + list (string * pyarg) :=
  let names := map fst (fn_params sg) in
  let given := zip names pos in
  match bind_keywords sg given kw with
  | inl e => inl e
  | inr bound =>
      if (length names <? length pos)%nat then
        let required := List.filter (fun p => match snd p with None => true | _ => false end)
                               (fn_params sg) in
        inl (TypeError
               (fn_name sg +:+ "() takes "
                +:+ (if (length required =? length names)%nat
                     then str_of_nat (length names)
                     else "from " +:+ str_of_nat (length required) +:+ " to "
                          +:+ str_of_nat (length names))
                +:+ " positional argument" +:+ (if (length names =? 1)%nat then "" else "s")
                +:+ " but " +:+ str_of_nat (length pos)
                +:+ (if (length pos =? 1)%nat then " was given" else " were given")))
      else
        let missing :=
          omap (fun p => if has_key (fst p) bound then None
                         else match snd p with None => Some (fst p) | Some _ => None end)
               (fn_params sg) in
        match missing with
        | [] =>
            inr (omap (fun p =>
                         match List.find (fun b => String.eqb (fst b) (fst p)) bound with
                         | Some b => Some b
                         | None => option_map (pair (fst p)) (snd p)
                         end) (fn_params sg))
        | _ =>
            inl (TypeError
                   (fn_name sg +:+ "() missing " +:+ str_of_nat (length missing)
                    +:+ " required positional argument"
                    +:+ (if (length missing =? 1)%nat then "" else "s")
                    +:+ ": " +:+ quote_names missing))
        end
  end.

(** ** The services the routers call *)

Record ImgInfo := {
  image_id : string;
  image_path : string;
  page_number : Z
}.

(** The dictionary returned by [extract_pdf]. *)
Record PdfContent := {
  pc_total_pages : Z;
  pc_text : string;
  pc_images : list ImgInfo
}.

(** What the routers import.  Each call either returns or raises.
    [generate_inference] is the method behind [generate_chart_inference];
    [new_image_id] is [uuid.uuid4().hex], [target_path] the path under
    [IMAGES_DIR] for an upload and an identifier, [now] the clock. *)
Record Services := {
  extract_pdf : string -> exn + PdfContent;
  detect_chart : string -> exn + gmap string value;
  extract_chart_text : string -> exn + OcrResult;
  generate_inference : string -> value -> OcrResult -> string -> exn + Inference;
  save_result : PDFExtractionResult -> exn + string;
  copy2 : string -> string -> exn + unit;
  new_image_id : string;
  target_path : string -> string -> string;
  now : Z
}.

Section WithServices.
Variable svc : Services.

(** [def generate_chart_inference(image_path, chart_type, ocr_data,
    pdf_context = "")] *)
Definition generate_chart_inference_sig : Signature :=
  {| fn_name := "generate_chart_inference";
     fn_params := [("image_path", None); ("chart_type", None);
                   ("ocr_data", None); ("pdf_context", Some (AStr ""))] |}.

Definition generate_chart_inference (pos : list pyarg) (kw : list (string * pyarg))
  : M Inference :=
  match bind_args generate_chart_inference_sig pos kw with
  | inl e => raise e
  | inr [(_, AStr image_path); (_, AVal chart_type); (_, AOcr ocr_data);
         (_, AStr pdf_context)] =>
      lift (generate_inference svc image_path chart_type ocr_data pdf_context)
  | inr _ => raise (TypeError "generate_chart_inference(): argument of the wrong type")
  end.

(** [OCRData(title=..., x_axis=..., y_axis=..., values=[{"value": v} ...],
    legends=...)] from [ocr_result["structured"]]. *)
Definition ocr_data_of (ocr_result : OcrResult) : OCRData :=
  let st := structured ocr_result in
  {| od_title := OCRService.title st;
     od_x_axis := OCRService.x_axis st;
     od_y_axis := OCRService.y_axis st;
     od_values := OCRService.values st;
     od_legends := OCRService.legends st |}.

(** The validation of the field [type: str] of [ImageExtraction]. *)
Definition validate_type (v : value) : M string :=
  match v with
  | VStr s => ret s
  | _ => raise (Exn "ValidationError" "1 validation error for ImageExtraction")
  end.

(** [int(x)] *)
Definition int_of_float (x : float) : M Z :=
  match to_Z_trunc x with
  | Some n => ret n
  | None => raise (Exn "ValueError" "cannot convert float to integer")
  end.

(** [30 + int((idx + 1) / total_images * 60)] *)
Definition loop_progress (idx total_images : Z) : M Z :=
  n <- int_of_float (fmul (int_truediv (idx + 1) total_images) (of_Z 60)) ;;
  ret (30 + n).

(** *** pdf_router.py *)

(** One turn of the loop over [extraction["images"]]. *)
Definition process_pdf_image (task_id : string) (content : PdfContent)
           (total_images : Z) (idx : Z) (img_info : ImgInfo)
           (image_extractions : list ImageExtraction)
  : M (list ImageExtraction) :=
  let path := image_path img_info in
  detection <- lift (detect_chart svc path) ;;
  is_chart <- getitem detection "is_chart" ;;
  image_extractions' <-
    (if truthy is_chart then
       set_message task_id
         ("Analyzing chart " +:+ str_of_Z (idx + 1) +:+ "/"
          +:+ str_of_Z total_images +:+ "...") ;;;
       ocr_result <- lift (extract_chart_text svc path) ;;
       let page_num := page_number img_info in
       let context := substring 0 2000 (pc_text content) in
       chart_type <- getitem detection "chart_type" ;;
       inference <- generate_chart_inference
                      [AStr path; AVal chart_type; AOcr ocr_result; AStr context] [] ;;
       let ocr_data := ocr_data_of ocr_result in
       chart_type' <- getitem detection "chart_type" ;;
       ty <- validate_type chart_type' ;;
       ret (image_extractions ++
              [{| ie_image_id := image_id img_info;
                  ie_image_path := path;
                  ie_type := ty;
                  ie_page_number := page_num;
                  ie_ocr_data := Some ocr_data;
                  ie_inference := Some inference |}])
     else
       ret (image_extractions ++
              [{| ie_image_id := image_id img_info;
                  ie_image_path := path;
                  ie_type := "image";
                  ie_page_number := page_number img_info;
                  ie_ocr_data := None;
                  ie_inference := None |}])) ;;
  progress <- loop_progress idx total_images ;;
  set_progress task_id progress ;;;
  ret image_extractions'.

Fixpoint process_pdf_images (task_id : string) (content : PdfContent)
         (total_images : Z) (idx : Z) (imgs : list ImgInfo)
         (image_extractions : list ImageExtraction)
  : M (list ImageExtraction) :=
  match imgs with
  | [] => ret image_extractions
  | img_info :: rest =>
      acc <- process_pdf_image task_id content total_images idx img_info
                               image_extractions ;;
      process_pdf_images task_id content total_images (idx + 1) rest acc
  end.

Definition completed (res : PDFExtractionResult) (saved_id : string) : StatusEntry :=
  {| status := "completed"; message := "Processing complete"; progress := 100;
     result := Some res; extraction_id := Some saved_id |}.

Definition failed (e : exn) : StatusEntry :=
  {| status := "failed"; message := "Error: " +:+ exn_str e; progress := 0;
     result := None; extraction_id := None |}.

(** The [try] block of [process_pdf]. *)
Definition process_pdf_body (task_id file_path filename : string) : M unit :=
  set_message task_id "Extracting text and images from PDF..." ;;;
  set_progress task_id 10 ;;;
  extraction <- lift (extract_pdf svc file_path) ;;
  set_progress task_id 30 ;;;
  set_message task_id
    ("Found " +:+ str_of_nat (length (pc_images extraction))
     +:+ " images, analyzing...") ;;;
  let total_images := Z.of_nat (length (pc_images extraction)) in
  image_extractions <-
    process_pdf_images task_id extraction total_images 0 (pc_images extraction) [] ;;
  let res :=
    {| pdf_name := filename;
       processed_at := now svc;
       total_pages := pc_total_pages extraction;
       extracted_text := pc_text extraction;
       extractions := image_extractions |} in
  set_message task_id "Saving results..." ;;;
  set_progress task_id 95 ;;;
  saved_id <- lift (save_result svc res) ;;
  set_status task_id (completed res saved_id).

Definition process_pdf (task_id file_path filename : string) : M unit :=
  try_except (process_pdf_body task_id file_path filename)
             (fun e => set_status task_id (failed e)).

(** *** image_router.py *)

(** The [try] block of [process_image]. *)
Definition process_image_body (task_id file_path filename : string) : M unit :=
  set_message task_id "Analyzing image content..." ;;;
  set_progress task_id 20 ;;;
  let image_id := new_image_id svc in
  let target := target_path svc file_path image_id in
  lift (copy2 svc file_path target) ;;;
  detection <- lift (detect_chart svc target) ;;
  is_chart <- getitem detection "is_chart" ;;
  image_extractions <-
    (if truthy is_chart then
       set_message task_id "Chart detected, running OCR and analysis..." ;;;
       set_progress task_id 50 ;;;
       ocr_result <- lift (extract_chart_text svc target) ;;
       chart_type <- getitem detection "chart_type" ;;
       inference <- generate_chart_inference
                      [AStr target; AVal chart_type; AOcr ocr_result]
                      [("context", AStr "")] ;;
       let ocr_data := ocr_data_of ocr_result in
       chart_type' <- getitem detection "chart_type" ;;
       ty <- validate_type chart_type' ;;
       ret [{| ie_image_id := image_id;
               ie_image_path := target;
               ie_type := ty;
               ie_page_number := 1;
               ie_ocr_data := Some ocr_data;
               ie_inference := Some inference |}]
     else
       set_message task_id "Processing as generic image..." ;;;
       ret []) ;;
  let image_extractions :=
    match image_extractions with
    | [] => [{| ie_image_id := image_id;
                ie_image_path := target;
                ie_type := "image";
                ie_page_number := 1;
                ie_ocr_data := None;
                ie_inference := None |}]
    | _ => image_extractions
    end in
  let res :=
    {| pdf_name := filename;
       processed_at := now svc;
       total_pages := 1;
       extracted_text := "";
       extractions := image_extractions |} in
  set_message task_id "Saving results..." ;;;
  set_progress task_id 90 ;;;
  saved_id <- lift (save_result svc res) ;;
  set_status task_id (completed res saved_id).

Definition process_image (task_id file_path filename : string) : M unit :=
  try_except (process_image_body task_id file_path filename)
             (fun e => set_status task_id (failed e)).

(** The entry written by [upload_pdf] and [upload_image] before the
    background task starts. *)
Definition submitted (msg : string) : StatusEntry :=
  {| status := "processing"; message := msg; progress := 0;
     result := None; extraction_id := None |}.

End WithServices.

End Router.

(* ===================================================================== *)
(** * utils/file_utils.py and config.py *)
(* ===================================================================== *)

Module FileUtils.
Import PyStr.

(** ** [pathlib], POSIX flavour *)

(** The components that [PurePosixPath] keeps: the pieces between
    slashes that are neither empty nor a single dot. *)
Definition is_component (p : list ascii) : bool :=
  match p with
  | [] => false
  | [c] => negb (Ascii.eqb c ".")
  | _ => true
  end.

Definition components (path : list ascii) : list (list ascii) :=
  List.filter is_component (InferenceService.split_chars "/" [] path).

(** [Path(path).name]: the last component, or the empty string. *)
Definition path_name (path : list ascii) : list ascii :=
  default [] (last (components path)).

(** [name.rfind(c)], [None] for -1. *)
Fixpoint rfind (c : ascii) (l : list ascii) : option nat :=
  match l with
  | [] => None
  | d :: l' =>
      match rfind c l' with
      | Some i => Some (S i)
      | None => if Ascii.eqb d c then Some 0%nat else None
      end
  end.

(** [i = name.rfind('.')]; [name[i:] if 0 < i < len(name) - 1 else ''] *)
Definition suffix_of_name (name : list ascii) : list ascii :=
  match rfind "." name with
  | Some i => if ((0 <? i) && (i + 1 <? length name))%nat then drop i name else []
  | None => []
  end.

(** [Path(path).suffix] *)
Definition suffix (path : string) : string :=
  of_chars (suffix_of_name (path_name (chars path))).

(** [s.lower()] *)
Definition lower_str (s : string) : string := of_chars (map lower (chars s)).

(** ** config.py *)

Definition ALLOWED_EXTENSIONS : list string :=
  [".pdf"; ".png"; ".jpg"; ".jpeg"; ".gif"; ".bmp"].

(** ** file_utils.py *)

(** [in] on a set of strings. *)
Definition member (x : string) (l : list string) : bool := existsb (String.eqb x) l.

(** [hex] is [uuid.uuid4().hex]. *)
Definition generate_unique_filename (hex original_filename : string) : string :=
  hex +:+ suffix original_filename.

Definition is_allowed_file (filename : string) : bool :=
  member (lower_str (suffix filename)) ALLOWED_EXTENSIONS.

(** [dir / name] for a name that is one component. *)
Definition joinpath (dir name : string) : string := dir +:+ "/" +:+ name.

(** The path that [save_upload_file] writes and returns. *)
Definition upload_file_path (upload_dir hex filename : string) : string :=
  joinpath upload_dir (generate_unique_filename hex filename).

(** The path that [save_image] writes and returns. *)
Definition save_image_path (images_dir image_id extension : string) : string :=
  joinpath images_dir (image_id +:+ "." +:+ extension).

End FileUtils.

(* ===================================================================== *)
(** * The endpoints of routers/pdf_router.py and routers/image_router.py *)
(* ===================================================================== *)

Module Endpoints.
Import PyStr Py Router FileUtils.

Record HTTPException := { status_code : Z; detail : string }.

(** An endpoint that fails: with an [HTTPException], or with another
    exception that the framework answers. *)
Inductive Failure :=
| Http (e : HTTPException)
| Raised (e : exn).

(** What [background_tasks.add_task] is given. *)
Inductive Task :=
| ProcessPdf (task_id file_path filename : string)
| ProcessImage (task_id file_path filename : string).

(** The answer of an upload, with the task it scheduled. *)
Record Accepted := {
  acc_task_id : string;
  acc_message : string;
  acc_task : Task
}.

(** What an upload meets: the two directories, the writing of the file,
    and the two identifiers drawn with [uuid.uuid4().hex]. *)
Record UploadEnv := {
  upload_dir : string;
  images_dir : string;
  write_file : string -> exn + unit;
  file_hex : string;
  task_hex : string
}.

Definition save_upload_file (env : UploadEnv) (filename : string) : exn + string :=
  let file_path := upload_file_path (upload_dir env) (file_hex env) filename in
  match write_file env file_path with
  | inr _ => inr file_path
  | inl e => inl e
  end.

(** [processing_status[task_id] = {...}] and the answer. *)
Definition accept (task_id status_message answer : string) (task : Task) (w : World)
  : (Failure + Accepted) * World :=
  (inr {| acc_task_id := task_id; acc_message := answer; acc_task := task |},
   snd (set_status task_id (submitted status_message) w)).

(** [file.filename] is [None] or a string. *)
Definition upload_pdf (env : UploadEnv) (filename : option string) (w : World)
  : (Failure + Accepted) * World :=
  match filename with
  | None | Some EmptyString =>
      (inl (Http {| status_code := 400; detail := "No file provided" |}), w)
  | Some fn =>
      if negb (is_allowed_file fn) then
        (inl (Http {| status_code := 400; detail := "Only PDF files are allowed" |}), w)
      else
        match save_upload_file env fn with
        | inl e => (inl (Raised e), w)
        | inr file_path =>
            accept (task_hex env) "PDF uploaded, starting extraction..."
                   "PDF uploaded successfully, processing started"
                   (ProcessPdf (task_hex env) file_path fn) w
        end
  end.

Definition IMAGE_EXTENSIONS : list string := [".png"; ".jpg"; ".jpeg"; ".gif"; ".bmp"].

Definition upload_image (env : UploadEnv) (filename : option string) (w : World)
  : (Failure + Accepted) * World :=
  match filename with
  | None | Some EmptyString =>
      (inl (Http {| status_code := 400; detail := "No file provided" |}), w)
  | Some fn =>
      if negb (member (lower_str (suffix fn)) IMAGE_EXTENSIONS) then
        (inl (Http {| status_code := 400; detail := "Only image files are allowed" |}), w)
      else
        match save_upload_file env fn with
        | inl e => (inl (Raised e), w)
        | inr file_path =>
            accept (task_hex env) "Image uploaded, starting analysis..."
                   "Image uploaded successfully, processing started"
                   (ProcessImage (task_hex env) file_path fn) w
        end
  end.

(** The background task, run after the answer is sent. *)
Definition run_task (svc : Services) (t : Task) : M unit :=
  match t with
  | ProcessPdf task_id file_path filename => process_pdf svc task_id file_path filename
  | ProcessImage task_id file_path filename => process_image svc task_id file_path filename
  end.

Definition get_processing_status (task_id : string) (w : World)
  : HTTPException + StatusEntry :=
  match processing_status w !! task_id with
  | Some entry => inr entry
  | None => inl {| status_code := 404; detail := "Task not found" |}
  end.

(** [ext = file_path.suffix.lstrip(".")] and
    [target_path = IMAGES_DIR / f"{image_id}.{ext}"] of [process_image]. *)
Definition image_target (images_dir file_path image_id : string) : string :=
  let ext := of_chars (lstrip_chars (fun c => Ascii.eqb c ".") (chars (suffix file_path))) in
  joinpath images_dir (image_id +:+ "." +:+ ext).

(** [get_image]: the first of five names that exists; [exists_] is
    [Path.exists] on the file system. *)
Definition get_image (images_dir : string) (exists_ : string -> bool) (image_id : string)
  : HTTPException + string :=
  match List.find exists_
          (map (fun ext => joinpath images_dir (image_id +:+ "." +:+ ext))
               ["png"; "jpg"; "jpeg"; "gif"; "bmp"]) with
  | Some image_path => inr image_path
  | None => inl {| status_code := 404; detail := "Image not found" |}
  end.

End Endpoints.

(* ===================================================================== *)
(** * services/json_storage.py *)
(* ===================================================================== *)

Module JSONStorage.
Import Py.

Section WithResults.
(** The dictionary given to [save_extraction], as JSON keeps it; the
    clock; [now.strftime('%Y%m%d_%H%M%S')] and [now.isoformat()]. *)
Context {Result : Type}.
Context {Time : Type}.
Variable strftime : Time -> string.
Variable isoformat : Time -> string.

(** One entry of the list "extractions": the dictionary with the two
    keys that [save_extraction] sets.  An entry that was not written by
    [save_extraction] may lack them. *)
Record Extraction := {
  ex_extraction_id : option string;
  ex_saved_at : option string;
  ex_result : Result
}.

(** The results file:
    - absent: [open] raises FileNotFoundError;
    - text that is not JSON: [json.load] raises JSONDecodeError;
    - a file whose reading raises [e], an exception other than these
      two: UnicodeDecodeError for bytes that are not UTF-8,
      PermissionError, ...;
    - the dictionary [{"extractions": [...]}] that [_write_data] writes.
    Valid JSON of another shape is not modelled. *)
Inductive FileState :=
| Missing
| NotJSON
| Unreadable (e : exn)
| Data (extractions : list Extraction).

(** Only JSONDecodeError and FileNotFoundError are caught. *)
Definition _read_data (f : FileState) : exn + list Extraction :=
  match f with
  | Data l => inr l
  | Missing | NotJSON => inr []
  | Unreadable e => inl e
  end.

(** What a write of the results file meets: it succeeds, or it raises
    and leaves the file in some state. *)
Inductive WriteOutcome :=
| Written
| WriteFails (e : exn) (remains : FileState).

Definition _write_data (wr : WriteOutcome) (data : list Extraction)
  : (exn + unit) * FileState :=
  match wr with
  | Written => (inr tt, Data data)
  | WriteFails e remains => (inl e, remains)
  end.

(** [if not self.results_file.exists(): self._write_data(...)] *)
Definition _ensure_file_exists (wr : WriteOutcome) (f : FileState)
  : (exn + unit) * FileState :=
  match f with
  | Missing => _write_data wr []
  | _ => (inr tt, f)
  end.

(** [now_id] and [now_saved] are the two readings of the clock. *)
Definition save_extraction (wr : WriteOutcome) (now_id now_saved : Time) (result : Result)
    (f : FileState) : (exn + string) * FileState :=
  match _read_data f with
  | inl e => (inl e, f)
  | inr data =>
      let extraction_id := "extraction_" +:+ strftime now_id in
      let entry := {| ex_extraction_id := Some extraction_id;
                      ex_saved_at := Some (isoformat now_saved);
                      ex_result := result |} in
      match _write_data wr (data ++ [entry]) with
      | (inr _, f') => (inr extraction_id, f')
      | (inl e, f') => (inl e, f')
      end
  end.

Definition has_id (extraction_id : string) (e : Extraction) : bool :=
  match ex_extraction_id e with
  | Some i => String.eqb i extraction_id
  | None => false
  end.

Definition get_extraction (extraction_id : string) (f : FileState)
  : exn + option Extraction :=
  match _read_data f with
  | inl e => inl e
  | inr data => inr (List.find (has_id extraction_id) data)
  end.

Definition get_all_extractions (f : FileState) : exn + list Extraction := _read_data f.

Definition get_latest_extraction (f : FileState) : exn + option Extraction :=
  match get_all_extractions f with
  | inl e => inl e
  | inr extractions => inr (last extractions)
  end.

Definition clear_all (wr : WriteOutcome) (f : FileState) : (exn + unit) * FileState :=
  _write_data wr [].

(** The module-level functions go through the singleton; creating it
    makes sure that the file exists, and when that write raises the
    singleton is not kept.  [wr_new] is that write. *)
Record Storage := { created : bool; results_file : FileState }.

Definition get_json_storage (wr_new : WriteOutcome) (st : Storage)
  : (exn + unit) * Storage :=
  if created st then (inr tt, st)
  else
    match _ensure_file_exists wr_new (results_file st) with
    | (inr _, f) => (inr tt, {| created := true; results_file := f |})
    | (inl e, f) => (inl e, {| created := false; results_file := f |})
    end.

Definition save_result (wr_new wr : WriteOutcome) (now_id now_saved : Time)
    (result : Result) (st : Storage) : (exn + string) * Storage :=
  match get_json_storage wr_new st with
  | (inl e, st') => (inl e, st')
  | (inr _, st') =>
      let '(r, f) := save_extraction wr now_id now_saved result (results_file st') in
      (r, {| created := created st'; results_file := f |})
  end.

Definition get_result (wr_new : WriteOutcome) (extraction_id : string) (st : Storage)
  : (exn + option Extraction) * Storage :=
  match get_json_storage wr_new st with
  | (inl e, st') => (inl e, st')
  | (inr _, st') => (get_extraction extraction_id (results_file st'), st')
  end.

Definition get_all_results (wr_new : WriteOutcome) (st : Storage)
  : (exn + list Extraction) * Storage :=
  match get_json_storage wr_new st with
  | (inl e, st') => (inl e, st')
  | (inr _, st') => (get_all_extractions (results_file st'), st')
  end.

End WithResults.

End JSONStorage.

(* ===================================================================== *)
(** * services/pdf_extractor.py *)
(* ===================================================================== *)

Module PDFExtractor.
Import PyStr Py Router FileUtils.

(** A page of the document: what [page.get_text()] and
    [page.get_images(full=True)] do, each returning or raising, and for
    each image listed what the [try] block meets: an exception, or the
    extension of the image that was extracted and saved. *)
Record Page := {
  page_text : exn + string;
  page_images : exn + list (exn + string)
}.

Definition Document := list Page.

(** [uuid8 page_num img_index] is the [uuid.uuid4().hex[:8]] drawn for
    that image. *)
Definition image_id_of (uuid8 : nat -> nat -> string) (page_num img_index : nat) : string :=
  "img_" +:+ str_of_nat (page_num + 1) +:+ "_" +:+ str_of_nat (img_index + 1)
  +:+ "_" +:+ uuid8 page_num img_index.

(** The inner loop: [enumerate(image_list)] from [img_index]. *)
Fixpoint extract_page_images (images_dir : string) (uuid8 : nat -> nat -> string)
    (page_num img_index : nat) (image_list : list (exn + string)) : list ImgInfo :=
  match image_list with
  | [] => []
  | outcome :: rest =>
      let more := extract_page_images images_dir uuid8 page_num (S img_index) rest in
      match outcome with
      | inr image_ext =>
          let image_id := image_id_of uuid8 page_num img_index in
          {| image_id := image_id;
             image_path := save_image_path images_dir image_id image_ext;
             page_number := Z.of_nat page_num + 1 |} :: more
      | inl _ => more
      end
  end.

(** The outer loop: [range(len(self.doc))] from [page_num]; a page whose
    images cannot be listed ends the extraction with its exception. *)
Fixpoint extract_images_from (images_dir : string) (uuid8 : nat -> nat -> string)
    (page_num : nat) (pages : list Page) : exn + list ImgInfo :=
  match pages with
  | [] => inr []
  | page :: rest =>
      match page_images page with
      | inl e => inl e
      | inr image_list =>
          match extract_images_from images_dir uuid8 (S page_num) rest with
          | inl e => inl e
          | inr more =>
              inr (extract_page_images images_dir uuid8 page_num 0 image_list ++ more)
          end
      end
  end.

Definition extract_images (images_dir : string) (uuid8 : nat -> nat -> string)
    (doc : Document) : exn + list ImgInfo :=
  extract_images_from images_dir uuid8 0 doc.

(** [sep.join(l)] *)
Fixpoint join (sep : string) (l : list string) : string :=
  match l with
  | [] => ""
  | [a] => a
  | a :: r => a +:+ sep +:+ join sep r
  end.

Definition newline : string := String (ascii_of_nat 10) "".

(** The pages whose text is not blank, each under its heading; [strip]
    is that of [PyStr], the white space of ASCII. *)
Fixpoint page_texts (page_num : nat) (pages : list Page) : exn + list string :=
  match pages with
  | [] => inr []
  | page :: rest =>
      match page_text page with
      | inl e => inl e
      | inr text =>
          match page_texts (S page_num) rest with
          | inl e => inl e
          | inr more =>
              if String.eqb (strip text) "" then inr more
              else inr (("--- Page " +:+ str_of_nat (page_num + 1) +:+ " ---" +:+ newline
                         +:+ text) :: more)
          end
      end
  end.

Definition extract_text (doc : Document) : exn + string :=
  match page_texts 0 doc with
  | inl e => inl e
  | inr full_text => inr (join (newline +:+ newline) full_text)
  end.

Definition get_total_pages (doc : Document) : Z := Z.of_nat (length doc).

(** [extract_pdf]: [opened] is what [fitz.open] does with the path; the
    three values are computed in the order of the dictionary. *)
Definition extract_pdf (images_dir : string) (uuid8 : nat -> nat -> string)
    (opened : exn + Document) : exn + PdfContent :=
  match opened with
  | inl e => inl e
  | inr doc =>
      match extract_text doc with
      | inl e => inl e
      | inr text =>
          match extract_images images_dir uuid8 doc with
          | inl e => inl e
          | inr images =>
              inr {| pc_total_pages := get_total_pages doc;
                     pc_text := text;
                     pc_images := images |}
          end
      end
  end.

End PDFExtractor.

(* ===================================================================== *)
(** * services/chart_analyzer.py *)
(* ===================================================================== *)

Module ChartAnalyzer.
Import Py.

Section WithModel.
(** The processor and the model of Pix2Struct, and an opened image. *)
Context {Processor : Type}.
Context {Pix2Struct : Type}.
Context {Picture : Type}.

(** What one call meets: whether the library was imported, what the two
    [from_pretrained] and [model.to(device)] do, what [Image.open] does,
    and what asking one question gives once the model is there. *)
Record Env := {
  TRANSFORMERS_AVAILABLE : bool;
  load_processor : exn + Processor;
  load_pix2struct : exn + Pix2Struct;
  to_device : Pix2Struct -> exn + unit;
  open_image : string -> exn + Picture;
  ask : Processor -> Pix2Struct -> Picture -> string -> exn + string
}.

(** [self.processor] and [self.model]. *)
Record State := {
  processor : option Processor;
  model : option Pix2Struct
}.

Definition initial : State := {| processor := None; model := None |}.

Definition _load_model (env : Env) (st : State) : bool * State :=
  if negb (TRANSFORMERS_AVAILABLE env) then (false, st)
  else
    match processor st with
    | Some _ => (true, st)
    | None =>
        match load_processor env with
        | inl _ => (false, st)
        | inr p =>
            let st1 := {| processor := Some p; model := model st |} in
            match load_pix2struct env with
            | inl _ => (false, st1)
            | inr m =>
                let st2 := {| processor := Some p; model := Some m |} in
                match to_device env m with
                | inl _ => (false, st2)
                | inr _ => (true, st2)
                end
            end
        end
    end.

Record Analysis := {
  success : bool;
  answers : gmap string string;
  message : option string
}.

Definition _fallback_analysis : Analysis :=
  {| success := false; answers := ∅;
     message := Some "Pix2Struct model not available" |}.

Definition DEFAULT_QUESTIONS : list string :=
  ["What is the title of this chart?";
   "What does the x-axis represent?";
   "What does the y-axis represent?";
   "What is the maximum value shown?";
   "What is the minimum value shown?";
   "What trend does this chart show?"].

(** One turn of the loop over the questions.  Without a model the call
    [self.model.generate] raises (if nothing before it did). *)
Definition answer_question (env : Env) (st : State) (image : Picture) (question : string)
  : exn + string :=
  match processor st, model st with
  | Some p, Some m => ask env p m image question
  | _, _ => inl (Exn "AttributeError" "'NoneType' object has no attribute 'generate'")
  end.

Fixpoint answer_all (env : Env) (st : State) (image : Picture) (questions : list string)
    (results : gmap string string) : exn + gmap string string :=
  match questions with
  | [] => inr results
  | question :: rest =>
      match answer_question env st image question with
      | inl e => inl e
      | inr answer => answer_all env st image rest (<[question := answer]> results)
      end
  end.

Definition analyze (env : Env) (image_path : string) (questions : option (list string))
    (st : State) : Analysis * State :=
  let questions := default DEFAULT_QUESTIONS questions in
  let '(loaded, st') := _load_model env st in
  if negb loaded then (_fallback_analysis, st')
  else
    match open_image env image_path with
    | inl _ => (_fallback_analysis, st')
    | inr image =>
        match answer_all env st' image questions ∅ with
        | inl _ => (_fallback_analysis, st')
        | inr results => ({| success := true; answers := results; message := None |}, st')
        end
    end.

End WithModel.

End ChartAnalyzer.

(* ===================================================================== *)
(** * Properties of the detector *)
(* ===================================================================== *)

Section DetectorFacts.
Import PyFloat Py ChartDetector.
Variable Image_open : string -> option Image.

(** The classifier always answers with its three keys and nothing else. *)
Lemma analyze_shape (image_path : string) :
  exists b t c,
    _analyze_chart_characteristics Image_open image_path = analysis b t c.
Proof.
  unfold _analyze_chart_characteristics.
  destruct (Image_open image_path) as [img|]; [|by eauto].
  repeat match goal with
         | |- context [if ?c then _ else _] => destruct c
         end; eauto.
Qed.

Lemma analysis_is_chart b t c : analysis b t c !! "is_chart" = Some (VBool b).
Proof. reflexivity. Qed.

Lemma analysis_chart_type b t c : analysis b t c !! "chart_type" = Some (VStr t).
Proof. reflexivity. Qed.

Lemma analysis_confidence b t c : analysis b t c !! "confidence" = Some (VFloat c).
Proof. reflexivity. Qed.

Lemma analysis_detections b t c : analysis b t c !! "detections" = None.
Proof. reflexivity. Qed.

(** Whatever the model does, the three verdict keys of [detect] are those
    of the classifier. *)
Lemma detect_verdict_keys (model : option Model) (image_path key : string) :
  key = "is_chart" \/ key = "chart_type" \/ key = "confidence" ->
  detect Image_open model image_path !! key
  = _analyze_chart_characteristics Image_open image_path !! key.
Proof.
  intros Hkey. unfold detect, _fallback_detection.
  destruct model as [run|]; [|done].
  destruct (run image_path) as [e|results]; [done|].
  destruct (collect_results results []) as [ds|]; [|done].
  destruct (analyze_shape image_path) as (b & t & c & ->).
  rewrite analysis_is_chart, analysis_chart_type, analysis_confidence.
  destruct Hkey as [-> | [-> | ->]]; reflexivity.
Qed.

End DetectorFacts.

Section DetectorClaims.
Import PyFloat Py ChartDetector.

(** A 2 x 2 checkerboard: every neighbouring pair of pixels is an edge. *)
Definition checkerboard : Image :=
  {| gray_array := [[0; 255]; [255; 0]];
     resized_colors := Some [(5000, (0, 0, 0)); (5000, (255, 255, 255))] |}.

Definition open_checkerboard (path : string) : option Image := Some checkerboard.

(** C1. When the horizontal and the vertical edge density of an image both
    exceed 0.05, the geometric classifier answers is_chart = true,
    chart_type = "table", confidence = 0.7, whatever the colour count and
    the aspect ratio are. *)
Theorem table_rule_overrides
  (Image_open : string -> option Image) (image_path : string) (img : Image) :
  Image_open image_path = Some img ->
  fgt (h_lines img) lit_0_05 = true ->
  fgt (v_lines img) lit_0_05 = true ->
  _analyze_chart_characteristics Image_open image_path
  = analysis true "table" lit_0_7.
Proof.
  intros Hopen Hh Hv. unfold _analyze_chart_characteristics.
  rewrite Hopen, Hh, Hv. simpl.
  repeat match goal with
         | |- context [if ?c then _ else _] => destruct c
         end; reflexivity.
Qed.

Lemma table_rule_overrides_witness :
  _analyze_chart_characteristics open_checkerboard "board.png"
  = analysis true "table" lit_0_7.
Proof.
  apply (table_rule_overrides open_checkerboard "board.png" checkerboard);
    vm_compute; reflexivity.
Defined.

(** A model that finds one object of class 0. *)
Definition one_box_model : Model :=
  fun _ => inr [{| boxes := [{| cls0 := of_Z 0; conf0 := lit_0_8; xyxy0 := [] |}];
                   names := {[ 0 := "person" ]} |}].

(** C2. When the object-detection model is present and its run succeeds,
    the keys is_chart, chart_type and confidence of the verdict of
    [detect] are exactly those of the geometric classifier for the same
    image; what the model found only fills the detections list. *)
Theorem detect_takes_geometric_verdict
  (Image_open : string -> option Image) (run : Model) (image_path : string)
  (results : list YoloResult) (detections : list Detection) :
  run image_path = inr results ->
  collect_results results [] = Some detections ->
  let verdict := detect Image_open (Some run) image_path in
  let geometric := _analyze_chart_characteristics Image_open image_path in
  verdict !! "is_chart" = geometric !! "is_chart" /\
  verdict !! "chart_type" = geometric !! "chart_type" /\
  verdict !! "confidence" = geometric !! "confidence" /\
  verdict = <["detections" := VDetections detections]> geometric.
Proof.
  intros Hrun Hcollect verdict geometric.
  repeat split; try (apply detect_verdict_keys; tauto).
  subst verdict geometric. unfold detect. rewrite Hrun, Hcollect.
  destruct (analyze_shape Image_open image_path) as (b & t & c & ->).
  rewrite analysis_is_chart, analysis_chart_type, analysis_confidence.
  unfold analysis. apply map_eq. intros k.
  destruct (decide (k = "detections")) as [-> | Hd]; [reflexivity|].
  rewrite (lookup_insert_ne _ "detections" k) by congruence.
  destruct (decide (k = "is_chart")) as [-> | H1]; [reflexivity|].
  rewrite !(lookup_insert_ne _ "is_chart" k) by congruence.
  destruct (decide (k = "chart_type")) as [-> | H2]; [reflexivity|].
  rewrite !(lookup_insert_ne _ "chart_type" k) by congruence.
  destruct (decide (k = "confidence")) as [-> | H3]; [reflexivity|].
  rewrite !(lookup_insert_ne _ "confidence" k) by congruence.
  rewrite (lookup_insert_ne _ "detections" k) by congruence.
  reflexivity.
Qed.

Lemma detect_takes_geometric_verdict_witness :
  let verdict := detect open_checkerboard (Some one_box_model) "board.png" in
  let geometric := _analyze_chart_characteristics open_checkerboard "board.png" in
  verdict !! "is_chart" = geometric !! "is_chart" /\
  verdict !! "chart_type" = geometric !! "chart_type" /\
  verdict !! "confidence" = geometric !! "confidence" /\
  verdict = <["detections" :=
                VDetections [{| det_label := "person"; det_confidence := lit_0_8;
                                det_bbox := [] |}]]> geometric.
Proof.
  apply (detect_takes_geometric_verdict open_checkerboard one_box_model "board.png"
           [{| boxes := [{| cls0 := of_Z 0; conf0 := lit_0_8; xyxy0 := [] |}];
               names := {[ 0 := "person" ]} |}]);
    reflexivity.
Defined.

(** When the run of the model raises, the same dictionary is returned. *)
Lemma detect_after_error
  (Image_open : string -> option Image) (run : Model) (e : exn) (image_path : string) :
  run image_path = inl e ->
  detect Image_open (Some run) image_path
  = _analyze_chart_characteristics Image_open image_path.
Proof. intros Hrun. unfold detect, _fallback_detection. by rewrite Hrun. Qed.

(** C8 (as the code behaves). Without a model [detect] returns the
    dictionary of the geometric classifier as it is: the keys is_chart,
    chart_type and confidence, and no detections key at all, so it holds no
    empty list either; reading the key raises KeyError. *)
Theorem fallback_verdict_has_no_detections
  (Image_open : string -> option Image) (image_path : string) :
  detect Image_open None image_path
  = _analyze_chart_characteristics Image_open image_path /\
  detect Image_open None image_path !! "detections" = None /\
  detect Image_open None image_path !! "detections" <> Some (VDetections []).
Proof.
  assert (Hnone : _analyze_chart_characteristics Image_open image_path
                  !! "detections" = None).
  { destruct (analyze_shape Image_open image_path) as (b & t & c & ->).
    apply analysis_detections. }
  split; [reflexivity|]. split; [exact Hnone|].
  unfold detect, _fallback_detection. rewrite Hnone. discriminate.
Qed.

End DetectorClaims.

(* ===================================================================== *)
(** * The order of floats, and [max] / [min] *)
(* ===================================================================== *)

Section FloatOrder.
Import PyFloat.

(** A key that sorts the floats other than NaN as the comparison of the
    interpreter does: class first, then exponent, then mantissa. *)
Definition order_key (x : float) : Z * Z * Z :=
  match x with
  | S754_infinity true => (-2, 0, 0)
  | S754_finite true m e => (-1, - e, - Zpos m)
  | S754_zero _ => (0, 0, 0)
  | S754_nan => (0, 0, 0)
  | S754_finite false m e => (1, e, Zpos m)
  | S754_infinity false => (2, 0, 0)
  end.

Definition key_compare (a b : Z * Z * Z) : comparison :=
  let '(a1, a2, a3) := a in
  let '(b1, b2, b3) := b in
  match a1 ?= b1 with
  | Eq => match a2 ?= b2 with
          | Eq => a3 ?= b3
          | c => c
          end
  | c => c
  end.

Definition key_le (a b : Z * Z * Z) : Prop := key_compare a b <> Gt.

Lemma SFcompare_key (x y : float) :
  is_nan x = false -> is_nan y = false ->
  SFcompare x y = Some (key_compare (order_key x) (order_key y)).
Proof.
  destruct x as [[]|[]| |[] mx ex], y as [[]|[]| |[] my ey];
    simpl; try discriminate; try reflexivity; intros _ _.
  rewrite Z.compare_opp, (Z.compare_antisym ex ey).
  destruct (ex ?= ey); reflexivity.
Qed.

Lemma key_compare_refl a : key_compare a a = Eq.
Proof. destruct a as [[a1 a2] a3]. simpl. by rewrite !Z.compare_refl. Qed.

Lemma key_le_trans a b c : key_le a b -> key_le b c -> key_le a c.
Proof.
  destruct a as [[a1 a2] a3], b as [[b1 b2] b3], c as [[c1 c2] c3].
  unfold key_le, key_compare.
  destruct (Z.compare_spec a1 b1), (Z.compare_spec b1 c1),
    (Z.compare_spec a1 c1); try lia; try congruence;
  destruct (Z.compare_spec a2 b2), (Z.compare_spec b2 c2),
    (Z.compare_spec a2 c2); try lia; try congruence;
  destruct (Z.compare_spec a3 b3), (Z.compare_spec b3 c3),
    (Z.compare_spec a3 c3); try lia; congruence.
Qed.

Lemma key_compare_antisym a b : key_compare b a = CompOpp (key_compare a b).
Proof.
  destruct a as [[a1 a2] a3], b as [[b1 b2] b3]. simpl.
  rewrite (Z.compare_antisym a1 b1), (Z.compare_antisym a2 b2),
    (Z.compare_antisym a3 b3).
  destruct (a1 ?= b1), (a2 ?= b2), (a3 ?= b3); reflexivity.
Qed.

Lemma fle_key (x y : float) :
  is_nan x = false -> is_nan y = false ->
  fle x y = true <-> key_le (order_key x) (order_key y).
Proof.
  intros Hx Hy. unfold fle, SFleb, key_le. rewrite (SFcompare_key x y Hx Hy).
  destruct (key_compare (order_key x) (order_key y)); split; congruence.
Qed.

Lemma fgt_key (x y : float) :
  is_nan x = false -> is_nan y = false ->
  fgt x y = false <-> key_le (order_key x) (order_key y).
Proof.
  intros Hx Hy. unfold fgt, SFltb, key_le. rewrite (SFcompare_key y x Hy Hx).
  rewrite (key_compare_antisym (order_key x) (order_key y)).
  destruct (key_compare (order_key x) (order_key y)); simpl; split; congruence.
Qed.

Lemma flt_key (x y : float) :
  is_nan x = false -> is_nan y = false ->
  flt y x = false <-> key_le (order_key x) (order_key y).
Proof. apply fgt_key. Qed.

Lemma fle_refl (x : float) : is_nan x = false -> fle x x = true.
Proof.
  intros Hx. apply fle_key; [done..|]. unfold key_le. by rewrite key_compare_refl.
Qed.

(** [max] returns an element of the list. *)
Lemma py_max_In (l : list float) (m : float) : py_max l = Some m -> In m l.
Proof.
  destruct l as [|x xs]; [discriminate|]. simpl. intros [= <-].
  assert (G : forall ys a, In (fold_left (fun m y => if fgt y m then y else m) ys a)
                              (a :: ys)).
  { induction ys as [|y ys IH]; intros a; simpl; [tauto|].
    destruct (IH (if fgt y a then y else a)) as [H|H]; [|tauto].
    rewrite <- H. destruct (fgt y a); tauto. }
  apply G.
Qed.

Lemma py_min_In (l : list float) (m : float) : py_min l = Some m -> In m l.
Proof.
  destruct l as [|x xs]; [discriminate|]. simpl. intros [= <-].
  assert (G : forall ys a, In (fold_left (fun m y => if flt y m then y else m) ys a)
                              (a :: ys)).
  { induction ys as [|y ys IH]; intros a; simpl; [tauto|].
    destruct (IH (if flt y a then y else a)) as [H|H]; [|tauto].
    rewrite <- H. destruct (flt y a); tauto. }
  apply G.
Qed.

(** Without NaN, [max] is above and [min] is below every element. *)
Lemma py_max_upper (l : list float) (m : float) :
  (forall x, In x l -> is_nan x = false) ->
  py_max l = Some m -> forall x, In x l -> fle x m = true.
Proof.
  destruct l as [|x0 xs]; [discriminate|]. simpl. intros Hnan [= <-].
  assert (G : forall ys a,
             is_nan a = false -> (forall y, In y ys -> is_nan y = false) ->
             let r := fold_left (fun m y => if fgt y m then y else m) ys a in
             is_nan r = false /\ fle a r = true /\ forall y, In y ys -> fle y r = true).
  { induction ys as [|y ys IH]; intros a Ha Hys; simpl.
    - split; [done|]. split; [by apply fle_refl | tauto].
    - assert (Hy : is_nan y = false) by (apply Hys; simpl; tauto).
      assert (Hb : is_nan (if fgt y a then y else a) = false)
        by (destruct (fgt y a); done).
      destruct (IH (if fgt y a then y else a) Hb) as (Hr & Hbr & Hrest).
      { intros z Hz. apply Hys. simpl. tauto. }
      split; [done|].
      apply fle_key in Hbr; [|done..].
      assert (Hab : key_le (order_key a) (order_key (if fgt y a then y else a)) /\
                    key_le (order_key y) (order_key (if fgt y a then y else a))).
      { destruct (fgt y a) eqn:E.
        - split; [|unfold key_le; by rewrite key_compare_refl].
          apply (fle_key a y Ha Hy). unfold fgt in E. unfold fle, SFleb.
          unfold SFltb in E. destruct (SFcompare a y) as [[]|]; congruence.
        - split; [unfold key_le; by rewrite key_compare_refl|].
          by apply (fgt_key y a Hy Ha). }
      destruct Hab as [Ha' Hy'].
      split; [apply fle_key; [done..|]; eapply key_le_trans; eassumption|].
      intros z [<-|Hz]; [|by apply Hrest].
      apply fle_key; [done..|]. eapply key_le_trans; eassumption. }
  destruct (G xs x0) as (_ & H0 & Hxs).
  { apply Hnan. tauto. }
  { intros y Hy. apply Hnan. tauto. }
  intros x [<-|Hx]; [exact H0 | by apply Hxs].
Qed.

Lemma py_min_lower (l : list float) (m : float) :
  (forall x, In x l -> is_nan x = false) ->
  py_min l = Some m -> forall x, In x l -> fle m x = true.
Proof.
  destruct l as [|x0 xs]; [discriminate|]. simpl. intros Hnan [= <-].
  assert (G : forall ys a,
             is_nan a = false -> (forall y, In y ys -> is_nan y = false) ->
             let r := fold_left (fun m y => if flt y m then y else m) ys a in
             is_nan r = false /\ fle r a = true /\ forall y, In y ys -> fle r y = true).
  { induction ys as [|y ys IH]; intros a Ha Hys; simpl.
    - split; [done|]. split; [by apply fle_refl | tauto].
    - assert (Hy : is_nan y = false) by (apply Hys; simpl; tauto).
      assert (Hb : is_nan (if flt y a then y else a) = false)
        by (destruct (flt y a); done).
      destruct (IH (if flt y a then y else a) Hb) as (Hr & Hbr & Hrest).
      { intros z Hz. apply Hys. simpl. tauto. }
      split; [done|].
      apply fle_key in Hbr; [|done..].
      assert (Hab : key_le (order_key (if flt y a then y else a)) (order_key a) /\
                    key_le (order_key (if flt y a then y else a)) (order_key y)).
      { destruct (flt y a) eqn:E.
        - split; [|unfold key_le; by rewrite key_compare_refl].
          apply (fle_key y a Hy Ha). unfold flt, SFltb in E. unfold fle, SFleb.
          destruct (SFcompare y a) as [[]|]; congruence.
        - split; [unfold key_le; by rewrite key_compare_refl|].
          by apply (flt_key a y Ha Hy). }
      destruct Hab as [Ha' Hy'].
      split; [apply fle_key; [done..|]; eapply key_le_trans; eassumption|].
      intros z [<-|Hz]; [|by apply Hrest].
      apply fle_key; [done..|]. eapply key_le_trans; eassumption. }
  destruct (G xs x0) as (_ & H0 & Hxs).
  { apply Hnan. tauto. }
  { intros y Hy. apply Hnan. tauto. }
  intros x [<-|Hx]; [exact H0 | by apply Hxs].
Qed.

End FloatOrder.

(* ===================================================================== *)
(** * Properties of the deterministic fallback of the inference service *)
(* ===================================================================== *)

Section InferenceClaims.
Import PyFloat PyStr OCRService InferenceService.

Definition is_numeric_max (m : float) (l : list float) : Prop :=
  In m l /\ forall x, In x l -> fle x m = true.

Definition is_numeric_min (m : float) (l : list float) : Prop :=
  In m l /\ forall x, In x l -> fle m x = true.

(** What the fallback is said to compute from the values that parse:
    the trend from the last against the first, the extrema with their
    labels; nothing when fewer than two values parse. *)
Definition fallback_as_stated (ocr_data : OcrResult) : Prop :=
  let nums := numeric_values (values (structured ocr_data)) in
  let r := _fallback_inference ocr_data in
  ((2 <= length nums)%nat ->
   exists first lst mx mn,
     head nums = Some first /\ last nums = Some lst /\
     (fgt lst first = true -> trend r = Some "increasing") /\
     (flt lst first = true -> trend r = Some "decreasing") /\
     (feq lst first = true -> trend r = Some "stable") /\
     max_point r = Some (PointValue mx (str_of_float mx)) /\
     is_numeric_max mx nums /\
     min_point r = Some (PointValue mn (str_of_float mn)) /\
     is_numeric_min mn nums) /\
  ((length nums < 2)%nat ->
   trend r = Some "unknown" /\ max_point r = None /\ min_point r = None).

Definition ocr_with_values (vs : list string) : OcrResult :=
  {| raw_text := vs; ocr_boxes := [];
     structured := {| title := None; x_axis := None; y_axis := None;
                      values := vs; legends := [] |} |}.

Lemma flt_not_fgt (a b : float) : flt a b = true -> fgt a b = false.
Proof.
  unfold flt, fgt, SFltb. intros H.
  destruct (SFcompare a b) as [[]|] eqn:E; try discriminate.
  assert (Ha : is_nan a = false) by (destruct a as [| | |]; simpl in *; congruence).
  assert (Hb : is_nan b = false)
    by (destruct a as [| | |], b as [| | |]; simpl in *; congruence).
  rewrite (SFcompare_key a b Ha Hb) in E.
  rewrite (SFcompare_key b a Hb Ha), (key_compare_antisym (order_key a) (order_key b)).
  injection E as ->. reflexivity.
Qed.

Lemma feq_not_ordered (a b : float) :
  feq a b = true -> fgt a b = false /\ flt a b = false.
Proof.
  unfold feq, flt, fgt, SFeqb, SFltb. intros H.
  destruct (SFcompare a b) as [[]|] eqn:E; try discriminate.
  assert (Ha : is_nan a = false) by (destruct a as [| | |]; simpl in *; congruence).
  assert (Hb : is_nan b = false)
    by (destruct a as [| | |], b as [| | |]; simpl in *; congruence).
  rewrite (SFcompare_key a b Ha Hb) in E.
  rewrite (SFcompare_key b a Hb Ha), (key_compare_antisym (order_key a) (order_key b)).
  injection E as ->. split; reflexivity.
Qed.

(** The trend of the fallback, NaN or not. *)
Lemma trend_of_cases (first lst : float) :
  (fgt lst first = true -> trend_of first lst = "increasing") /\
  (flt lst first = true -> trend_of first lst = "decreasing") /\
  (feq lst first = true -> trend_of first lst = "stable").
Proof.
  unfold trend_of. repeat split.
  - by intros ->.
  - intros H. by rewrite (flt_not_fgt _ _ H), H.
  - intros H. destruct (feq_not_ordered _ _ H) as [-> ->]. reflexivity.
Qed.

(** C3 (amended). When no parsed value is NaN: with two parsed values or
    more, the trend is increasing, decreasing or stable as the last parsed
    value is greater than, less than or equal to the first, and max_point
    and min_point hold the greatest and the least parsed value, each with
    the text of that number as label; with fewer than two, the trend is
    unknown and both points are unset. *)
Theorem fallback_inference_extrema (ocr_data : OcrResult) :
  (forall x, In x (numeric_values (values (structured ocr_data))) -> is_nan x = false) ->
  fallback_as_stated ocr_data.
Proof.
  intros Hnan. unfold fallback_as_stated, _fallback_inference.
  set (nums := numeric_values (values (structured ocr_data))) in *.
  destruct nums as [|a [|b rest]] eqn:E.
  - split; [simpl; lia|]. intros _. simpl. tauto.
  - split; [simpl; lia|]. intros _. simpl. tauto.
  - split; [|simpl; lia]. intros _.
    assert (Hlen : (2 <=? length (a :: b :: rest))%nat = true) by reflexivity.
    rewrite Hlen.
    destruct (last (a :: b :: rest)) as [lst|] eqn:El.
    2:{ apply last_None in El. discriminate. }
    destruct (py_max (a :: b :: rest)) as [mx|] eqn:Emax; [|discriminate].
    destruct (py_min (a :: b :: rest)) as [mn|] eqn:Emin; [|discriminate].
    exists a, lst, mx, mn. cbn [trend max_point min_point].
    destruct (trend_of_cases a lst) as (Hi & Hd & Hs).
    repeat split; try reflexivity.
    + intros H. by rewrite (Hi H).
    + intros H. by rewrite (Hd H).
    + intros H. by rewrite (Hs H).
    + by apply py_max_In.
    + by apply py_max_upper.
    + by apply py_min_In.
    + by apply py_min_lower.
Qed.

Lemma fallback_inference_extrema_witness :
  fallback_as_stated (ocr_with_values ["10"; "20"]).
Proof.
  apply (fallback_inference_extrema (ocr_with_values ["10"; "20"])).
  vm_compute. intros x [<- | [<- | []]]; reflexivity.
Defined.

(** The specification as it is written fails when a value reads as NaN: with the
    values "nan", "5", "7" both points are NaN, which is neither above nor
    below the parsed values 5.0 and 7.0. *)
Lemma fallback_nan_counterexample :
  ~ fallback_as_stated (ocr_with_values ["nan"; "5"; "7"]).
Proof.
  intros [H _].
  destruct H as (first & lst & mx & mn & _ & _ & _ & _ & _ & Hmax & [_ Hup] & _).
  { vm_compute. lia. }
  assert (Hcode : max_point (_fallback_inference (ocr_with_values ["nan"; "5"; "7"]))
                  = Some (PointValue S754_nan "nan")) by (vm_compute; reflexivity).
  rewrite Hcode in Hmax. injection Hmax as <- _.
  specialize (Hup (of_decimal false 5 0)).
  assert (Hin : In (of_decimal false 5 0)
                   (numeric_values (values (structured (ocr_with_values ["nan"; "5"; "7"]))))).
  { vm_compute. tauto. }
  specialize (Hup Hin). vm_compute in Hup. discriminate.
Qed.

(** The two examples: "10", "20" and the single "5". *)
Example fallback_10_20 :
  let r := _fallback_inference (ocr_with_values ["10"; "20"]) in
  trend r = Some "increasing" /\
  max_point r = Some (PointValue (of_decimal false 20 0) "20.0") /\
  min_point r = Some (PointValue (of_decimal false 10 0) "10.0").
Proof. vm_compute. repeat split. Qed.

Example fallback_single_5 :
  let r := _fallback_inference (ocr_with_values ["5"]) in
  trend r = Some "unknown" /\ max_point r = None /\ min_point r = None.
Proof. vm_compute. repeat split. Qed.

(** A greatest value that lies half-way between the two shortest digit
    strings that read back as it: its label ends in the even digit. *)
Example fallback_label_half_way :
  let r := _fallback_inference (ocr_with_values ["1125899906842624.75"; "1"]) in
  exists mx : float,
    py_float "1125899906842624.75" = Some mx /\
    max_point r = Some (PointValue mx "1125899906842624.8") /\
    min_point r = Some (PointValue (of_decimal false 1 0) "1.0").
Proof. eexists. vm_compute. repeat split. Qed.

End InferenceClaims.

(* ===================================================================== *)
(** * Properties of the OCR structurer *)
(* ===================================================================== *)

Section StructurerClaims.
Import PyFloat PyStr OCRService.

(** ** The numeric test *)

(** The characters that [_is_numeric] deletes wherever they stand. *)
Definition is_deleted (c : ascii) : bool :=
  Ascii.eqb c "," || Ascii.eqb c "%" || Ascii.eqb c "$" || Ascii.eqb c "-".

Definition cleaned (text : string) : string :=
  of_chars (strip_chars is_space (List.filter (fun c => negb (is_deleted c)) (chars text))).

(** The test as it is worded: the comma, the percent sign and the dollar
    are deleted, then one hyphen in front is dropped. *)
Definition drop_leading_minus (s : string) : string :=
  match s with
  | String c r => if Ascii.eqb c "-" then r else s
  | EmptyString => s
  end.

Definition is_numeric_as_stated (text : string) : bool :=
  let s := strip (remove_char "$" (remove_char "%" (remove_char "," text))) in
  match py_float (drop_leading_minus s) with
  | Some _ => true
  | None => false
  end.

Lemma chars_of_chars (l : list ascii) : chars (of_chars l) = l.
Proof. apply list_ascii_of_string_of_list_ascii. Qed.

Lemma of_chars_chars (s : string) : of_chars (chars s) = s.
Proof. apply string_of_list_ascii_of_string. Qed.

Lemma chars_append (a b : string) : chars (a +:+ b) = chars a ++ chars b.
Proof. induction a as [|c a IH]; simpl; [done|]. by rewrite <- IH. Qed.

Lemma filter_filter_chars (p q : ascii -> bool) (l : list ascii) :
  List.filter p (List.filter q l) = List.filter (fun c => q c && p c) l.
Proof.
  induction l as [|c l IH]; simpl; [done|].
  destruct (q c); simpl; [destruct (p c)|]; by rewrite IH.
Qed.

Lemma cleaned_spec (text : string) :
  strip (remove_char "-" (remove_char "$" (remove_char "%" (remove_char "," text))))
  = cleaned text.
Proof.
  unfold strip, remove_char, cleaned. rewrite !chars_of_chars.
  rewrite !filter_filter_chars. do 2 f_equal.
  apply List.filter_ext. intros c. unfold is_deleted.
  destruct (Ascii.eqb c ","), (Ascii.eqb c "%"), (Ascii.eqb c "$"), (Ascii.eqb c "-");
    reflexivity.
Qed.

(** C6 (amended). A text is numeric exactly when it reads as a float once
    every comma, percent sign, dollar and hyphen (wherever it stands, not
    only in front) is deleted and the white space around is trimmed; so a
    hyphen never changes the answer; a text that is empty after that is
    not numeric; "1,234.5%" is numeric and "N/A" is not. *)
Theorem is_numeric_deletes_every_hyphen :
  (forall text, _is_numeric text = true <-> exists x, py_float (cleaned text) = Some x) /\
  (forall a b, _is_numeric (a +:+ "-" +:+ b) = _is_numeric (a +:+ b)) /\
  (forall text, cleaned text = "" -> _is_numeric text = false) /\
  _is_numeric "1,234.5%" = true /\
  _is_numeric "N/A" = false.
Proof.
  assert (Hdef : forall text,
             _is_numeric text
             = match py_float (cleaned text) with Some _ => true | None => false end).
  { intros text. unfold _is_numeric. by rewrite cleaned_spec. }
  split; [|split; [|split; [|split]]].
  - intros text. rewrite Hdef. split.
    + destruct (py_float (cleaned text)); [eauto | discriminate].
    + intros [x ->]. reflexivity.
  - intros a b. rewrite !Hdef. unfold cleaned.
    rewrite !chars_append, !List.filter_app. reflexivity.
  - intros text H. rewrite Hdef, H. reflexivity.
  - vm_compute. reflexivity.
  - vm_compute. reflexivity.
Qed.

(** The specification as it is written fails on a text with a hyphen inside, such
    as a range or a date: the code finds "10-20" numeric, where dropping
    the hyphen in front only leaves a text that is not a number. *)
Lemma is_numeric_inner_hyphen_counterexample :
  _is_numeric "10-20" = true /\ is_numeric_as_stated "10-20" = false.
Proof. split; vm_compute; reflexivity. Qed.

(** ** Positions on a zero range *)

Lemma fsub_diag (c : float) : is_finite c = true -> fsub c c = S754_zero false.
Proof.
  destruct c as [s|s| |s m e]; try discriminate; intros _.
  - by destruct s.
  - unfold fsub, SFsub. rewrite Z.sub_diag. reflexivity.
Qed.

Lemma fgt_irrefl (c : float) : fgt c c = false.
Proof.
  unfold fgt, SFltb. destruct (is_nan c) eqn:E.
  - destruct c; try discriminate. reflexivity.
  - by rewrite (SFcompare_key c c E E), key_compare_refl.
Qed.

Lemma fold_max_const (c : float) (l : list float) :
  Forall (eq c) l ->
  fold_left (fun m y => if fgt y m then y else m) l c = c.
Proof.
  induction 1 as [|y l <- _ IH]; simpl; [done|]. by rewrite fgt_irrefl.
Qed.

Lemma fold_min_const (c : float) (l : list float) :
  Forall (eq c) l ->
  fold_left (fun m y => if flt y m then y else m) l c = c.
Proof.
  induction 1 as [|y l <- _ IH]; simpl; [done|].
  unfold flt. fold (fgt c c). by rewrite fgt_irrefl.
Qed.

(** When every box has the same finite [x_center], the code divides a
    zero difference by the range 1 and finds the position 0.0: the
    branch that would answer 0.5 is never reached. *)
Lemma x_pos_on_zero_range (boxes : list TextBox) (bd : Bounds) (c : float) :
  is_finite c = true ->
  Forall (fun b => x_center b = c) boxes ->
  bounds_of boxes = Some bd ->
  forall b, In b boxes -> x_pos bd b = S754_zero false.
Proof.
  intros Hc Hall Hbd b Hb.
  destruct boxes as [|b0 bs]; [destruct Hb|].
  assert (Hxs : Forall (eq c) (map x_center bs)).
  { apply Forall_map. inversion Hall as [|? ? _ Hbs]; subst.
    eapply Forall_impl; [exact Hbs|]. simpl. intros ? <-. reflexivity. }
  assert (Hb0 : x_center b0 = c) by (by inversion Hall).
  unfold bounds_of in Hbd. simpl in Hbd. rewrite Hb0 in Hbd.
  rewrite (fold_max_const c _ Hxs), (fold_min_const c _ Hxs) in Hbd.
  injection Hbd as <-. unfold x_pos. cbn [x_range min_x].
  unfold range_of. rewrite fgt_irrefl.
  assert (Hbc : x_center b = c).
  { rewrite Forall_forall in Hall. apply Hall. by apply list_elem_of_In. }
  rewrite Hbc, (fsub_diag c Hc). reflexivity.
Qed.

(** Two boxes one above the other, as a chart with a title and an axis
    label in one column gives them. *)
Definition box_at (t : string) (x y : Z) : TextBox :=
  {| text := t; confidence := lit_0_8; bbox := [];
     y_center := of_Z y; x_center := of_Z x |}.

Definition stacked_boxes : list TextBox :=
  [box_at "Sales" 200 10; box_at "Year" 200 400].

(** C7 (as the code behaves). On boxes that share one [x_center] the
    horizontal position of each box is 0.0 and not 0.5, so neither the
    title rule nor the x-axis rule, which ask for a position between 0.3
    and 0.7, can match: the two stacked boxes are dropped. *)
Theorem zero_range_position_is_zero :
  exists bd,
    bounds_of stacked_boxes = Some bd /\
    map (x_pos bd) stacked_boxes = [lit_0_0; lit_0_0] /\
    lit_0_0 <> lit_0_5 /\
    _structure_chart_text stacked_boxes = empty_structured.
Proof.
  eexists. split; [reflexivity|].
  split; [vm_compute; reflexivity|].
  split; [vm_compute; discriminate | vm_compute; reflexivity].
Qed.

(** ** One box, one field *)

Inductive Field := FTitle | FXAxis | FYAxis | FValues | FLegends.

(** The guards of the loop body, in the order of the source. *)
Definition rule_title (bd : Bounds) (box : TextBox) : bool :=
  flt (y_pos bd box) lit_0_2
  && (flt lit_0_3 (x_pos bd box) && flt (x_pos bd box) lit_0_7).

Definition rule_x_axis (bd : Bounds) (box : TextBox) : bool :=
  fgt (y_pos bd box) lit_0_8
  && (flt lit_0_3 (x_pos bd box) && flt (x_pos bd box) lit_0_7).

Definition rule_y_axis (bd : Bounds) (box : TextBox) : bool :=
  flt (x_pos bd box) lit_0_15
  && (flt lit_0_2 (y_pos bd box) && flt (y_pos bd box) lit_0_8).

Definition rule_value (box : TextBox) : bool := _is_numeric (strip (text box)).

Definition rule_legend (bd : Bounds) (box : TextBox) : bool :=
  fgt (x_pos bd box) lit_0_7
  || (fgt (y_pos bd box) lit_0_7 && fgt (x_pos bd box) lit_0_5).

(** The first rule that a box matches. *)
Definition first_rule (bd : Bounds) (box : TextBox) : option Field :=
  if rule_title bd box then Some FTitle
  else if rule_x_axis bd box then Some FXAxis
  else if rule_y_axis bd box then Some FYAxis
  else if rule_value box then Some FValues
  else if rule_legend bd box then Some FLegends
  else None.

(** The fields in which two structures differ. *)
Definition changed_fields (a b : StructuredChartText) : list Field :=
  (if decide (title a = title b) then [] else [FTitle])
  ++ (if decide (x_axis a = x_axis b) then [] else [FXAxis])
  ++ (if decide (y_axis a = y_axis b) then [] else [FYAxis])
  ++ (if decide (values a = values b) then [] else [FValues])
  ++ (if decide (legends a = legends b) then [] else [FLegends]).

(** How many boxes a structure accounts for: one per field that is set,
    one per value and one per legend. *)
Definition contributions (st : StructuredChartText) : nat :=
  let set (o : option string) := match o with Some _ => 1%nat | None => 0%nat end in
  (set (title st) + set (x_axis st) + set (y_axis st)
   + length (values st) + length (legends st))%nat.

Lemma changed_fields_same (a : StructuredChartText) : changed_fields a a = [].
Proof. unfold changed_fields. by rewrite !decide_True. Qed.

Lemma app_one_neq {A} (l : list A) (x : A) : l <> l ++ [x].
Proof.
  intros H. apply (f_equal length) in H. rewrite length_app in H. simpl in H. lia.
Qed.

(** One turn of the loop changes nothing but the field of the first rule
    that the box matches. *)
Lemma classify_box_changes (bd : Bounds) (acc : StructuredChartText) (box : TextBox) :
  match first_rule bd box with
  | Some f =>
      changed_fields acc (classify_box bd acc box) = [f] \/
      changed_fields acc (classify_box bd acc box) = []
  | None => classify_box bd acc box = acc
  end.
Proof.
  unfold first_rule, classify_box, rule_title, rule_x_axis, rule_y_axis,
    rule_value, rule_legend.
  set (txt := strip (text box)).
  repeat match goal with
         | |- context [if ?c then _ else _] =>
             lazymatch c with
             | decide _ => fail
             | _ => destruct c eqn:?
             end
         end;
    try reflexivity; try (right; apply changed_fields_same);
    unfold changed_fields; cbn [title x_axis y_axis values legends];
    repeat match goal with
           | |- context [decide (?a = ?a)] => rewrite (decide_True (P := a = a)) by reflexivity
           end;
    repeat case_decide; simpl; auto;
    exfalso; eapply app_one_neq; eassumption.
Qed.

Lemma classify_box_contributions (bd : Bounds) (acc : StructuredChartText) (box : TextBox) :
  (contributions (classify_box bd acc box) <= contributions acc + 1)%nat.
Proof.
  unfold classify_box, contributions.
  repeat match goal with
         | |- context [if ?c then _ else _] =>
             lazymatch c with
             | title _ => fail | x_axis _ => fail | y_axis _ => fail
             | _ => destruct c eqn:?
             end
         end;
    cbn [title x_axis y_axis values legends]; rewrite ?length_app; simpl;
    destruct (title acc), (x_axis acc), (y_axis acc); lia.
Qed.

(** C9. In the structurer a box goes to at most one of the fields title,
    x_axis, y_axis, values and legends: a turn of the loop changes no field
    other than that of the first rule, in the order of the source, that
    the box matches, and changes nothing when no rule matches; hence the
    result accounts for no more contributions than there are boxes. *)
Theorem box_contributes_to_one_field :
  (forall bd acc box,
     (length (changed_fields acc (classify_box bd acc box)) <= 1)%nat /\
     match first_rule bd box with
     | Some f => forall g, In g (changed_fields acc (classify_box bd acc box)) -> g = f
     | None => classify_box bd acc box = acc
     end) /\
  (forall boxes, (contributions (_structure_chart_text boxes) <= length boxes)%nat).
Proof.
  split.
  - intros bd acc box. pose proof (classify_box_changes bd acc box) as H.
    destruct (first_rule bd box) as [f|].
    + destruct H as [-> | ->]; simpl; (split; [lia|]).
      * by intros g [<- | []].
      * by intros g [].
    + rewrite H, changed_fields_same. simpl. split; [lia | reflexivity].
  - intros boxes. unfold _structure_chart_text.
    destruct (bounds_of boxes) as [bd|]; [|cbv [contributions empty_structured
      title x_axis y_axis values legends length Nat.add]; lia].
    assert (G : forall bs acc,
               (contributions (fold_left (classify_box bd) bs acc)
                <= contributions acc + length bs)%nat).
    { induction bs as [|b bs IH]; intros acc; simpl; [lia|].
      specialize (IH (classify_box bd acc b)).
      pose proof (classify_box_contributions bd acc b). lia. }
    apply (G boxes empty_structured).
Qed.

End StructurerClaims.

(* ===================================================================== *)
(** * Properties of the background tasks *)
(* ===================================================================== *)

Section RouterFacts.
Import PyFloat PyStr Py Router.
Variable svc : Services.

Definition has_task (task_id : string) (w : World) : Prop :=
  is_Some (processing_status w !! task_id).

Lemma set_message_ok (task_id msg : string) (w : World) :
  has_task task_id w ->
  exists w', set_message task_id msg w = (inr tt, w') /\
             has_task task_id w' /\ progress_log w' = progress_log w.
Proof.
  intros [e He]. unfold set_message. rewrite He. eexists. split; [reflexivity|].
  split; [|reflexivity]. unfold has_task. simpl. rewrite lookup_insert_eq. eauto.
Qed.

Lemma set_progress_ok (task_id : string) (p : Z) (w : World) :
  has_task task_id w ->
  exists w', set_progress task_id p w = (inr tt, w') /\
             has_task task_id w' /\
             progress_log w' = progress_log w ++ [(task_id, p)].
Proof.
  intros [e He]. unfold set_progress. rewrite He. eexists. split; [reflexivity|].
  split; [|reflexivity]. unfold has_task. simpl. rewrite lookup_insert_eq. eauto.
Qed.

Lemma bind_ok {A B} (c : M A) (k : A -> M B) (w w' : World) (a : A) :
  c w = (inr a, w') -> bind c k w = k a w'.
Proof. intros H. unfold bind. by rewrite H. Qed.

Lemma bind_raise {A B} (c : M A) (k : A -> M B) (w w' : World) (e : exn) :
  c w = (inl e, w') -> bind c k w = (inl e, w').
Proof. intros H. unfold bind. by rewrite H. Qed.

(** The handler of both tasks: the failure is written, nothing is raised. *)
Lemma try_except_records (body : M unit) (task_id : string) (w w1 : World) (e : exn) :
  body w = (inl e, w1) ->
  try_except body (fun e => set_status task_id (failed e)) w
  = (inr tt,
     {| processing_status := <[task_id := failed e]> (processing_status w1);
        progress_log := progress_log w1 ++ [(task_id, 0)] |}).
Proof. intros H. unfold try_except. rewrite H. reflexivity. Qed.

Lemma try_except_returns (body : M unit) (task_id : string) (w : World) :
  exists w', try_except body (fun e => set_status task_id (failed e)) w = (inr tt, w').
Proof.
  unfold try_except. destruct (body w) as [[e|[]] w1]; eexists; reflexivity.
Qed.

(** The call of [process_image]: three positional arguments and the
    keyword [context], which no parameter bears. *)
Lemma keyword_context_rejected (a b c d : pyarg) :
  bind_args generate_chart_inference_sig [a; b; c] [("context", d)]
  = inl (TypeError
           "generate_chart_inference() got an unexpected keyword argument 'context'").
Proof. reflexivity. Qed.

(** The call of [process_pdf]: four positional arguments bind. *)
Lemma four_positionals_bind (p : string) (ct : value) (o : OCRService.OcrResult)
      (ctx : string) :
  generate_chart_inference svc [AStr p; AVal ct; AOcr o; AStr ctx] []
  = lift (generate_inference svc p ct o ctx).
Proof. reflexivity. Qed.

End RouterFacts.

Section RouterClaims.
Import PyFloat PyStr Py Router.

(** The two background tasks. *)
Inductive Job := PdfJob | ImageJob.

Definition job_body (svc : Services) (j : Job) : string -> string -> string -> M unit :=
  match j with
  | PdfJob => process_pdf_body svc
  | ImageJob => process_image_body svc
  end.

Definition job_task (svc : Services) (j : Job) : string -> string -> string -> M unit :=
  match j with
  | PdfJob => process_pdf svc
  | ImageJob => process_image svc
  end.



(** Services for the examples: a detector that finds a table, an OCR
    engine that reads nothing, the fallback inference, and a PDF reader
    that is given as argument. *)
Definition table_verdict : gmap string value :=
  ChartDetector.analysis true "table" lit_0_7.

Definition example_services (extract : string -> exn + PdfContent) : Services :=
  {| extract_pdf := extract;
     detect_chart := fun _ => inr table_verdict;
     extract_chart_text := fun _ => inr OCRService._empty_result;
     generate_inference := fun p t o c =>
       inr (InferenceService.generate_inference None p t o c);
     save_result := fun _ => inr "extraction_20260101_000000";
     copy2 := fun _ _ => inr tt;
     new_image_id := "0123abcd";
     target_path := fun _ id => "output/images/" +:+ id +:+ ".png";
     now := 0 |}.

Definition broken_pdf : string -> exn + PdfContent :=
  fun _ => inl (Exn "FileDataError" "cannot open broken document").

(** The table after [upload_pdf] or [upload_image] accepted task [t1]. *)
Definition world_after_upload : World :=
  {| processing_status := {[ "t1" := submitted "uploaded, starting..." ]};
     progress_log := [] |}.



(** A background task never lets an exception out. *)
Lemma job_task_returns
  (svc : Services) (j : Job) (task_id file_path filename : string) (w : World) :
  exists w', job_task svc j task_id file_path filename w = (inr tt, w').
Proof. destruct j; apply try_except_returns. Qed.

(** A stage that raises makes the body raise: here the first one. *)
Lemma extract_failure_raises
  (svc : Services) (task_id file_path filename : string) (w : World) (e : exn) :
  has_task task_id w ->
  extract_pdf svc file_path = inl e ->
  exists w1, process_pdf_body svc task_id file_path filename w = (inl e, w1).
Proof.
  intros Ht He. unfold process_pdf_body.
  destruct (set_message_ok task_id "Extracting text and images from PDF..." w Ht)
    as (wa & Ha & Hta & _).
  rewrite (bind_ok _ _ _ _ _ Ha).
  destruct (set_progress_ok task_id 10 wa Hta) as (wb & Hb & Htb & _).
  rewrite (bind_ok _ _ _ _ _ Hb).
  rewrite He. eexists. reflexivity.
Qed.

Definition unexpected_context : exn :=
  TypeError "generate_chart_inference() got an unexpected keyword argument 'context'".

(** C5. For an uploaded image that the detector classifies as a chart,
    [process_image] never completes: the job ends with the status
    "failed" and no result, hence with no extraction that carries OCR
    data and an inference.  When the OCR stage returns, the exception is
    the TypeError of the call [generate_chart_inference(..., context="")],
    whose parameter is named [pdf_context]. *)
Theorem chart_upload_always_fails
  (svc : Services) (task_id file_path filename : string) (w : World)
  (detection : gmap string value) (is_chart chart_type : value) :
  has_task task_id w ->
  let target := target_path svc file_path (new_image_id svc) in
  copy2 svc file_path target = inr tt ->
  detect_chart svc target = inr detection ->
  detection !! "is_chart" = Some is_chart ->
  truthy is_chart = true ->
  detection !! "chart_type" = Some chart_type ->
  exists e w1 w2,
    process_image_body svc task_id file_path filename w = (inl e, w1) /\
    process_image svc task_id file_path filename w = (inr tt, w2) /\
    processing_status w2 !! task_id = Some (failed e) /\
    status (failed e) = "failed" /\
    result (failed e) = None /\
    (forall ocr_result, extract_chart_text svc target = inr ocr_result ->
                        e = unexpected_context).
Proof.
  intros Ht target Hcopy Hdet Hic Htruthy Hct.
  assert (Hbody : exists e w1,
             process_image_body svc task_id file_path filename w = (inl e, w1) /\
             (forall ocr_result, extract_chart_text svc target = inr ocr_result ->
                                 e = unexpected_context)).
  { unfold process_image_body. fold target.
    destruct (set_message_ok task_id "Analyzing image content..." w Ht)
      as (wa & Ha & Hta & _).
    rewrite (bind_ok _ _ _ _ _ Ha).
    destruct (set_progress_ok task_id 20 wa Hta) as (wb & Hb & Htb & _).
    rewrite (bind_ok _ _ _ _ _ Hb).
    rewrite Hcopy, Hdet. unfold lift at 1 2.
    rewrite (bind_ok _ _ wb wb tt) by reflexivity.
    rewrite (bind_ok _ _ wb wb detection) by reflexivity.
    unfold getitem at 1. rewrite Hic.
    rewrite (bind_ok _ _ wb wb is_chart) by reflexivity.
    rewrite Htruthy.
    destruct (set_message_ok task_id "Chart detected, running OCR and analysis..." wb Htb)
      as (wc & Hc & Htc & _).
    destruct (set_progress_ok task_id 50 wc Htc) as (wd & Hd & Htd & _).
    destruct (extract_chart_text svc target) as [e|ocr_result] eqn:Eocr.
    - exists e, wd. split; [|discriminate].
      apply bind_raise. rewrite (bind_ok _ _ _ _ _ Hc), (bind_ok _ _ _ _ _ Hd).
      reflexivity.
    - exists unexpected_context, wd. split; [|reflexivity].
      apply bind_raise. rewrite (bind_ok _ _ _ _ _ Hc), (bind_ok _ _ _ _ _ Hd).
      unfold lift. rewrite (bind_ok _ _ wd wd ocr_result) by reflexivity.
      unfold getitem at 1. rewrite Hct.
      rewrite (bind_ok _ _ wd wd chart_type) by reflexivity.
      apply bind_raise. unfold generate_chart_inference.
      rewrite keyword_context_rejected. reflexivity. }
  destruct Hbody as (e & w1 & Hbody & Hexn).
  exists e, w1. eexists. split; [exact Hbody|].
  split; [unfold process_image; apply try_except_records; exact Hbody|].
  split; [simpl; apply lookup_insert_eq|]. repeat split. exact Hexn.
Qed.

Lemma chart_upload_always_fails_witness :
  exists e w1 w2,
    process_image_body (example_services broken_pdf) "t1" "chart.png" "chart.png"
      world_after_upload = (inl e, w1) /\
    process_image (example_services broken_pdf) "t1" "chart.png" "chart.png"
      world_after_upload = (inr tt, w2) /\
    processing_status w2 !! "t1" = Some (failed e) /\
    status (failed e) = "failed" /\
    result (failed e) = None /\
    (forall ocr_result,
       extract_chart_text (example_services broken_pdf) "output/images/0123abcd.png"
       = inr ocr_result -> e = unexpected_context).
Proof.
  apply (chart_upload_always_fails (example_services broken_pdf) "t1" "chart.png"
           "chart.png" world_after_upload table_verdict (VBool true) (VStr "table")).
  - unfold has_task. vm_compute. eauto.
  - reflexivity.
  - reflexivity.
  - reflexivity.
  - reflexivity.
  - reflexivity.
Defined.

(** What that job leaves in the table. *)
Example chart_upload_status :
  exists w2,
    process_image (example_services broken_pdf) "t1" "chart.png" "chart.png"
      world_after_upload = (inr tt, w2) /\
    processing_status w2 !! "t1"
    = Some {| status := "failed";
              message := "Error: generate_chart_inference() got an unexpected keyword argument 'context'";
              progress := 0; result := None; extraction_id := None |}.
Proof. eexists. split; reflexivity. Qed.

End RouterClaims.

(* ===================================================================== *)
(** * Rounding: the float arithmetic of the progress loop

    The quotient and the product of the loop are computed by the
    division and the multiplication of binary64.  This part relates
    their results to the exact rational value rounded to nearest, ties to
    even, and derives that the integer part of [k / n * 60] grows with
    [k] and stays between 0 and 60. *)
(* ===================================================================== *)

Section Rounding.
Import PyFloat.
Local Open Scope Q_scope.

Definition pow2 (e : Z) : Q := (2 # 1) ^ e.

Lemma pow2_pos (e : Z) : 0 < pow2 e.
Proof. apply Qpower_0_lt. reflexivity. Qed.

Lemma pow2_add (a b : Z) : pow2 (a + b) == pow2 a * pow2 b.
Proof. apply Qpower_plus. discriminate. Qed.

Lemma pow2_succ (a : Z) : pow2 (a + 1) == 2 * pow2 a.
Proof. rewrite pow2_add. unfold pow2 at 2. rewrite Qpower_1_r. ring. Qed.

Lemma pow2_le (a b : Z) : (a <= b)%Z -> pow2 a <= pow2 b.
Proof. intros H. apply Qpower_le_compat_l; [exact H | discriminate]. Qed.

Lemma pow2_lt (a b : Z) : (a < b)%Z -> pow2 a < pow2 b.
Proof. intros H. apply Qpower_lt_compat_l; [exact H | reflexivity]. Qed.

Lemma pow2_lt_inv (a b : Z) : pow2 a < pow2 b -> (a < b)%Z.
Proof. intros H. eapply Qpower_lt_compat_l_inv; [exact H | reflexivity]. Qed.

Lemma pow2_Z (a : Z) : (0 <= a)%Z -> pow2 a == inject_Z (2 ^ a).
Proof. intros H. unfold pow2. rewrite Zpower_Qpower by exact H. reflexivity. Qed.

Lemma Qfloor_unique (q : Q) (a : Z) :
  inject_Z a <= q -> q < inject_Z (a + 1) -> Qfloor q = a.
Proof.
  intros H1 H2.
  pose proof (Qfloor_le q) as H3. pose proof (Qlt_floor q) as H4.
  assert (H5 : inject_Z a < inject_Z (Qfloor q + 1)) by lra.
  assert (H6 : inject_Z (Qfloor q) < inject_Z (a + 1)) by lra.
  rewrite <- Zlt_Qlt in H5, H6. lia.
Qed.

(** The nearest integer, ties to even. *)
Definition rne (t : Q) : Z :=
  let f := Qfloor t in
  match Qcompare (t - inject_Z f) (1 # 2) with
  | Lt => f
  | Eq => if Z.even f then f else (f + 1)%Z
  | Gt => (f + 1)%Z
  end.

Lemma rne_bounds (t : Q) : (Qfloor t <= rne t <= Qfloor t + 1)%Z.
Proof.
  unfold rne. destruct (Qcompare (t - inject_Z (Qfloor t)) (1 # 2)); [destruct (Z.even _)|..]; lia.
Qed.

Lemma rne_mono (t u : Q) : t <= u -> (rne t <= rne u)%Z.
Proof.
  intros H. pose proof (Qfloor_resp_le _ _ H) as Hf.
  pose proof (rne_bounds t) as Bt. pose proof (rne_bounds u) as Bu.
  destruct (Z.eq_dec (Qfloor t) (Qfloor u)) as [E|E]; [|lia].
  unfold rne. rewrite <- E.
  destruct (Qcompare_spec (t - inject_Z (Qfloor t)) (1 # 2)) as [H1|H1|H1];
    destruct (Qcompare_spec (u - inject_Z (Qfloor t)) (1 # 2)) as [H2|H2|H2];
    try (destruct (Z.even (Qfloor t))); try lia; lra.
Qed.

Lemma rne_Z (z : Z) : rne (inject_Z z) = z.
Proof.
  unfold rne. rewrite Qfloor_Z.
  destruct (Qcompare_spec (inject_Z z - inject_Z z) (1 # 2)) as [H|H|H]; try lra.
  reflexivity.
Qed.

Global Instance rne_comp : Proper (Qeq ==> eq) rne.
Proof.
  intros t u E. unfold rne. rewrite (Qfloor_comp _ _ E).
  rewrite E. reflexivity.
Qed.


(** [x] lies at mantissa [m], exponent [e], with what is left over at
    location [l]. *)
Definition located (x : Q) (m e : Z) (l : location) : Prop :=
  match l with
  | loc_Exact => x == inject_Z m * pow2 e
  | loc_Inexact Lt =>
      inject_Z m * pow2 e < x /\ x < (inject_Z m + (1 # 2)) * pow2 e
  | loc_Inexact Eq => x == (inject_Z m + (1 # 2)) * pow2 e
  | loc_Inexact Gt =>
      (inject_Z m + (1 # 2)) * pow2 e < x /\ x < (inject_Z m + 1) * pow2 e
  end.

Lemma located_bounds (x : Q) (m e : Z) (l : location) :
  located x m e l -> inject_Z m * pow2 e <= x /\ x < (inject_Z m + 1) * pow2 e.
Proof.
  pose proof (pow2_pos e) as HP. destruct l as [|[]]; simpl; intros H; lra.
Qed.

Lemma scaled (x : Q) (e : Z) : x == (x / pow2 e) * pow2 e.
Proof. pose proof (pow2_pos e). field. lra. Qed.

Lemma located_rne (x : Q) (m e : Z) (l : location) :
  located x m e l -> rne (x / pow2 e) = round_nearest_even m l.
Proof.
  intros H. pose proof (pow2_pos e) as HP. pose proof (scaled x e) as Hx.
  set (t := x / pow2 e) in *.
  pose proof (located_bounds x m e l H) as [Hlo Hhi].
  assert (Hf : Qfloor t = m).
  { apply Qfloor_unique; [nra|]. rewrite inject_Z_plus.
    change (inject_Z 1) with 1. nra. }
  unfold rne. rewrite Hf.
  destruct l as [|[]]; simpl in H |- *;
    destruct (Qcompare_spec (t - inject_Z m) (1 # 2)) as [H1|H1|H1];
    try reflexivity; try nra.
Qed.

Definition located_rec (x : Q) (mrs : shr_record) (e : Z) : Prop :=
  located x (shr_m mrs) e (loc_of_shr_record mrs).

Lemma inject_Z_xO (p : positive) : inject_Z (Z.pos p~0) == 2 * inject_Z (Z.pos p).
Proof. rewrite Pos2Z.inj_xO, inject_Z_mult. reflexivity. Qed.

Lemma inject_Z_xI (p : positive) : inject_Z (Z.pos p~1) == 2 * inject_Z (Z.pos p) + 1.
Proof. rewrite Pos2Z.inj_xI, inject_Z_plus, inject_Z_mult. reflexivity. Qed.

Lemma shr_1_located (x : Q) (mrs : shr_record) (e : Z) :
  (0 <= shr_m mrs)%Z ->
  located_rec x mrs e -> located_rec x (shr_1 mrs) (e + 1).
Proof.
  destruct mrs as [m r s]. unfold located_rec. simpl shr_m. intros Hm H.
  pose proof (pow2_pos e) as HP. pose proof (pow2_succ e) as HS.
  destruct m as [|[p|p|]|p]; try lia;
    destruct r, s; simpl in H |- *;
    rewrite ?inject_Z_xO, ?inject_Z_xI in H;
    change (inject_Z 1) with 1 in *; change (inject_Z 0) with 0 in *;
    rewrite ?HS; try split; nra.
Qed.

Lemma shr_1_nonneg (mrs : shr_record) :
  (0 <= shr_m mrs)%Z -> (0 <= shr_m (shr_1 mrs))%Z.
Proof. destruct mrs as [[|[p|p|]|p] r s]; simpl; lia. Qed.

Lemma iter_shr_located (p : positive) :
  forall (x : Q) (mrs : shr_record) (e : Z),
    (0 <= shr_m mrs)%Z ->
    located_rec x mrs e ->
    (0 <= shr_m (SpecFloat.iter_pos shr_1 p mrs))%Z /\
    located_rec x (SpecFloat.iter_pos shr_1 p mrs) (e + Z.pos p).
Proof.
  induction p as [p IH|p IH|]; intros x mrs e Hm H; simpl.
  - pose proof (shr_1_nonneg mrs Hm) as Hm1.
    pose proof (shr_1_located x mrs e Hm H) as H1.
    destruct (IH x _ _ Hm1 H1) as [Hm2 H2].
    destruct (IH x _ _ Hm2 H2) as [Hm3 H3].
    split; [exact Hm3|].
    replace (e + Z.pos p~1)%Z with (e + 1 + Z.pos p + Z.pos p)%Z by lia. exact H3.
  - destruct (IH x _ _ Hm H) as [Hm2 H2].
    destruct (IH x _ _ Hm2 H2) as [Hm3 H3].
    split; [exact Hm3|].
    replace (e + Z.pos p~0)%Z with (e + Z.pos p + Z.pos p)%Z by lia. exact H3.
  - split; [by apply shr_1_nonneg | by apply shr_1_located].
Qed.

Lemma loc_of_record_of_loc (m : Z) (l : location) :
  loc_of_shr_record (shr_record_of_loc m l) = l /\
  shr_m (shr_record_of_loc m l) = m.
Proof. destruct l as [|[]]; split; reflexivity. Qed.

(** Shifting to a coarser exponent keeps the value located. *)
Lemma shr_located (x : Q) (m e : Z) (l : location) (n : Z) :
  (0 <= m)%Z -> located x m e l ->
  let '(mrs, e') := shr (shr_record_of_loc m l) e n in
  (0 <= shr_m mrs)%Z /\ located_rec x mrs e' /\
  e' = (if (0 <? n)%Z then e + n else e)%Z.
Proof.
  intros Hm H. destruct (loc_of_record_of_loc m l) as [Hl Hsm].
  assert (H0 : located_rec x (shr_record_of_loc m l) e).
  { unfold located_rec. by rewrite Hl, Hsm. }
  unfold shr. destruct n as [|p|p]; simpl.
  - by rewrite Hsm.
  - destruct (iter_shr_located p x (shr_record_of_loc m l) e) as [H1 H2];
      [by rewrite Hsm | done | done].
  - by rewrite Hsm.
Qed.

(** Binary digits. *)
Lemma digits2_pos_bounds (p : positive) :
  (2 ^ (Z.pos (digits2_pos p) - 1) <= Z.pos p < 2 ^ Z.pos (digits2_pos p))%Z.
Proof.
  induction p as [p IH|p IH|]; simpl digits2_pos.
  - rewrite Pos2Z.inj_succ.
    replace (Z.succ (Z.pos (digits2_pos p)) - 1)%Z with (Z.pos (digits2_pos p) - 1 + 1)%Z by lia.
    rewrite Z.pow_succ_r by lia. rewrite Z.pow_add_r by lia. lia.
  - rewrite Pos2Z.inj_succ.
    replace (Z.succ (Z.pos (digits2_pos p)) - 1)%Z with (Z.pos (digits2_pos p) - 1 + 1)%Z by lia.
    rewrite Z.pow_succ_r by lia. rewrite Z.pow_add_r by lia. lia.
  - simpl. lia.
Qed.


Lemma inject_Z_succ (m : Z) : inject_Z (m + 1) == inject_Z m + 1.
Proof. rewrite inject_Z_plus. reflexivity. Qed.

Lemma Zdigits2_bounds (m : Z) :
  (0 < m)%Z -> (2 ^ (Zdigits2 m - 1) <= m < 2 ^ Zdigits2 m)%Z /\ (0 < Zdigits2 m)%Z.
Proof.
  destruct m as [|p|p]; try lia. intros _. simpl Zdigits2.
  split; [apply digits2_pos_bounds | lia].
Qed.

Lemma Zdigits2_le (m : Z) (d : Z) :
  (0 < m)%Z -> (0 <= d)%Z -> (m < 2 ^ d)%Z -> (Zdigits2 m <= d)%Z.
Proof.
  intros Hm Hd H. destruct (Zdigits2_bounds m Hm) as [[H1 _] H2].
  assert (2 ^ (Zdigits2 m - 1) < 2 ^ d)%Z as H3 by lia.
  apply Z.pow_lt_mono_r_iff in H3; lia.
Qed.

Lemma Zdigits2_ge (m : Z) (d : Z) :
  (0 < m)%Z -> (0 <= d)%Z -> (2 ^ d <= m)%Z -> (d < Zdigits2 m)%Z.
Proof.
  intros Hm Hd H. destruct (Zdigits2_bounds m Hm) as [[_ H1] H2].
  assert (2 ^ d < 2 ^ Zdigits2 m)%Z as H3 by lia.
  apply Z.pow_lt_mono_r_iff in H3; lia.
Qed.

(** The rational value of a float that is zero or finite. *)
Definition float_value (z : float) : Q :=
  match z with
  | S754_finite s m e => (if s then - inject_Z (Z.pos m) else inject_Z (Z.pos m)) * pow2 e
  | _ => 0
  end.

(** [z] is zero or a positive finite float. *)
Definition nonneg_finite (z : float) : Prop :=
  z = S754_zero false \/ exists m e, z = S754_finite false m e.

(** [E] is the exponent at which a positive [x] is rounded. *)
Definition expo (x : Q) (E : Z) : Prop :=
  (-1074 <= E)%Z /\ x < pow2 (E + 53) /\ (E = (-1074)%Z \/ pow2 (E + 52) <= x).

(** [x] rounded to the nearest multiple of [2^E], ties to even. *)
Definition rnd_at (E : Z) (x : Q) : Q := inject_Z (rne (x / pow2 E)) * pow2 E.

Lemma fexp_eq (g : Z) : fexp prec emax g = Z.max (g - 53) (-1074).
Proof. reflexivity. Qed.

Lemma inject_Z_pow2 (m d e : Z) :
  (0 <= d)%Z -> (m <= 2 ^ d)%Z -> inject_Z m * pow2 e <= pow2 (d + e).
Proof.
  intros Hd H. rewrite pow2_add, (pow2_Z d Hd).
  pose proof (pow2_pos e). rewrite Zle_Qle in H. nra.
Qed.

Lemma pow2_inject_Z (m d e : Z) :
  (0 <= d)%Z -> (2 ^ d <= m)%Z -> pow2 (d + e) <= inject_Z m * pow2 e.
Proof.
  intros Hd H. rewrite pow2_add, (pow2_Z d Hd).
  pose proof (pow2_pos e). rewrite Zle_Qle in H. nra.
Qed.

Lemma located_expo (x : Q) (m e : Z) (l : location) :
  (0 <= m)%Z -> located x m e l ->
  let E := fexp prec emax (Zdigits2 m + e) in
  (m = 0%Z -> E = (-1074)%Z) ->
  expo x E.
Proof.
  intros Hm H E H0. subst E. rewrite fexp_eq in *.
  pose proof (located_bounds x m e l H) as [Hlo Hhi].
  pose proof (pow2_pos e) as HP.
  split; [lia|]. split.
  - destruct (Z.eq_dec m 0) as [->|Hne].
    + simpl Zdigits2 in *. change (inject_Z 0) with 0 in Hhi.
      assert (pow2 e <= pow2 (Z.max (0 + e - 53) (-1074) + 53)) by (apply pow2_le; lia).
      lra.
    + destruct (Zdigits2_bounds m ltac:(lia)) as [[_ Hd] Hd0].
      assert ((inject_Z m + 1) * pow2 e <= pow2 (Zdigits2 m + e)).
      { rewrite <- inject_Z_succ. apply inject_Z_pow2; lia. }
      assert (pow2 (Zdigits2 m + e) <= pow2 (Z.max (Zdigits2 m + e - 53) (-1074) + 53))
        by (apply pow2_le; lia).
      lra.
  - destruct (Z.eq_dec (Z.max (Zdigits2 m + e - 53) (-1074)) (-1074)) as [E1|E1];
      [by left | right].
    assert (Hm0 : (0 < m)%Z) by (destruct (Z.eq_dec m 0); [tauto | lia]).
    destruct (Zdigits2_bounds m Hm0) as [[Hd _] Hd0].
    replace (Z.max (Zdigits2 m + e - 53) (-1074) + 52)%Z
      with (Zdigits2 m - 1 + e)%Z by lia.
    pose proof (pow2_inject_Z m (Zdigits2 m - 1) e ltac:(lia) Hd). lra.
Qed.

Lemma expo_small (x : Q) (E : Z) : expo x E -> x <= pow2 10 -> (E <= -42)%Z.
Proof.
  intros (H1 & H2 & [->|H3]) Hx; [lia|].
  assert (pow2 (E + 52) < pow2 11).
  { pose proof (pow2_lt 10 11 ltac:(lia)). lra. }
  apply pow2_lt_inv in H. lia.
Qed.

Lemma rne_scaled_bounds (x : Q) (E : Z) :
  0 <= x -> x < pow2 (E + 53) -> (0 <= rne (x / pow2 E) <= 2 ^ 53)%Z.
Proof.
  intros H0 H1. pose proof (pow2_pos E) as HP. pose proof (scaled x E) as Hx.
  set (t := x / pow2 E) in *.
  assert (Ht0 : 0 <= t) by nra.
  assert (Ht1 : t <= inject_Z (2 ^ 53)).
  { rewrite Z.add_comm, pow2_add, (pow2_Z 53) in H1 by lia. nra. }
  split.
  - rewrite <- (rne_Z 0). by apply rne_mono.
  - rewrite <- (rne_Z (2 ^ 53)). by apply rne_mono.
Qed.

(** What [binary_round_aux] returns for a located value that is not huge. *)
Lemma binary_round_aux_value (x : Q) (m e : Z) (l : location) :
  (0 <= m)%Z -> located x m e l ->
  let E := fexp prec emax (Zdigits2 m + e) in
  (l = loc_Exact \/ (e <= E)%Z) ->
  (m = 0%Z -> E = (-1074)%Z) ->
  x <= pow2 10 ->
  let z := binary_round_aux prec emax false m e l in
  expo x E /\ float_value z == rnd_at E x /\ nonneg_finite z.
Proof.
  intros Hm H E Hshift H0 Hx z.
  pose proof (located_expo x m e l Hm H H0) as Hexpo. fold E in Hexpo.
  split; [exact Hexpo|].
  pose proof (expo_small x E Hexpo Hx) as HE.
  destruct Hexpo as (HE0 & Hx1 & _).
  pose proof (located_bounds x m e l H) as [Hlo _].
  assert (Hx0 : 0 <= x).
  { pose proof (pow2_pos e). rewrite Zle_Qle in Hm.
    change (inject_Z 0) with 0 in Hm. nra. }
  pose proof (rne_scaled_bounds x E Hx0 Hx1) as HM.
  unfold rnd_at. set (M := rne (x / pow2 E)) in *.
  (* the first shift *)
  assert (Hfirst :
    let '(mrs', e') := shr_fexp prec emax m e l in
    (e' = E /\ round_nearest_even (shr_m mrs') (loc_of_shr_record mrs') = M) \/
    (e' = e /\ (E < e)%Z /\ l = loc_Exact /\ shr_m mrs' = m /\
     loc_of_shr_record mrs' = loc_Exact)).
  { unfold shr_fexp. fold E.
    pose proof (shr_located x m e l (E - e) Hm H) as Hs.
    destruct (shr (shr_record_of_loc m l) e (E - e)) as [mrs' e'] eqn:Hsh.
    destruct Hs as (Hs1 & Hs2 & Hs3).
    destruct (0 <? E - e)%Z eqn:Hn.
    - apply Z.ltb_lt in Hn. left. split; [lia|]. subst e'.
      replace (e + (E - e))%Z with E in Hs2 by lia.
      symmetry. by apply located_rne.
    - apply Z.ltb_ge in Hn. subst e'.
      destruct (Z.eq_dec e E) as [Ee|Ee].
      + left. split; [lia|]. rewrite Ee in Hs2.
        symmetry. by apply located_rne.
      + right. destruct Hshift as [Hl|Hl]; [|lia]. subst l.
        assert (Hmrs : mrs' = shr_record_of_loc m loc_Exact).
        { unfold shr in Hsh. destruct (E - e)%Z as [|p|p]; try lia; congruence. }
        subst mrs'. repeat split; try reflexivity; lia. }
  unfold z, binary_round_aux.
  destruct (shr_fexp prec emax m e l) as [mrs' e'].
  destruct Hfirst as [[-> ->] | (-> & HEe & -> & -> & ->)].
  - (* rounded at E *)
    destruct (Z.eq_dec M (2 ^ 53)) as [HM53|HM53].
    + rewrite HM53. unfold shr_fexp.
      replace (fexp prec emax (Zdigits2 (2 ^ 53) + E) - E)%Z with 1%Z
        by (rewrite fexp_eq; change (Zdigits2 (2 ^ 53)) with 54%Z; lia).
      change (2 ^ 53)%Z with (Z.pos 9007199254740992).
      cbn [shr shr_record_of_loc SpecFloat.iter_pos shr_1 shr_m].
      replace (E + 1 <=? emax - prec)%Z with true
        by (symmetry; apply Z.leb_le; unfold emax, prec; lia).
      split; [|right; eauto].
      unfold float_value. rewrite pow2_succ.
      change (inject_Z (Z.pos 9007199254740992))
        with (inject_Z (2 * Z.pos 4503599627370496)).
      rewrite inject_Z_mult. change (inject_Z 2) with 2. ring.
    + assert (Hnoop : shr_fexp prec emax M E loc_Exact
                      = (shr_record_of_loc M loc_Exact, E)).
      { unfold shr_fexp. rewrite fexp_eq.
        assert (Hd : (Zdigits2 M <= 53)%Z).
        { destruct (Z.eq_dec M 0) as [->|]; [simpl; lia|].
          apply Zdigits2_le; lia. }
        unfold shr.
        destruct (Z.max (Zdigits2 M + E - 53) (-1074) - E)%Z as [|p|p] eqn:En;
          try reflexivity; lia. }
      rewrite Hnoop. cbn [shr_record_of_loc shr_m].
      destruct M as [|p|p] eqn:EM; [| |lia].
      * split; [|by left]. simpl. ring.
      * replace (E <=? emax - prec)%Z with true
          by (symmetry; apply Z.leb_le; unfold emax, prec; lia).
        split; [reflexivity | right; eauto].
  - (* already exact at a coarser exponent *)
    simpl in H. cbn [round_nearest_even].
    assert (Hnoop : shr_fexp prec emax m e loc_Exact
                    = (shr_record_of_loc m loc_Exact, e)).
    { unfold shr_fexp. fold E. unfold shr.
      destruct (E - e)%Z as [|p|p] eqn:En; try reflexivity; lia. }
    rewrite Hnoop. cbn [shr_record_of_loc shr_m].
    assert (HMm : M = (m * 2 ^ (e - E))%Z).
    { unfold M. rewrite <- (rne_Z (m * 2 ^ (e - E))). apply rne_comp.
      rewrite H, inject_Z_mult, <- (pow2_Z (e - E)) by lia.
      replace e with ((e - E) + E)%Z at 1 by lia. rewrite pow2_add.
      pose proof (pow2_pos E). field. lra. }
    assert (Hval : inject_Z m * pow2 e == inject_Z M * pow2 E).
    { rewrite HMm, inject_Z_mult, <- (pow2_Z (e - E)) by lia.
      replace e with ((e - E) + E)%Z at 1 by lia. rewrite pow2_add. ring. }
    destruct m as [|p|p]; [| |lia].
    + split; [|by left]. simpl. rewrite <- Hval. ring.
    + assert (He : (e <= 10)%Z).
      { assert (pow2 e <= pow2 10) as Hp.
        { pose proof (pow2_pos e). assert (1 <= inject_Z (Z.pos p)).
          { change 1 with (inject_Z 1). rewrite <- Zle_Qle. lia. }
          nra. }
        destruct (Z.le_gt_cases e 10); [done|].
        pose proof (pow2_lt 10 e ltac:(lia)). lra. }
      replace (e <=? emax - prec)%Z with true
        by (symmetry; apply Z.leb_le; unfold emax, prec; lia).
      split; [exact Hval | right; eauto].
Qed.


(** [z] is [x] rounded to a float. *)
Definition rounds_to (x z : Q) : Prop := exists E, expo x E /\ z == rnd_at E x.

Lemma div_pow2 (c : Q) (E : Z) (k : Z) :
  (0 <= k)%Z -> c * pow2 (E + k) / pow2 E == c * inject_Z (2 ^ k).
Proof.
  intros Hk. rewrite Z.add_comm, pow2_add, (pow2_Z k Hk).
  pose proof (pow2_pos E). field. lra.
Qed.

Lemma rounds_to_mono (x y zx zy : Q) :
  0 <= x -> x <= y -> rounds_to x zx -> rounds_to y zy -> zx <= zy.
Proof.
  intros Hx0 Hxy (E1 & (Ha1 & Hb1 & Hc1) & ->) (E2 & (Ha2 & Hb2 & Hc2) & ->).
  unfold rnd_at.
  pose proof (pow2_pos E1) as HP1. pose proof (pow2_pos E2) as HP2.
  assert (HE : (E1 <= E2)%Z).
  { destruct Hc1 as [->|Hc1]; [lia|].
    assert (pow2 (E1 + 52) < pow2 (E2 + 53)) as H by lra.
    apply pow2_lt_inv in H. lia. }
  destruct (Z.eq_dec E1 E2) as [<-|Hne].
  - assert (x / pow2 E1 <= y / pow2 E1) as Ht.
    { pose proof (scaled x E1). pose proof (scaled y E1). nra. }
    pose proof (rne_mono _ _ Ht) as Hr. rewrite Zle_Qle in Hr. nra.
  - destruct (rne_scaled_bounds x E1 Hx0 Hb1) as [_ H1].
    assert (H2 : (2 ^ 52 <= rne (y / pow2 E2))%Z).
    { destruct Hc2 as [->|Hc2]; [lia|].
      rewrite <- (rne_Z (2 ^ 52)). apply rne_mono.
      assert (1 * pow2 (E2 + 52) / pow2 E2 <= y / pow2 E2) as H.
      { pose proof (scaled y E2). unfold Qdiv.
        apply Qmult_le_compat_r; [lra|]. apply Qinv_le_0_compat. lra. }
      rewrite div_pow2 in H by lia. lra. }
    rewrite Zle_Qle in H1, H2.
    assert (Hp : 2 * pow2 E1 <= pow2 E2).
    { rewrite <- pow2_succ. apply pow2_le. lia. }
    change (inject_Z (2 ^ 53)) with (2 * inject_Z (2 ^ 52)) in H1.
    assert (0 < inject_Z (2 ^ 52)) by reflexivity.
    nra.
Qed.

Lemma rounds_to_nonneg (x z : Q) : 0 <= x -> rounds_to x z -> 0 <= z.
Proof.
  intros Hx (E & (Ha & Hb & Hc) & ->). unfold rnd_at.
  destruct (rne_scaled_bounds x E Hx Hb) as [H _].
  rewrite Zle_Qle in H. change (inject_Z 0) with 0 in H.
  pose proof (pow2_pos E). nra.
Qed.

Lemma rounds_to_le_int (x z : Q) (c : Z) :
  (0 <= c <= 1024)%Z -> x <= inject_Z c -> rounds_to x z -> z <= inject_Z c.
Proof.
  intros Hc Hx (E & He & ->).
  assert (HE : (E <= -42)%Z).
  { apply (expo_small x E He). change (pow2 10) with (inject_Z 1024).
    assert (inject_Z c <= inject_Z 1024) by (rewrite <- Zle_Qle; lia). lra. }
  unfold rnd_at. pose proof (pow2_pos E) as HP.
  assert (Hr : (rne (x / pow2 E) <= c * 2 ^ (- E))%Z).
  { rewrite <- (rne_Z (c * 2 ^ (- E))). apply rne_mono.
    rewrite inject_Z_mult, <- (div_pow2 (inject_Z c) E (- E)) by lia.
    replace (E + - E)%Z with 0%Z by lia. change (pow2 0) with 1.
    unfold Qdiv. apply Qmult_le_compat_r; [lra|]. apply Qinv_le_0_compat. lra. }
  rewrite Zle_Qle, inject_Z_mult, <- (pow2_Z (- E)) in Hr by lia.
  assert (pow2 (- E) * pow2 E == 1) as H1.
  { rewrite <- pow2_add. replace (- E + E)%Z with 0%Z by lia. reflexivity. }
  apply Qle_trans with (inject_Z c * pow2 (- E) * pow2 E).
  - apply Qmult_le_compat_r; lra.
  - rewrite <- Qmult_assoc, H1. lra.
Qed.

(** ** Division of two positive integers *)

Lemma new_location_spec (n r : Z) :
  (0 <= r < n)%Z ->
  match new_location n r with
  | loc_Exact => r = 0%Z
  | loc_Inexact Lt => (0 < 2 * r < n)%Z
  | loc_Inexact Eq => (2 * r = n)%Z
  | loc_Inexact Gt => (n < 2 * r)%Z
  end.
Proof.
  intros Hr. unfold new_location, new_location_even, new_location_odd.
  destruct (Z.even n) eqn:En.
  - destruct (Z.eqb_spec r 0) as [->|Hr0]; [done|].
    destruct (Z.compare_spec (2 * r) n); lia.
  - destruct (Z.eqb_spec r 0) as [->|Hr0]; [done|].
    assert (Z.odd n = true) as Ho by (rewrite <- Z.negb_even, En; reflexivity).
    apply Z.odd_spec in Ho. destruct Ho as [j Hj].
    destruct (Z.compare_spec (2 * r + 1) n); lia.
Qed.

Lemma div_core_located (k n : positive) :
  let '(q, e', loc) := SFdiv_core_binary prec emax (Z.pos k) 0 (Z.pos n) 0 in
  (0 <= q)%Z /\
  located (inject_Z (Z.pos k) / inject_Z (Z.pos n)) q e' loc /\
  (e' <= fexp prec emax (Zdigits2 q + e'))%Z /\
  (q = 0%Z -> fexp prec emax (Zdigits2 q + e') = (-1074)%Z).
Proof.
  unfold SFdiv_core_binary.
  set (dk := Zdigits2 (Z.pos k)). set (dn := Zdigits2 (Z.pos n)).
  rewrite !Z.add_0_r, Z.sub_0_r. rewrite fexp_eq.
  set (e' := Z.min (Z.max (dk - dn - 53) (-1074)) 0).
  set (s := (0 - e')%Z).
  assert (Hs : (0 <= s)%Z) by lia.
  assert (Hm' : match s with
                | 0%Z => Z.pos k
                | Z.pos _ => Z.shiftl (Z.pos k) s
                | Z.neg _ => 0%Z
                end = (Z.pos k * 2 ^ s)%Z).
  { destruct s as [|p|p] eqn:Es; [lia | | lia].
    rewrite Z.shiftl_mul_pow2 by lia. reflexivity. }
  rewrite Hm'.
  pose proof (Z_div_mod (Z.pos k * 2 ^ s) (Z.pos n) ltac:(lia)) as Hdiv.
  destruct (Z.div_eucl (Z.pos k * 2 ^ s) (Z.pos n)) as [q r].
  destruct Hdiv as [Hqr Hr].
  destruct (Zdigits2_bounds (Z.pos k) ltac:(lia)) as [[Hk1 Hk2] Hk0]. fold dk in Hk1, Hk2, Hk0.
  destruct (Zdigits2_bounds (Z.pos n) ltac:(lia)) as [[Hn1 Hn2] Hn0]. fold dn in Hn1, Hn2, Hn0.
  assert (Hs2 : (0 < 2 ^ s)%Z) by (apply Z.pow_pos_nonneg; lia).
  assert (Hq : (0 <= q)%Z) by nia.
  assert (A1 : (2 ^ (dk - 1 + s) <= Z.pos k * 2 ^ s)%Z).
  { rewrite Z.pow_add_r by lia. nia. }
  split; [exact Hq|]. split; [|split].
  - (* located *)
    pose proof (new_location_spec (Z.pos n) r Hr) as Hloc.
    set (X := inject_Z (Z.pos k) / inject_Z (Z.pos n)).
    assert (HN : 0 < inject_Z (Z.pos n)) by reflexivity.
    assert (HSP : inject_Z (2 ^ s) * pow2 e' == 1).
    { rewrite <- (pow2_Z s Hs), <- pow2_add. replace (s + e')%Z with 0%Z by lia.
      reflexivity. }
    assert (HK : inject_Z (Z.pos k) * inject_Z (2 ^ s)
                 == inject_Z (Z.pos n) * inject_Z q + inject_Z r).
    { rewrite <- !inject_Z_mult, <- inject_Z_plus, Hqr. reflexivity. }
    assert (HX : X == (inject_Z q + inject_Z r / inject_Z (Z.pos n)) * pow2 e').
    { unfold X.
      assert (inject_Z (Z.pos k)
              == (inject_Z (Z.pos n) * inject_Z q + inject_Z r) * pow2 e') as ->.
      { rewrite <- HK. rewrite <- Qmult_assoc, HSP. ring. }
      field. lra. }
    set (rho := inject_Z r / inject_Z (Z.pos n)) in *.
    assert (Hrho : rho * inject_Z (Z.pos n) == inject_Z r).
    { unfold rho. field. lra. }
    pose proof (pow2_pos e') as HP.
    destruct (new_location (Z.pos n) r) as [|[]]; simpl.
    + rewrite HX. subst r. change (inject_Z 0) with 0 in Hrho.
      assert (rho == 0) as -> by nra. ring.
    + rewrite HX.
      assert (2 * inject_Z r == inject_Z (Z.pos n)) as Hl.
      { rewrite <- Hloc, inject_Z_mult. reflexivity. }
      assert (2 * rho == 1) by nra. assert (rho == 1 # 2) as -> by lra. ring.
    + rewrite HX. destruct Hloc as [Hl1 Hl2].
      rewrite Zlt_Qlt, inject_Z_mult in Hl1, Hl2.
      change (inject_Z 2) with 2 in *. change (inject_Z 0) with 0 in *.
      assert (0 < rho) by nra. assert (2 * rho < 1) by nra. split; nra.
    + rewrite HX. destruct Hr as [Hr1 Hr2].
      rewrite Zlt_Qlt, inject_Z_mult in Hloc. rewrite Zlt_Qlt in Hr2.
      change (inject_Z 2) with 2 in *.
      assert (1 < 2 * rho) by nra. assert (rho < 1) by nra. split; nra.
  - (* the shift is not negative *)
    rewrite fexp_eq. destruct (Z.eq_dec q 0) as [->|Hq0].
    + simpl Zdigits2.
      assert (2 ^ (dk - 1 + s) < 2 ^ dn)%Z as H by lia.
      apply Z.pow_lt_mono_r_iff in H; lia.
    + destruct (Zdigits2_bounds q ltac:(lia)) as [[Hq1 Hq2] Hq3].
      assert (Z.pos k * 2 ^ s < 2 ^ (Zdigits2 q + dn))%Z as A2.
      { rewrite Z.pow_add_r by lia. nia. }
      assert (2 ^ (dk - 1 + s) < 2 ^ (Zdigits2 q + dn))%Z as H by lia.
      apply Z.pow_lt_mono_r_iff in H; lia.
  - intros ->. rewrite fexp_eq. simpl Zdigits2.
    assert (2 ^ (dk - 1 + s) < 2 ^ dn)%Z as H by lia.
    apply Z.pow_lt_mono_r_iff in H; lia.
Qed.


Lemma ratio_bounds (k n : positive) :
  (Z.pos k <= Z.pos n)%Z ->
  0 < inject_Z (Z.pos k) / inject_Z (Z.pos n) /\
  inject_Z (Z.pos k) / inject_Z (Z.pos n) <= 1.
Proof.
  intros H. rewrite Zle_Qle in H.
  assert (0 < inject_Z (Z.pos k)) by reflexivity.
  assert (0 < inject_Z (Z.pos n)) as HN by reflexivity.
  split.
  - apply Qlt_shift_div_l; lra.
  - apply Qle_shift_div_r; lra.
Qed.

(** The quotient of two positive integers [k <= n] is the rounding of
    [k / n]. *)
Lemma truediv_rounds (k n : positive) :
  (Z.pos k <= Z.pos n)%Z ->
  nonneg_finite (int_truediv (Z.pos k) (Z.pos n)) /\
  rounds_to (inject_Z (Z.pos k) / inject_Z (Z.pos n)) (float_value (int_truediv (Z.pos k) (Z.pos n))).
Proof.
  intros Hkn. destruct (ratio_bounds k n Hkn) as [Hx0 Hx1].
  cbn [int_truediv]. unfold fdiv, SFdiv.
  pose proof (div_core_located k n) as H.
  destruct (SFdiv_core_binary prec emax (Z.pos k) 0 (Z.pos n) 0) as [[q e'] loc].
  destruct H as (Hq & Hloc & Hsh & Hz). cbn [xorb].
  destruct (binary_round_aux_value _ q e' loc Hq Hloc (or_intror Hsh) Hz)
    as (He & Hv & Hnf).
  { change (pow2 10) with (inject_Z 1024). change 1 with (inject_Z 1) in Hx1.
    assert (inject_Z 1 <= inject_Z 1024) by (rewrite <- Zle_Qle; lia). lra. }
  split; [exact Hnf|]. eexists. split; eassumption.
Qed.

(** ** Multiplication by 60 *)

Definition sixty : float := S754_finite false 8444249301319680 (-47).

Lemma of_Z_60 : of_Z 60 = sixty.
Proof. reflexivity. Qed.

Lemma value_sixty : float_value sixty == 60.
Proof. reflexivity. Qed.

Lemma mul60_rounds (a : float) :
  nonneg_finite a -> float_value a <= 1 ->
  nonneg_finite (fmul a (of_Z 60)) /\
  ((float_value a == 0 /\ float_value (fmul a (of_Z 60)) == 0) \/
   (0 < float_value a /\ rounds_to (float_value a * 60) (float_value (fmul a (of_Z 60))))).
Proof.
  rewrite of_Z_60. intros [->|(ma & ea & ->)] Ha.
  - split; [by left|]. left. split; reflexivity.
  - unfold fmul, sixty, SFmul. cbn [xorb].
    pose proof (pow2_pos ea) as HP.
    assert (Hpos : 0 < float_value (S754_finite false ma ea)).
    { unfold float_value. assert (0 < inject_Z (Z.pos ma)) by reflexivity. nra. }
    assert (Hloc : located (float_value (S754_finite false ma ea) * 60)
                     (Z.pos (ma * 8444249301319680)) (ea + -47) loc_Exact).
    { unfold float_value, located. rewrite Pos2Z.inj_mul, inject_Z_mult, pow2_add.
      assert (inject_Z (Z.pos 8444249301319680) * pow2 (-47) == 60) as H60
          by reflexivity.
      rewrite <- H60. ring. }
    destruct (binary_round_aux_value _ _ _ _ (Pos2Z.is_nonneg _) Hloc
                (or_introl eq_refl))
      as (He & Hv & Hnf).
    { intros H. discriminate H. }
    { change (pow2 10) with (inject_Z 1024).
      assert (inject_Z 1024 == 1024) by reflexivity. lra. }
    split; [exact Hnf|]. right. split; [exact Hpos|].
    eexists. split; eassumption.
Qed.

(** ** Truncation *)

Lemma trunc_floor (z : float) :
  nonneg_finite z -> to_Z_trunc z = Some (Qfloor (float_value z)).
Proof.
  intros [->|(m & e & ->)]; [reflexivity|].
  unfold to_Z_trunc, float_value. f_equal.
  destruct (Z.leb_spec 0 e) as [He|He].
  - rewrite (pow2_Z e He), <- inject_Z_mult, Qfloor_Z. reflexivity.
  - symmetry. apply Qfloor_unique.
    + assert (Hd : (Z.pos m / 2 ^ (- e) * 2 ^ (- e) <= Z.pos m)%Z).
      { rewrite Z.mul_comm. apply Z.mul_div_le. apply Z.pow_pos_nonneg; lia. }
      rewrite Zle_Qle, inject_Z_mult, <- (pow2_Z (- e)) in Hd by lia.
      assert (pow2 (- e) * pow2 e == 1) as H1.
      { rewrite <- pow2_add. replace (- e + e)%Z with 0%Z by lia. reflexivity. }
      pose proof (pow2_pos e). pose proof (pow2_pos (- e)).
      apply Qle_trans with (inject_Z (Z.pos m / 2 ^ (- e)) * pow2 (- e) * pow2 e).
      * rewrite <- Qmult_assoc, H1. lra.
      * apply Qmult_le_compat_r; lra.
    + assert (Hd : (Z.pos m < (Z.pos m / 2 ^ (- e) + 1) * 2 ^ (- e))%Z).
      { rewrite Z.mul_comm. apply Z.mul_succ_div_gt. apply Z.pow_pos_nonneg; lia. }
      rewrite Zlt_Qlt, inject_Z_mult, <- (pow2_Z (- e)) in Hd by lia.
      assert (pow2 (- e) * pow2 e == 1) as H1.
      { rewrite <- pow2_add. replace (- e + e)%Z with 0%Z by lia. reflexivity. }
      pose proof (pow2_pos e). pose proof (pow2_pos (- e)).
      apply Qlt_le_trans with (inject_Z (Z.pos m / 2 ^ (- e) + 1) * pow2 (- e) * pow2 e).
      * apply Qmult_lt_compat_r; lra.
      * rewrite <- Qmult_assoc, H1. lra.
Qed.

(** ** The fraction of the progress loop *)

(** [int(k / n * 60)] *)
Definition fraction60 (k n : Z) : option Z :=
  to_Z_trunc (fmul (int_truediv k n) (of_Z 60)).

(** The values behind [fraction60 k n], for [1 <= k <= n]. *)
Lemma fraction60_value (k n : positive) :
  (Z.pos k <= Z.pos n)%Z ->
  exists va vb : Q,
    rounds_to (inject_Z (Z.pos k) / inject_Z (Z.pos n)) va /\
    0 <= va /\ va <= 1 /\
    ((va == 0 /\ vb == 0) \/ (0 < va /\ rounds_to (va * 60) vb)) /\
    fraction60 (Z.pos k) (Z.pos n) = Some (Qfloor vb).
Proof.
  intros Hkn. destruct (ratio_bounds k n Hkn) as [Hx0 Hx1].
  destruct (truediv_rounds k n Hkn) as [Hnf Hfl].
  set (a := int_truediv (Z.pos k) (Z.pos n)) in *.
  assert (Ha0 : 0 <= float_value a) by (eapply rounds_to_nonneg; [|exact Hfl]; lra).
  assert (Ha1 : float_value a <= 1).
  { change 1 with (inject_Z 1). eapply rounds_to_le_int; [|exact Hx1|exact Hfl]. lia. }
  destruct (mul60_rounds a Hnf Ha1) as [Hnfb Hb].
  exists (float_value a), (float_value (fmul a (of_Z 60))).
  repeat split; try assumption.
  unfold fraction60. fold a. by apply trunc_floor.
Qed.

Lemma stage_nonneg (va vb : Q) :
  0 <= va -> (va == 0 /\ vb == 0) \/ (0 < va /\ rounds_to (va * 60) vb) -> 0 <= vb.
Proof.
  intros Ha [[_ ->]|[Hp Hfl]]; [lra|]. eapply rounds_to_nonneg; [|exact Hfl]. lra.
Qed.

Lemma fraction60_bounds (k n v : Z) :
  (1 <= k <= n)%Z -> fraction60 k n = Some v -> (0 <= v <= 60)%Z.
Proof.
  intros Hkn Hv. destruct k as [|k|k]; try lia. destruct n as [|n|n]; try lia.
  destruct (fraction60_value k n ltac:(lia)) as (va & vb & Hfa & Ha0 & Ha1 & Hb & Hf).
  rewrite Hf in Hv. injection Hv as <-.
  pose proof (stage_nonneg va vb Ha0 Hb) as Hb0.
  assert (Hb1 : vb <= inject_Z 60).
  { destruct Hb as [[_ ->]|[Hp Hfl]]; [done|].
    eapply rounds_to_le_int; [|
      |exact Hfl]; [lia|]. change (inject_Z 60) with 60. lra. }
  split.
  - change 0%Z with (Qfloor 0). by apply Qfloor_resp_le.
  - rewrite <- (Qfloor_Z 60). by apply Qfloor_resp_le.
Qed.

Lemma fraction60_mono (k k' n v v' : Z) :
  (1 <= k <= k')%Z -> (k' <= n)%Z ->
  fraction60 k n = Some v -> fraction60 k' n = Some v' -> (v <= v')%Z.
Proof.
  intros Hk Hk' Hv Hv'.
  destruct k as [|k|k]; try lia. destruct k' as [|k'|k']; try lia.
  destruct n as [|n|n]; try lia.
  destruct (fraction60_value k n ltac:(lia)) as (va & vb & Hfa & Ha0 & Ha1 & Hb & Hf).
  destruct (fraction60_value k' n ltac:(lia))
    as (va' & vb' & Hfa' & Ha0' & Ha1' & Hb' & Hf').
  rewrite Hf in Hv. rewrite Hf' in Hv'. injection Hv as <-. injection Hv' as <-.
  apply Qfloor_resp_le.
  destruct (ratio_bounds k n ltac:(lia)) as [Hx0 _].
  assert (Hxx : inject_Z (Z.pos k) / inject_Z (Z.pos n)
                <= inject_Z (Z.pos k') / inject_Z (Z.pos n)).
  { unfold Qdiv. apply Qmult_le_compat_r.
    - rewrite <- Zle_Qle. lia.
    - apply Qinv_le_0_compat. discriminate. }
  assert (Hva : va <= va') by (eapply rounds_to_mono; [| |exact Hfa|exact Hfa']; lra).
  pose proof (stage_nonneg va' vb' Ha0' Hb') as Hb0'.
  destruct Hb as [[_ ->]|[Hp Hfl]]; [exact Hb0'|].
  destruct Hb' as [[Hz _]|[Hp' Hfl']]; [lra|].
  eapply rounds_to_mono; [| |exact Hfl|exact Hfl']; lra.
Qed.


Lemma rounds_to_int (x z : Q) (c : Z) :
  (0 <= c <= 1024)%Z -> x == inject_Z c -> rounds_to x z -> z == inject_Z c.
Proof.
  intros Hc Hx (E & He & ->).
  assert (HE : (E <= -42)%Z).
  { apply (expo_small x E He). change (pow2 10) with (inject_Z 1024).
    assert (inject_Z c <= inject_Z 1024) by (rewrite <- Zle_Qle; lia). lra. }
  unfold rnd_at. pose proof (pow2_pos E) as HP.
  assert (Hr : rne (x / pow2 E) = (c * 2 ^ (- E))%Z).
  { rewrite <- (rne_Z (c * 2 ^ (- E))). apply rne_comp.
    rewrite Hx, inject_Z_mult, <- (div_pow2 (inject_Z c) E (- E)) by lia.
    replace (E + - E)%Z with 0%Z by lia. change (pow2 0) with 1.
    field. lra. }
  rewrite Hr, inject_Z_mult, <- (pow2_Z (- E)) by lia.
  rewrite <- Qmult_assoc, <- pow2_add. replace (- E + E)%Z with 0%Z by lia.
  change (pow2 0) with 1. ring.
Qed.

Lemma rounds_to_comp (x x' z : Q) : x == x' -> rounds_to x z -> rounds_to x' z.
Proof.
  intros Hx (E & (H1 & H2 & H3) & Hz). exists E. split.
  - split; [exact H1|]. split; [by rewrite <- Hx|].
    destruct H3 as [H3|H3]; [by left | right; by rewrite <- Hx].
  - rewrite Hz. unfold rnd_at. rewrite (rne_comp (x / pow2 E) (x' / pow2 E)); [reflexivity|].
    by rewrite Hx.
Qed.

(** The fraction is defined for [1 <= k <= n], and is 60 at [k = n]. *)
Lemma fraction60_defined (k n : Z) :
  (1 <= k <= n)%Z -> exists v, fraction60 k n = Some v.
Proof.
  intros Hkn. destruct k as [|k|k]; try lia. destruct n as [|n|n]; try lia.
  destruct (fraction60_value k n ltac:(lia)) as (va & vb & _ & _ & _ & _ & Hf).
  eauto.
Qed.

Lemma fraction60_full (n : Z) : (1 <= n)%Z -> fraction60 n n = Some 60%Z.
Proof.
  intros Hn. destruct n as [|n|n]; try lia.
  destruct (fraction60_value n n ltac:(lia)) as (va & vb & Hfa & Ha0 & Ha1 & Hb & Hf).
  rewrite Hf. f_equal.
  assert (Hone : inject_Z (Z.pos n) / inject_Z (Z.pos n) == inject_Z 1).
  { change (inject_Z 1) with 1. field. discriminate. }
  pose proof (rounds_to_int _ _ 1 ltac:(lia) Hone Hfa) as Hva.
  change (inject_Z 1) with 1 in Hva.
  destruct Hb as [[Hz _]|[_ Hfl]]; [lra|].
  assert (H60 : va * 60 == inject_Z 60).
  { rewrite Hva. reflexivity. }
  pose proof (rounds_to_int _ _ 60 ltac:(lia) H60 Hfl) as Hvb.
  rewrite (Qfloor_comp _ _ Hvb). apply Qfloor_Z.
Qed.

End Rounding.

(* ===================================================================== *)
(** * The progress written by [process_pdf] *)
(* ===================================================================== *)

Section ProgressFacts.
Import PyFloat PyStr Py Router.
Variable svc : Services.

(** A computation that leaves the history of progress values as it is
    when it returns. *)
Definition keeps_log {A} (c : M A) : Prop :=
  forall w a w', c w = (inr a, w') -> progress_log w' = progress_log w.

Lemma bind_inv {A B} (c : M A) (k : A -> M B) (w w' : World) (b : B) :
  bind c k w = (inr b, w') ->
  exists a w1, c w = (inr a, w1) /\ k a w1 = (inr b, w').
Proof.
  unfold bind. destruct (c w) as [[e|a] w1]; [discriminate|]. eauto.
Qed.

Lemma keeps_log_ret {A} (a : A) : keeps_log (ret a).
Proof. intros w b w' [= _ <-]. reflexivity. Qed.

Lemma keeps_log_raise {A} (e : exn) : keeps_log (@raise A e).
Proof. intros w b w' [=]. Qed.

Lemma keeps_log_lift {A} (r : exn + A) : keeps_log (lift r).
Proof. destruct r; [apply keeps_log_raise | apply keeps_log_ret]. Qed.

Lemma keeps_log_bind {A B} (c : M A) (k : A -> M B) :
  keeps_log c -> (forall a, keeps_log (k a)) -> keeps_log (bind c k).
Proof.
  intros Hc Hk w b w' H. destruct (bind_inv _ _ _ _ _ H) as (a & w1 & H1 & H2).
  rewrite (Hk a _ _ _ H2). exact (Hc _ _ _ H1).
Qed.

Lemma keeps_log_getitem (d : gmap string value) (key : string) :
  keeps_log (getitem d key).
Proof.
  unfold getitem. destruct (d !! key); [apply keeps_log_ret | apply keeps_log_raise].
Qed.

Lemma keeps_log_set_message (task_id msg : string) : keeps_log (set_message task_id msg).
Proof.
  intros w a w'. unfold set_message.
  destruct (processing_status w !! task_id); [|discriminate].
  intros [= _ <-]. reflexivity.
Qed.

Lemma keeps_log_generate (pos : list pyarg) (kw : list (string * pyarg)) :
  keeps_log (generate_chart_inference svc pos kw).
Proof.
  unfold generate_chart_inference.
  repeat match goal with
         | |- keeps_log (match ?x with _ => _ end) => destruct x
         end;
    try apply keeps_log_raise; apply keeps_log_lift.
Qed.

Lemma keeps_log_validate (v : value) : keeps_log (validate_type v).
Proof. destruct v; try apply keeps_log_raise. apply keeps_log_ret. Qed.

Lemma set_progress_log (task_id : string) (p : Z) (w w' : World) :
  set_progress task_id p w = (inr tt, w') ->
  progress_log w' = progress_log w ++ [(task_id, p)].
Proof.
  unfold set_progress. destruct (processing_status w !! task_id); [|discriminate].
  intros [= <-]. reflexivity.
Qed.

Lemma set_status_log (task_id : string) (entry : StatusEntry) (w w' : World) :
  set_status task_id entry w = (inr tt, w') ->
  progress_log w' = progress_log w ++ [(task_id, progress entry)] /\
  processing_status w' !! task_id = Some entry.
Proof.
  unfold set_status. intros [= <-]. simpl. split; [reflexivity|].
  apply lookup_insert_eq.
Qed.

(** The progress computed in the loop is 30 plus the fraction. *)
Lemma loop_progress_value (idx total_images p : Z) (w w' : World) :
  loop_progress idx total_images w = (inr p, w') ->
  w' = w /\ exists v, fraction60 (idx + 1) total_images = Some v /\ p = 30 + v.
Proof.
  unfold loop_progress, int_of_float, fraction60.
  destruct (to_Z_trunc (fmul (int_truediv (idx + 1) total_images) (of_Z 60)))
    as [v|]; [|discriminate].
  intros [= <- <-]. eauto.
Qed.

(** One turn of the loop appends one value to the history. *)
Lemma process_pdf_image_log (task_id : string) (content : PdfContent)
      (total_images idx : Z) (img_info : ImgInfo)
      (acc acc' : list ImageExtraction) (w w' : World) :
  process_pdf_image svc task_id content total_images idx img_info acc w = (inr acc', w') ->
  exists v, fraction60 (idx + 1) total_images = Some v /\
            progress_log w' = progress_log w ++ [(task_id, 30 + v)].
Proof.
  unfold process_pdf_image. intros H.
  apply bind_inv in H as (detection & w1 & H1 & H).
  apply bind_inv in H as (is_chart & w2 & H2 & H).
  apply bind_inv in H as (exts & w3 & H3 & H).
  apply bind_inv in H as (p & w4 & H4 & H).
  apply bind_inv in H as ([] & w5 & H5 & H).
  injection H as _ <-.
  apply keeps_log_lift in H1. apply keeps_log_getitem in H2.
  assert (L3 : progress_log w3 = progress_log w2).
  { revert H3. destruct (truthy is_chart); [|apply keeps_log_ret].
    repeat (apply keeps_log_bind; [|intros ?]);
      auto using keeps_log_set_message, keeps_log_lift, keeps_log_getitem,
        keeps_log_generate, keeps_log_validate, keeps_log_ret. }
  apply loop_progress_value in H4 as (-> & v & Hv & ->).
  apply set_progress_log in H5.
  exists v. split; [exact Hv|]. rewrite H5, L3, H2, H1. reflexivity.
Qed.

(** The loop appends the values for the indices [idx + 1], [idx + 2], ... *)
Lemma process_pdf_images_log (task_id : string) (content : PdfContent)
      (total_images : Z) (imgs : list ImgInfo) :
  forall (idx : Z) (acc res : list ImageExtraction) (w w' : World),
    process_pdf_images svc task_id content total_images idx imgs acc w = (inr res, w') ->
    exists vs,
      length vs = length imgs /\
      (forall i v, vs !! i = Some v ->
                   fraction60 (idx + 1 + Z.of_nat i) total_images = Some v) /\
      progress_log w' = progress_log w ++ map (fun v => (task_id, 30 + v)) vs.
Proof.
  induction imgs as [|img imgs IH]; intros idx acc res w w' H; simpl in H.
  - injection H as _ <-. exists []. split; [done|]. split; [intros i v; by destruct i|].
    simpl. by rewrite app_nil_r.
  - apply bind_inv in H as (acc1 & w1 & H1 & H).
    apply process_pdf_image_log in H1 as (v & Hv & L1).
    apply IH in H as (vs & Hlen & Hvs & L2).
    exists (v :: vs). split; [simpl; by rewrite Hlen|]. split.
    + intros [|i] x Hx; simpl in Hx.
      * injection Hx as <-. by rewrite Z.add_0_r.
      * specialize (Hvs i x Hx).
        replace (idx + 1 + Z.of_nat (S i)) with (idx + 1 + 1 + Z.of_nat i) by lia.
        exact Hvs.
    + rewrite L2, L1. simpl. by rewrite <- app_assoc.
Qed.

End ProgressFacts.

Section ProgressClaims.
Import PyFloat PyStr Py Router.

Lemma sorted_app (l1 l2 : list Z) (mid : Z) :
  Sorted Z.le l1 -> Sorted Z.le l2 ->
  Forall (fun x => x <= mid) l1 -> Forall (fun x => mid <= x) l2 ->
  Sorted Z.le (l1 ++ l2).
Proof.
  intros S1 S2 F1 F2. induction l1 as [|a l1 IH]; simpl; [exact S2|].
  inversion S1 as [|? ? S1' Hd]; subst. inversion F1 as [|? ? Ha F1']; subst.
  constructor; [by apply IH|].
  destruct l1 as [|b l1]; simpl.
  - destruct l2 as [|c l2]; constructor.
    inversion F2; subst. lia.
  - constructor. by inversion Hd.
Qed.

(** The values of the loop, for the indices [start], [start + 1], ...
    up to the number of images, never decrease and lie within 30 and 90. *)
Lemma loop_values_sorted (total_images : Z) (vs : list Z) :
  forall start : Z,
    1 <= start -> start + Z.of_nat (length vs) - 1 <= total_images ->
    (forall i v, vs !! i = Some v ->
                 fraction60 (start + Z.of_nat i) total_images = Some v) ->
    Sorted Z.le (map (Z.add 30) vs) /\
    Forall (fun p => 30 <= p <= 90) (map (Z.add 30) vs).
Proof.
  induction vs as [|v vs IH]; intros start Hs Hn Hvs; simpl; [split; constructor|].
  simpl length in Hn.
  assert (Hv : fraction60 start total_images = Some v).
  { rewrite <- (Z.add_0_r start). apply (Hvs 0%nat v). reflexivity. }
  pose proof (fraction60_bounds start total_images v ltac:(lia) Hv) as Hb.
  destruct (IH (start + 1)) as [IHs IHf]; [lia | lia | |].
  { intros i x Hx. replace (start + 1 + Z.of_nat i) with (start + Z.of_nat (S i)) by lia.
    by apply Hvs. }
  split; [|constructor; [lia | exact IHf]].
  constructor; [exact IHs|].
  destruct vs as [|v2 vs]; simpl; constructor.
  assert (Hv2 : fraction60 (start + 1) total_images = Some v2).
  { replace (start + 1) with (start + Z.of_nat 1) by lia. apply (Hvs 1%nat v2). reflexivity. }
  simpl length in Hn.
  pose proof (fraction60_mono start (start + 1) total_images v v2
                ltac:(lia) ltac:(lia) Hv Hv2).
  lia.
Qed.

(** The progress values written by the body of [process_pdf] when it
    returns: 10, 30, one value per image, 95, 100. *)
Lemma process_pdf_body_log (svc : Services) (task_id file_path filename : string)
      (w w' : World) :
  process_pdf_body svc task_id file_path filename w = (inr tt, w') ->
  exists (vs : list Z) (entry : StatusEntry),
    progress_log w'
    = progress_log w
      ++ map (pair task_id) ([10; 30] ++ map (Z.add 30) vs ++ [95; 100]) /\
    Sorted Z.le (map (Z.add 30) vs) /\
    Forall (fun p => 30 <= p <= 90) (map (Z.add 30) vs) /\
    processing_status w' !! task_id = Some entry /\
    status entry = "completed" /\ progress entry = 100.
Proof.
  unfold process_pdf_body. intros H.
  apply bind_inv in H as ([] & w1 & H1 & H).
  apply bind_inv in H as ([] & w2 & H2 & H).
  apply bind_inv in H as (content & w3 & H3 & H).
  apply bind_inv in H as ([] & w4 & H4 & H).
  apply bind_inv in H as ([] & w5 & H5 & H).
  apply bind_inv in H as (exts & w6 & H6 & H).
  apply bind_inv in H as ([] & w7 & H7 & H).
  apply bind_inv in H as ([] & w8 & H8 & H).
  apply bind_inv in H as (saved_id & w9 & H9 & H).
  apply keeps_log_set_message in H1. apply set_progress_log in H2.
  apply keeps_log_lift in H3. apply set_progress_log in H4.
  apply keeps_log_set_message in H5.
  apply process_pdf_images_log in H6 as (vs & Hlen & Hvs & L6).
  apply keeps_log_set_message in H7. apply set_progress_log in H8.
  apply keeps_log_lift in H9.
  apply set_status_log in H as [L10 Hentry].
  destruct (loop_values_sorted (Z.of_nat (length (pc_images content))) vs 1)
    as [Hsorted Hrange]; [lia | lia | |].
  { intros i v Hv. replace (1 + Z.of_nat i) with (0 + 1 + Z.of_nat i) by lia.
    by apply Hvs. }
  eexists vs, _. split; [|split; [exact Hsorted|split; [exact Hrange|]]].
  - rewrite L10, H9, H8, H7, L6, H5, H4, H3, H2, H1. simpl progress.
    rewrite map_app, map_app, map_map. simpl. rewrite <- !app_assoc. simpl.
    reflexivity.
  - split; [exact Hentry|]. split; reflexivity.
Qed.

(** A PDF with two images, the first a chart and the second a photograph. *)
Definition two_image_pdf : string -> exn + PdfContent :=
  fun _ => inr {| pc_total_pages := 1; pc_text := "Revenue by year";
                  pc_images := [ {| image_id := "img_1_1_0a"; image_path := "chart.png";
                                    page_number := 1 |};
                                 {| image_id := "img_1_2_0b"; image_path := "photo.png";
                                    page_number := 1 |} ] |}.

Definition two_image_services : Services :=
  {| extract_pdf := two_image_pdf;
     detect_chart := fun path =>
       inr (if String.eqb path "chart.png" then table_verdict
            else ChartDetector.analysis false "image" lit_0_3);
     extract_chart_text := fun _ => inr OCRService._empty_result;
     generate_inference := fun p t o c =>
       inr (InferenceService.generate_inference None p t o c);
     save_result := fun _ => inr "extraction_20260101_000000";
     copy2 := fun _ _ => inr tt;
     new_image_id := "0123abcd";
     target_path := fun _ id => "output/images/" +:+ id +:+ ".png";
     now := 0 |}.

(** C10. For a job of [process_pdf] that ends with the status
    "completed", the progress values written for the task during the job
    never decrease from one write to the next, the last value written is
    100, and the final entry shows the progress 100. *)
Theorem progress_never_decreases
  (svc : Services) (task_id file_path filename : string) (w w' : World)
  (entry : StatusEntry) :
  process_pdf svc task_id file_path filename w = (inr tt, w') ->
  processing_status w' !! task_id = Some entry ->
  status entry = "completed" ->
  exists ps : list Z,
    progress_log w' = progress_log w ++ map (pair task_id) ps /\
    Sorted Z.le ps /\
    last ps = Some 100 /\
    progress entry = 100.
Proof.
  intros Hrun Hentry Hstatus. unfold process_pdf, try_except in Hrun.
  destruct (process_pdf_body svc task_id file_path filename w) as [[e|[]] w1] eqn:Hbody.
  - (* the body raised: the entry is the failed one *)
    apply set_status_log in Hrun as [_ Hfailed].
    rewrite Hfailed in Hentry. injection Hentry as <-. discriminate Hstatus.
  - injection Hrun as <-.
    apply process_pdf_body_log in Hbody
      as (vs & entry' & Hlog & Hsorted & Hrange & Hentry' & _ & Hprogress).
    rewrite Hentry' in Hentry. injection Hentry as <-.
    exists ([10; 30] ++ map (Z.add 30) vs ++ [95; 100]).
    split; [exact Hlog|]. split; [|split; [|exact Hprogress]].
    + assert (Hlow : Forall (fun x => 30 <= x) (map (Z.add 30) vs)).
      { eapply Forall_impl; [exact Hrange|]. simpl. lia. }
      assert (Hhigh : Forall (fun x => x <= 90) (map (Z.add 30) vs)).
      { eapply Forall_impl; [exact Hrange|]. simpl. lia. }
      assert (S1 : Sorted Z.le [10; 30]) by (repeat constructor; lia).
      assert (S3 : Sorted Z.le [95; 100]) by (repeat constructor; lia).
      assert (F1 : Forall (fun x => x <= 30) [10; 30]) by (repeat constructor; lia).
      assert (F3 : Forall (fun x => 90 <= x) [95; 100]) by (repeat constructor; lia).
      apply (sorted_app [10; 30] _ 30 S1); [|exact F1|].
      * apply (sorted_app _ [95; 100] 90 Hsorted S3 Hhigh F3).
      * apply Forall_app. split; [exact Hlow|].
        eapply Forall_impl; [exact F3|]. simpl. lia.
    + rewrite app_assoc. rewrite (app_assoc _ [95] [100]). apply last_snoc.
Qed.

Lemma progress_never_decreases_witness :
  exists w' entry,
    process_pdf two_image_services "t1" "report.pdf" "report.pdf" world_after_upload
    = (inr tt, w') /\
    processing_status w' !! "t1" = Some entry /\
    status entry = "completed" /\
    exists ps : list Z,
      progress_log w' = progress_log world_after_upload ++ map (pair "t1") ps /\
      Sorted Z.le ps /\
      last ps = Some 100 /\
      progress entry = 100.
Proof.
  eexists _, _. split; [vm_compute; reflexivity|]. split; [vm_compute; reflexivity|].
  split; [reflexivity|].
  eapply (progress_never_decreases two_image_services "t1" "report.pdf" "report.pdf"
            world_after_upload).
  - vm_compute. reflexivity.
  - vm_compute. reflexivity.
  - reflexivity.
Defined.

(** The history of that job. *)
Example two_image_progress :
  exists w',
    process_pdf two_image_services "t1" "report.pdf" "report.pdf" world_after_upload
    = (inr tt, w') /\
    progress_log w' = map (pair "t1") [10; 30; 60; 90; 95; 100].
Proof. eexists. split; vm_compute; reflexivity. Qed.

End ProgressClaims.

(* ===================================================================== *)
(** * Further properties of the detector *)
(* ===================================================================== *)

Section DetectorMore.
Import PyFloat Py ChartDetector.

Lemma analysis_inj (b b' : bool) (t t' : string) (c c' : float) :
  analysis b t c = analysis b' t' c' -> b = b' /\ t = t' /\ c = c'.
Proof.
  intros H.
  pose proof (f_equal (fun d => d !! "is_chart") H) as H1.
  pose proof (f_equal (fun d => d !! "chart_type") H) as H2.
  pose proof (f_equal (fun d => d !! "confidence") H) as H3.
  simpl in H1, H2, H3.
  rewrite !analysis_is_chart in H1. rewrite !analysis_chart_type in H2.
  rewrite !analysis_confidence in H3.
  injection H1 as ->. injection H2 as ->. injection H3 as ->. done.
Qed.

(** X1. The geometric classifier answers with one of five verdicts: not a
    chart, type image, with confidence 0.0 when the file cannot be decoded
    and 0.3 otherwise; or a chart of type chart (0.6), graph (0.5) or table
    (0.7).  So is_chart is false exactly when the type is image, and the
    confidence is 0.0 exactly when decoding failed. *)
Theorem classifier_verdicts
  (Image_open : string -> option Image) (image_path : string) :
  let d := _analyze_chart_characteristics Image_open image_path in
  (d = analysis false "image" lit_0_0 \/ d = analysis false "image" lit_0_3 \/
   d = analysis true "chart" lit_0_6 \/ d = analysis true "graph" lit_0_5 \/
   d = analysis true "table" lit_0_7) /\
  (d !! "is_chart" = Some (VBool false) <-> d !! "chart_type" = Some (VStr "image")) /\
  (d !! "confidence" = Some (VFloat lit_0_0) <-> Image_open image_path = None).
Proof.
  intros d. subst d. unfold _analyze_chart_characteristics.
  destruct (Image_open image_path) as [img|].
  - repeat match goal with
           | |- context [if ?c then _ else _] => destruct c
           end;
      (split; [tauto|]);
      rewrite analysis_is_chart, analysis_chart_type, analysis_confidence;
      (split; split; intros H; try discriminate H; try reflexivity;
       injection H as H; vm_compute in H; discriminate H).
  - split; [tauto|].
    rewrite analysis_is_chart, analysis_chart_type, analysis_confidence. tauto.
Qed.

Lemma count_edges_flat (e : list (list Z)) :
  Forall (Forall (fun d => Z.abs d <= 50)) e -> count_edges e = 0.
Proof.
  induction 1 as [|row e Hrow _ IH]; simpl; [reflexivity|].
  rewrite IH, Z.add_0_r.
  assert (List.filter (fun d => 50 <? Z.abs d) row = []) as ->; [|reflexivity].
  induction Hrow as [|d row Hd _ IHrow]; simpl; [reflexivity|].
  destruct (Z.ltb_spec 50 (Z.abs d)); [lia | exact IHrow].
Qed.

(** A density whose count is zero is 0.0, or NaN for an empty array. *)
Lemma zero_density_not_edge (e : list (list Z)) :
  count_edges e = 0 -> fgt (edge_density e) lit_0_05 = false.
Proof.
  intros H. unfold edge_density. rewrite H.
  change (of_Z 0) with (S754_zero false).
  destruct (of_Z (array_size e)) as [s|s| |s m x]; try destruct s; reflexivity.
Qed.

(** A picture in one grey level. *)
Definition flat_image : Image :=
  {| gray_array := [[200; 200; 200]; [200; 200; 200]];
     resized_colors := Some [(10000, (200, 200, 200))] |}.

(** X2. An image in which no pixel differs from the pixel above it by more
    than 50 grey levels, or in which none differs from its left neighbour
    by more than 50, is never given the type table: the density of such
    edges is 0.0 (or NaN on a single row or column), which is not above
    0.05. *)
Theorem low_contrast_is_no_table
  (Image_open : string -> option Image) (image_path : string) (img : Image) :
  Image_open image_path = Some img ->
  Forall (Forall (fun d => Z.abs d <= 50)) (diff_axis0 (gray_array img)) \/
  Forall (Forall (fun d => Z.abs d <= 50)) (diff_axis1 (gray_array img)) ->
  _analyze_chart_characteristics Image_open image_path !! "chart_type"
  <> Some (VStr "table").
Proof.
  intros Hopen Hflat. unfold _analyze_chart_characteristics. rewrite Hopen.
  assert (Hno : fgt (h_lines img) lit_0_05 && fgt (v_lines img) lit_0_05 = false).
  { destruct Hflat as [H|H].
    - unfold h_lines. by rewrite (zero_density_not_edge _ (count_edges_flat _ H)).
    - unfold v_lines. rewrite (zero_density_not_edge _ (count_edges_flat _ H)).
      apply andb_false_r. }
  rewrite Hno.
  repeat match goal with
         | |- context [if ?c then _ else _] => destruct c
         end; rewrite analysis_chart_type; discriminate.
Qed.

Lemma low_contrast_is_no_table_witness :
  _analyze_chart_characteristics (fun _ => Some flat_image) "flat.png" !! "chart_type"
  <> Some (VStr "table").
Proof.
  apply (low_contrast_is_no_table (fun _ => Some flat_image) "flat.png" flat_image).
  - reflexivity.
  - left. vm_compute. repeat constructor; discriminate.
Defined.

(** X3. An image whose reduced copy shows 100 colours or more is a chart
    only through the table rule: otherwise it is not a chart, of type
    image, with confidence 0.3. *)
Theorem many_colours_need_table_rule
  (Image_open : string -> option Image) (image_path : string) (img : Image) :
  Image_open image_path = Some img ->
  100 <= unique_colors img ->
  let d := _analyze_chart_characteristics Image_open image_path in
  d = analysis true "table" lit_0_7 \/ d = analysis false "image" lit_0_3.
Proof.
  intros Hopen Hc d. subst d. unfold _analyze_chart_characteristics. rewrite Hopen.
  assert ((unique_colors img <? 50) = false) as -> by (apply Z.ltb_ge; lia).
  assert ((unique_colors img <? 100) = false) as -> by (apply Z.ltb_ge; lia).
  simpl. destruct (fgt (h_lines img) lit_0_05 && fgt (v_lines img) lit_0_05); tauto.
Qed.

(** A photograph: many colours, smooth. *)
Definition photo_image : Image :=
  {| gray_array := [[10; 20]; [30; 40]];
     resized_colors := Some (map (fun n => (100, (Z.of_nat n, 0, 0))) (seq 0 150)) |}.

Lemma many_colours_need_table_rule_witness :
  let d := _analyze_chart_characteristics (fun _ => Some photo_image) "photo.jpg" in
  d = analysis true "table" lit_0_7 \/ d = analysis false "image" lit_0_3.
Proof.
  apply (many_colours_need_table_rule (fun _ => Some photo_image) "photo.jpg" photo_image).
  - reflexivity.
  - vm_compute. discriminate.
Defined.

Lemma collect_boxes_spec (r : YoloResult) (bs : list YoloBox) :
  forall (acc ds : list Detection),
    collect_boxes r bs acc = Some ds <->
    Forall (fun b => is_Some (detection_of_box r b)) bs /\
    ds = acc ++ omap (detection_of_box r) bs.
Proof.
  induction bs as [|b bs IH]; intros acc ds; simpl.
  - rewrite app_nil_r. split; [intros [= <-]; split; [constructor | done] | intros [_ ->]; done].
  - destruct (detection_of_box r b) as [d|] eqn:Hd.
    + rewrite IH, <- app_assoc. simpl. split.
      * intros [HF ->]. split; [constructor; [eauto | exact HF] | done].
      * intros [HF ->]. inversion HF; subst. done.
    + split; [discriminate|]. intros [HF _]. inversion HF as [|? ? [x Hx]]; subst.
      congruence.
Qed.

Lemma collect_results_iff (results : list YoloResult) :
  forall (acc ds : list Detection),
    collect_results results acc = Some ds <->
    Forall (fun r => Forall (fun b => is_Some (detection_of_box r b)) (boxes r)) results /\
    ds = acc ++ concat (map (fun r => omap (detection_of_box r) (boxes r)) results).
Proof.
  induction results as [|r rs IH]; intros acc ds; simpl.
  - rewrite app_nil_r. split; [intros [= <-]; split; [constructor | done] | intros [_ ->]; done].
  - destruct (collect_boxes r (boxes r) acc) as [ds1|] eqn:H1.
    + apply collect_boxes_spec in H1 as [HF1 ->]. rewrite IH, <- app_assoc. split.
      * intros [HF ->]. split; [by constructor | done].
      * intros [HF ->]. inversion HF; subst. done.
    + split; [discriminate|]. intros [HF _]. inversion HF as [|? ? HF1 _]; subst.
      assert (collect_boxes r (boxes r) acc
              = Some (acc ++ omap (detection_of_box r) (boxes r))) as H2
        by (by apply collect_boxes_spec).
      congruence.
Qed.

(** X4. The loop of [detect] over the results of the model succeeds
    exactly when every box has a finite class that the names table of its
    result knows; the detections are then one per box, in the order of
    the results and of their boxes, each with the name of its class and
    the confidence and the corners of the box. *)
Theorem detections_follow_the_boxes (results : list YoloResult) (ds : list Detection) :
  collect_results results [] = Some ds <->
  Forall (fun r => Forall (fun b => exists label cls_id,
                              to_Z_trunc (cls0 b) = Some cls_id /\
                              names r !! cls_id = Some label) (boxes r)) results /\
  Forall2 (fun d rb =>
             to_Z_trunc (cls0 (snd rb)) = Some (default 0 (to_Z_trunc (cls0 (snd rb)))) /\
             names (fst rb) !! default 0 (to_Z_trunc (cls0 (snd rb))) = Some (det_label d) /\
             det_confidence d = conf0 (snd rb) /\ det_bbox d = xyxy0 (snd rb))
          ds (concat (map (fun r => map (pair r) (boxes r)) results)).
Proof.
  rewrite collect_results_iff. simpl.
  assert (Hsome : forall r b,
             is_Some (detection_of_box r b) <->
             exists label cls_id, to_Z_trunc (cls0 b) = Some cls_id /\
                                  names r !! cls_id = Some label).
  { intros r b. unfold detection_of_box.
    destruct (to_Z_trunc (cls0 b)) as [c|]; [destruct (names r !! c) as [l|] eqn:Hn|].
    - split; [intros _; eauto | eauto].
    - split; [intros [? [=]] | intros (l & c' & [= <-] & H); congruence].
    - split; [intros [? [=]] | intros (l & c' & [=] & _)]. }
  assert (Hall : Forall (fun r => Forall (fun b => is_Some (detection_of_box r b)) (boxes r))
                   results <->
                 Forall (fun r => Forall (fun b => exists label cls_id,
                              to_Z_trunc (cls0 b) = Some cls_id /\
                              names r !! cls_id = Some label) (boxes r)) results).
  { split; intros H; eapply Forall_impl; try exact H; intros r Hr;
      eapply Forall_impl; try exact Hr; intros b Hb; by apply Hsome. }
  rewrite <- Hall. clear Hall Hsome.
  assert (Hone : forall r bs,
             Forall (fun b => is_Some (detection_of_box r b)) bs ->
             Forall2 (fun d rb =>
               to_Z_trunc (cls0 (snd rb)) = Some (default 0 (to_Z_trunc (cls0 (snd rb)))) /\
               names (fst rb) !! default 0 (to_Z_trunc (cls0 (snd rb))) = Some (det_label d) /\
               det_confidence d = conf0 (snd rb) /\ det_bbox d = xyxy0 (snd rb))
               (omap (detection_of_box r) bs) (map (pair r) bs)).
  { intros r bs. induction 1 as [|b bs [d Hd] _ IH]; simpl; [constructor|].
    rewrite Hd. constructor; [|exact IH]. unfold detection_of_box in Hd. simpl.
    destruct (to_Z_trunc (cls0 b)) as [c|]; [|discriminate].
    destruct (names r !! c) as [l|] eqn:Hn; [|discriminate].
    injection Hd as <-. simpl. done. }
  assert (Hcat : Forall (fun r => Forall (fun b => is_Some (detection_of_box r b)) (boxes r))
                   results ->
                 Forall2 (fun d rb =>
               to_Z_trunc (cls0 (snd rb)) = Some (default 0 (to_Z_trunc (cls0 (snd rb)))) /\
               names (fst rb) !! default 0 (to_Z_trunc (cls0 (snd rb))) = Some (det_label d) /\
               det_confidence d = conf0 (snd rb) /\ det_bbox d = xyxy0 (snd rb))
                   (concat (map (fun r => omap (detection_of_box r) (boxes r)) results))
                   (concat (map (fun r => map (pair r) (boxes r)) results))).
  { induction 1 as [|r rs Hr _ IH]; simpl; [constructor|].
    apply Forall2_app; [by apply Hone | exact IH]. }
  split.
  - intros [HF ->]. split; [exact HF | by apply Hcat].
  - intros [HF H2]. split; [exact HF|].
    (* the detections are determined by the boxes *)
    specialize (Hcat HF).
    revert H2 Hcat.
    generalize (concat (map (fun r => omap (detection_of_box r) (boxes r)) results)).
    generalize (concat (map (fun r => map (pair r) (boxes r)) results)).
    intros rbs. revert ds. induction rbs as [|rb rbs IH]; intros ds ds' H1 H2.
    + inversion H1; inversion H2; subst. reflexivity.
    + inversion H1 as [|d ? l1 ? Hd Hl1]; inversion H2 as [|d' ? l2 ? Hd' Hl2]; subst.
      f_equal; [|by apply IH].
      destruct Hd as (_ & Ha & Hb & Hc), Hd' as (_ & Ha' & Hb' & Hc').
      destruct d, d'; simpl in *. congruence.
Qed.

(** A model that reports a box of a class its names table does not hold. *)
Definition unnamed_class_model : Model :=
  fun _ => inr [{| boxes := [{| cls0 := of_Z 0; conf0 := lit_0_8; xyxy0 := [] |};
                             {| cls0 := of_Z 7; conf0 := lit_0_6; xyxy0 := [] |}];
                   names := {[ 0 := "person" ]} |}].

(** X5. When a single box of the model has a class that cannot be turned
    into a name (a class that is not finite, or one the names table does
    not hold), [detect] gives up every detection, also those of the boxes
    before it, and returns the dictionary of the geometric classifier
    alone. *)
Theorem one_bad_box_drops_all_detections
  (Image_open : string -> option Image) (run : Model) (image_path : string)
  (results : list YoloResult) (r : YoloResult) (b : YoloBox) :
  run image_path = inr results ->
  In r results -> In b (boxes r) -> detection_of_box r b = None ->
  detect Image_open (Some run) image_path
  = _analyze_chart_characteristics Image_open image_path.
Proof.
  intros Hrun Hr Hb Hnone. unfold detect, _fallback_detection. rewrite Hrun.
  destruct (collect_results results []) as [ds|] eqn:Hc; [|reflexivity].
  apply collect_results_iff in Hc as [HF _].
  rewrite Forall_forall in HF. specialize (HF r (proj2 (list_elem_of_In _ _) Hr)).
  rewrite Forall_forall in HF. specialize (HF b (proj2 (list_elem_of_In _ _) Hb)).
  rewrite Hnone in HF. by destruct HF.
Qed.

Lemma one_bad_box_drops_all_detections_witness :
  detect open_checkerboard (Some unnamed_class_model) "board.png"
  = _analyze_chart_characteristics open_checkerboard "board.png".
Proof.
  eapply (one_bad_box_drops_all_detections open_checkerboard unnamed_class_model
            "board.png" _ _ {| cls0 := of_Z 7; conf0 := lit_0_6; xyxy0 := [] |}).
  - reflexivity.
  - left. reflexivity.
  - right. left. reflexivity.
  - reflexivity.
Defined.

End DetectorMore.

(* ===================================================================== *)
(** * More on the structurer and the OCR service *)
(* ===================================================================== *)

Section StructurerMore.
Import PyFloat PyStr Py OCRService.

(** The text that the loop works on. *)
Definition stripped_text (box : TextBox) : string := strip (text box).

Definition is_rule (f : Field) (bd : Bounds) (box : TextBox) : bool :=
  match first_rule bd box, f with
  | Some FTitle, FTitle | Some FXAxis, FXAxis | Some FYAxis, FYAxis
  | Some FValues, FValues | Some FLegends, FLegends => true
  | _, _ => false
  end.

(** The three fields that hold one text. *)
Inductive Label := LTitle | LXAxis | LYAxis.

Definition field_of_label (l : Label) : Field :=
  match l with LTitle => FTitle | LXAxis => FXAxis | LYAxis => FYAxis end.

Definition label (l : Label) (st : StructuredChartText) : option string :=
  match l with LTitle => title st | LXAxis => x_axis st | LYAxis => y_axis st end.

(** A chart with a title, two axis labels, one value and one legend. *)
Definition line_at (t : string) (x y : Z) : OcrLine :=
  {| corner0 := (of_Z (x - 10), of_Z (y - 5)); corner1 := (of_Z (x + 10), of_Z (y - 5));
     corner2 := (of_Z (x + 10), of_Z (y + 5)); corner3 := (of_Z (x - 10), of_Z (y + 5));
     line_text := t; line_confidence := lit_0_8 |}.

Definition chart_lines : list OcrLine :=
  [line_at " Revenue " 150 100; line_at "USD" 100 150; line_at "42" 150 150;
   line_at "Series A" 200 150; line_at "Year" 150 200; line_at "Revenue by year" 150 100].

Definition chart_engine : Engine := fun _ => inr (Some [Some chart_lines]).

Lemma is_rule_iff (f : Field) (bd : Bounds) (box : TextBox) :
  is_rule f bd box = true <-> first_rule bd box = Some f.
Proof.
  unfold is_rule. destruct (first_rule bd box) as [[]|], f; split; congruence.
Qed.

(** One turn of the loop, read by the first rule that the box matches. *)
Lemma classify_box_by_rule (bd : Bounds) (acc : StructuredChartText) (box : TextBox) :
  classify_box bd acc box =
  match first_rule bd box with
  | Some FTitle =>
      if longer (stripped_text box) (title acc)
      then {| title := Some (stripped_text box); x_axis := x_axis acc; y_axis := y_axis acc;
              values := values acc; legends := legends acc |}
      else acc
  | Some FXAxis =>
      if longer (stripped_text box) (x_axis acc)
      then {| title := title acc; x_axis := Some (stripped_text box); y_axis := y_axis acc;
              values := values acc; legends := legends acc |}
      else acc
  | Some FYAxis =>
      if longer (stripped_text box) (y_axis acc)
      then {| title := title acc; x_axis := x_axis acc; y_axis := Some (stripped_text box);
              values := values acc; legends := legends acc |}
      else acc
  | Some FValues =>
      {| title := title acc; x_axis := x_axis acc; y_axis := y_axis acc;
         values := values acc ++ [stripped_text box]; legends := legends acc |}
  | Some FLegends =>
      {| title := title acc; x_axis := x_axis acc; y_axis := y_axis acc;
         values := values acc; legends := legends acc ++ [stripped_text box] |}
  | None => acc
  end.
Proof.
  unfold classify_box, first_rule, rule_title, rule_x_axis, rule_y_axis, rule_value,
    rule_legend, stripped_text.
  destruct (flt (y_pos bd box) lit_0_2
            && (flt lit_0_3 (x_pos bd box) && flt (x_pos bd box) lit_0_7)); [reflexivity|].
  destruct (fgt (y_pos bd box) lit_0_8
            && (flt lit_0_3 (x_pos bd box) && flt (x_pos bd box) lit_0_7)); [reflexivity|].
  destruct (flt (x_pos bd box) lit_0_15
            && (flt lit_0_2 (y_pos bd box) && flt (y_pos bd box) lit_0_8)); [reflexivity|].
  destruct (_is_numeric (strip (text box))); [reflexivity|].
  destruct (fgt (x_pos bd box) lit_0_7
            || (fgt (y_pos bd box) lit_0_7 && fgt (x_pos bd box) lit_0_5)); reflexivity.
Qed.

Lemma classify_box_values (bd : Bounds) (acc : StructuredChartText) (box : TextBox) :
  values (classify_box bd acc box)
  = values acc ++ (if is_rule FValues bd box then [stripped_text box] else []).
Proof.
  rewrite classify_box_by_rule. unfold is_rule.
  destruct (first_rule bd box) as [[]|];
    repeat match goal with |- context [if longer ?a ?b then _ else _] =>
                             destruct (longer a b) end;
    cbn [values]; by rewrite ?app_nil_r.
Qed.

Lemma classify_box_legends (bd : Bounds) (acc : StructuredChartText) (box : TextBox) :
  legends (classify_box bd acc box)
  = legends acc ++ (if is_rule FLegends bd box then [stripped_text box] else []).
Proof.
  rewrite classify_box_by_rule. unfold is_rule.
  destruct (first_rule bd box) as [[]|];
    repeat match goal with |- context [if longer ?a ?b then _ else _] =>
                             destruct (longer a b) end;
    cbn [legends]; by rewrite ?app_nil_r.
Qed.

Lemma classify_box_label (l : Label) (bd : Bounds) (acc : StructuredChartText)
    (box : TextBox) :
  label l (classify_box bd acc box)
  = if is_rule (field_of_label l) bd box && longer (stripped_text box) (label l acc)
    then Some (stripped_text box) else label l acc.
Proof.
  rewrite classify_box_by_rule. unfold is_rule.
  destruct (first_rule bd box) as [[]|], l; cbn [field_of_label label andb];
    repeat match goal with |- context [if longer ?a ?b then _ else _] =>
                             destruct (longer a b) end;
    reflexivity.
Qed.

(** The two lists in closed form: the loop appends and never removes. *)
Lemma fold_values (bd : Bounds) (boxes : list TextBox) :
  forall acc,
    values (fold_left (classify_box bd) boxes acc)
    = values acc ++ map stripped_text (List.filter (is_rule FValues bd) boxes).
Proof.
  induction boxes as [|b bs IH]; intros acc; simpl; [by rewrite app_nil_r|].
  rewrite IH, classify_box_values, <- app_assoc.
  by destruct (is_rule FValues bd b).
Qed.

Lemma fold_legends (bd : Bounds) (boxes : list TextBox) :
  forall acc,
    legends (fold_left (classify_box bd) boxes acc)
    = legends acc ++ map stripped_text (List.filter (is_rule FLegends bd) boxes).
Proof.
  induction boxes as [|b bs IH]; intros acc; simpl; [by rewrite app_nil_r|].
  rewrite IH, classify_box_legends, <- app_assoc.
  by destruct (is_rule FLegends bd b).
Qed.

Lemma filter_sublist {A} (p : A -> bool) (l : list A) : sublist (List.filter p l) l.
Proof.
  induction l as [|x l IH]; simpl; [constructor|].
  destruct (p x); by constructor.
Qed.

Lemma sublist_map {A B} (f : A -> B) (l1 l2 : list A) :
  sublist l1 l2 -> sublist (map f l1) (map f l2).
Proof. induction 1; simpl; by constructor. Qed.

Lemma values_rule_numeric (bd : Bounds) (box : TextBox) :
  is_rule FValues bd box = true -> _is_numeric (stripped_text box) = true.
Proof.
  rewrite is_rule_iff. unfold first_rule, rule_value, stripped_text.
  repeat match goal with |- context [if ?c then _ else _] => destruct c eqn:? end;
    congruence.
Qed.

Lemma legends_rule_not_numeric (bd : Bounds) (box : TextBox) :
  is_rule FLegends bd box = true -> _is_numeric (stripped_text box) = false.
Proof.
  rewrite is_rule_iff. unfold first_rule, rule_value, stripped_text.
  repeat match goal with |- context [if ?c then _ else _] => destruct c eqn:? end;
    congruence.
Qed.

(** X6. Whatever the boxes, every entry of [values] is a text that
    [_is_numeric] accepts and no entry of [legends] is; both lists hold
    stripped box texts in the order of the boxes, each box giving at most
    one entry; and no box is in both lists. *)
Theorem values_are_numeric_legends_are_not (boxes : list TextBox) :
  let st := _structure_chart_text boxes in
  Forall (fun v => _is_numeric v = true) (values st) /\
  Forall (fun v => _is_numeric v = false) (legends st) /\
  sublist (values st) (map stripped_text boxes) /\
  sublist (legends st) (map stripped_text boxes) /\
  (length (values st) + length (legends st) <= length boxes)%nat.
Proof.
  unfold _structure_chart_text. destruct (bounds_of boxes) as [bd|]; simpl.
  2: { repeat split; try constructor; try apply sublist_nil_l; lia. }
  rewrite fold_values, fold_legends. simpl.
  split; [|split; [|split; [|split]]].
  - apply Forall_map, Forall_forall. intros b Hb. apply list_elem_of_In in Hb.
    apply filter_In in Hb as [_ Hb]. simpl. by apply (values_rule_numeric bd).
  - apply Forall_map, Forall_forall. intros b Hb. apply list_elem_of_In in Hb.
    apply filter_In in Hb as [_ Hb]. simpl. by apply (legends_rule_not_numeric bd).
  - apply sublist_map, filter_sublist.
  - apply sublist_map, filter_sublist.
  - rewrite !length_map. clear. induction boxes as [|b bs IH]; simpl; [lia|].
    destruct (is_rule FValues bd b) eqn:Hv, (is_rule FLegends bd b) eqn:Hl; simpl; try lia.
    apply is_rule_iff in Hv, Hl. congruence.
Qed.

(** What the loop has found for one label after the boxes [seen]. *)
Definition label_found (l : Label) (bd : Bounds) (seen : list TextBox)
    (found : option string) : Prop :=
  match found with
  | None => forall b, In b seen -> first_rule bd b <> Some (field_of_label l)
  | Some t =>
      exists pre b post,
        seen = pre ++ b :: post /\
        first_rule bd b = Some (field_of_label l) /\
        t = stripped_text b /\
        (forall b', In b' pre -> first_rule bd b' = Some (field_of_label l) ->
                    (String.length (stripped_text b') < String.length t)%nat) /\
        (forall b', In b' post -> first_rule bd b' = Some (field_of_label l) ->
                    (String.length (stripped_text b') <= String.length t)%nat)
  end.

Lemma label_found_step (l : Label) (bd : Bounds) (seen : list TextBox)
    (acc : StructuredChartText) (box : TextBox) :
  label_found l bd seen (label l acc) ->
  label_found l bd (seen ++ [box]) (label l (classify_box bd acc box)).
Proof.
  intros Hinv. rewrite classify_box_label.
  destruct (is_rule (field_of_label l) bd box) eqn:Hr; simpl.
  - apply is_rule_iff in Hr. unfold longer.
    destruct (label l acc) as [t|] eqn:Hl; simpl in *.
    + destruct Hinv as (pre & b & post & -> & Hb & -> & Hpre & Hpost).
      destruct (String.length (stripped_text b) <? String.length (stripped_text box))%nat
        eqn:Hlt.
      * apply Nat.ltb_lt in Hlt. simpl.
        exists (pre ++ b :: post), box, []. repeat split; auto.
        -- intros b' Hb' Hr'. apply in_app_or in Hb' as [Hb'|[<-|Hb']].
           ++ specialize (Hpre b' Hb' Hr'). lia.
           ++ lia.
           ++ specialize (Hpost b' Hb' Hr'). lia.
        -- intros b' [].
      * apply Nat.ltb_ge in Hlt. simpl.
        exists pre, b, (post ++ [box]). repeat split; auto.
        -- by rewrite <- app_assoc.
        -- intros b' Hb' Hr'. apply in_app_or in Hb' as [Hb'|[<-|[]]]; auto.
    + exists seen, box, []. repeat split; auto.
      * intros b' Hb' Hr'. by destruct (Hinv b' Hb').
      * intros b' [].
  - assert (Hn : first_rule bd box <> Some (field_of_label l)).
    { intros H. apply is_rule_iff in H. congruence. }
    destruct (label l acc) as [t|]; simpl in *.
    + destruct Hinv as (pre & b & post & -> & Hb & -> & Hpre & Hpost).
      exists pre, b, (post ++ [box]). repeat split; auto.
      * by rewrite <- app_assoc.
      * intros b' Hb' Hr'. apply in_app_or in Hb' as [Hb'|[<-|[]]]; auto.
        by destruct Hn.
    + intros b Hb. apply in_app_or in Hb as [Hb|[<-|[]]]; auto.
Qed.

Lemma label_found_fold (l : Label) (bd : Bounds) (boxes : list TextBox) :
  forall seen acc,
    label_found l bd seen (label l acc) ->
    label_found l bd (seen ++ boxes) (label l (fold_left (classify_box bd) boxes acc)).
Proof.
  induction boxes as [|b bs IH]; intros seen acc Hinv; simpl.
  - by rewrite app_nil_r.
  - replace (seen ++ b :: bs) with ((seen ++ [b]) ++ bs) by (by rewrite <- app_assoc).
    apply IH. by apply label_found_step.
Qed.

(** X7. The title, the x-axis label and the y-axis label are each the
    stripped text of the first longest box among those whose first
    matching rule is that of the label: every such box before it is
    strictly shorter and none after it is longer; the label is [None]
    exactly when no box has that first rule. *)
Theorem label_is_first_longest (boxes : list TextBox) (bd : Bounds) (l : Label) :
  bounds_of boxes = Some bd ->
  label_found l bd boxes (label l (_structure_chart_text boxes)).
Proof.
  intros Hbd. unfold _structure_chart_text. rewrite Hbd.
  apply (label_found_fold l bd boxes [] empty_structured).
  destruct l; simpl; intros b [].
Qed.

Lemma label_is_first_longest_witness :
  exists bd,
    bounds_of (map box_of_line chart_lines) = Some bd /\
    label_found LTitle bd (map box_of_line chart_lines)
      (label LTitle (_structure_chart_text (map box_of_line chart_lines))) /\
    label LTitle (_structure_chart_text (map box_of_line chart_lines))
    = Some "Revenue by year".
Proof.
  eexists. split; [vm_compute; reflexivity|].
  split; [apply label_is_first_longest; vm_compute; reflexivity|].
  vm_compute. reflexivity.
Defined.

Lemma label_found_text (l : Label) (bd : Bounds) (seen : list TextBox) (t : string) :
  label_found l bd seen (Some t) -> exists b, In b seen /\ t = stripped_text b.
Proof.
  intros (pre & b & post & -> & _ & -> & _). exists b. split; [|reflexivity].
  apply in_or_app. right. by left.
Qed.

Lemma structured_from_boxes (boxes : list TextBox) (s : string) :
  title (_structure_chart_text boxes) = Some s \/
  x_axis (_structure_chart_text boxes) = Some s \/
  y_axis (_structure_chart_text boxes) = Some s \/
  In s (values (_structure_chart_text boxes)) \/
  In s (legends (_structure_chart_text boxes)) ->
  exists b, In b boxes /\ s = stripped_text b.
Proof.
  destruct (bounds_of boxes) as [bd|] eqn:Hbd.
  2: { unfold _structure_chart_text. rewrite Hbd. simpl.
       intros [H|[H|[H|[[]|[]]]]]; discriminate. }
  assert (Hlab : forall l, label_found l bd boxes (label l (_structure_chart_text boxes))).
  { intros l. unfold _structure_chart_text. rewrite Hbd.
    apply (label_found_fold l bd boxes [] empty_structured).
    destruct l; simpl; intros b []. }
  pose proof (Hlab LTitle) as Ht. pose proof (Hlab LXAxis) as Hx.
  pose proof (Hlab LYAxis) as Hy. clear Hlab. simpl in Ht, Hx, Hy.
  unfold _structure_chart_text in *. rewrite Hbd in *.
  rewrite fold_values, fold_legends. simpl.
  intros [H|[H|[H|[H|H]]]].
  - rewrite H in Ht. by apply label_found_text in Ht.
  - rewrite H in Hx. by apply label_found_text in Hx.
  - rewrite H in Hy. by apply label_found_text in Hy.
  - apply in_map_iff in H as (b & <- & Hb). apply filter_In in Hb as [Hb _]. eauto.
  - apply in_map_iff in H as (b & <- & Hb). apply filter_In in Hb as [Hb _]. eauto.
Qed.

(** The strings that a structure holds. *)
Definition structured_strings (st : StructuredChartText) : list string :=
  option_list (title st) ++ option_list (x_axis st) ++ option_list (y_axis st)
  ++ values st ++ legends st.

(** X8. [extract_text] never raises and its three parts agree: the raw
    texts are the texts of the boxes, in order; the structure is that of
    the boxes; every string of the structure is a raw text with its
    surrounding white space stripped.  The result is the empty one unless
    the engine is present and returns a first page that is not empty, and
    then there is one box per line of that page. *)
Theorem ocr_result_is_coherent (ocr : option Engine) (image_path : string) :
  let r := extract_text ocr image_path in
  raw_text r = map text (ocr_boxes r) /\
  structured r = _structure_chart_text (ocr_boxes r) /\
  Forall (fun s => exists t, In t (raw_text r) /\ s = strip t)
         (structured_strings (structured r)) /\
  (r = _empty_result \/
   exists run l ls rest,
     ocr = Some run /\ run image_path = inr (Some (Some (l :: ls) :: rest)) /\
     ocr_boxes r = map box_of_line (l :: ls)).
Proof.
  assert (Hempty : raw_text _empty_result = map text (ocr_boxes _empty_result) /\
    structured _empty_result = _structure_chart_text (ocr_boxes _empty_result) /\
    Forall (fun s => exists t, In t (raw_text _empty_result) /\ s = strip t)
       (structured_strings (structured _empty_result)) /\
    (_empty_result = _empty_result \/
     exists run l ls rest,
       ocr = Some run /\ run image_path = inr (Some (Some (l :: ls) :: rest)) /\
       ocr_boxes _empty_result = map box_of_line (l :: ls))).
  { repeat split; try constructor. reflexivity. }
  unfold extract_text.
  destruct ocr as [run|]; [|exact Hempty].
  destruct (run image_path) as [e|[[|[[|l ls]|] rest]|]] eqn:Hrun; try exact Hempty.
  clear Hempty. cbn zeta. cbn [raw_text ocr_boxes structured].
  split; [by rewrite map_map|]. split; [reflexivity|]. split.
  - apply Forall_forall. intros s Hs. apply list_elem_of_In in Hs.
    destruct (structured_from_boxes (map box_of_line (l :: ls)) s) as (b & Hb & ->).
    + unfold structured_strings in Hs.
      repeat (apply in_app_or in Hs as [Hs|Hs]); auto;
        match type of Hs with
        | In _ (option_list ?o) =>
            destruct o eqn:?; simpl in Hs; [destruct Hs as [->|[]] | destruct Hs]; auto
        end.
    + apply in_map_iff in Hb as (ln & <- & Hln). exists (line_text ln).
      split; [by apply in_map | reflexivity].
  - right. exists run, l, ls, rest. done.
Qed.

End StructurerMore.

(* ===================================================================== *)
(** * More on the inference service *)
(* ===================================================================== *)

Section InferenceMore.
Import PyFloat PyStr Py OCRService InferenceService.

(** The sections that [_parse_response] looks for, in the order of its
    tests. *)
Inductive Heading := HTrend | HMax | HMin | HCorrelation | HAnomaly | HSummary.

(** The first test that a line passes. *)
Definition heading_of (line : string) : option Heading :=
  let line_lower := lower_strip line in
  if contains ":" line then
    if contains "trend" line_lower then Some HTrend
    else if contains "max" line_lower then Some HMax
    else if contains "min" line_lower then Some HMin
    else if contains "correlation" line_lower then Some HCorrelation
    else if contains "anomal" line_lower then Some HAnomaly
    else if contains "summary" line_lower then Some HSummary
    else None
  else None.

Definition has_heading (h : Heading) (line : string) : bool :=
  match heading_of line, h with
  | Some HTrend, HTrend | Some HMax, HMax | Some HMin, HMin
  | Some HCorrelation, HCorrelation | Some HAnomaly, HAnomaly
  | Some HSummary, HSummary => true
  | _, _ => false
  end.

(** The texts after the first colon of the lines under one heading. *)
Definition sections (h : Heading) (lines : list string) : list string :=
  map section_text (List.filter (has_heading h) lines).

(** The last of [l], or what was there before. *)
Definition last_or {A} (before : option A) (l : list A) : option A :=
  match last l with Some y => Some y | None => before end.

Definition parsed_from (acc : Inference) (lines : list string) : Inference :=
  {| trend := last_or (trend acc) (sections HTrend lines);
     max_point := last_or (max_point acc) (map PointDescription (sections HMax lines));
     min_point := last_or (min_point acc) (map PointDescription (sections HMin lines));
     correlations := correlations acc ++ sections HCorrelation lines;
     anomalies := anomalies acc ++ sections HAnomaly lines;
     summary := default (summary acc) (last (sections HSummary lines)) |}.

(** The answers used as examples. *)
Definition labelled_answer : string :=
  "TREND: rising" +:+ String (ascii_of_nat 10)
    ("Summary: the maximum is reached in 2020" +:+ String (ascii_of_nat 10)
       "Trend: flat after 2021").

Lemma parse_line_by_heading (result : Inference) (line : string) :
  parse_line result line =
  match heading_of line with
  | Some HTrend =>
      {| trend := Some (section_text line); max_point := max_point result;
         min_point := min_point result; correlations := correlations result;
         anomalies := anomalies result; summary := summary result |}
  | Some HMax =>
      {| trend := trend result; max_point := Some (PointDescription (section_text line));
         min_point := min_point result; correlations := correlations result;
         anomalies := anomalies result; summary := summary result |}
  | Some HMin =>
      {| trend := trend result; max_point := max_point result;
         min_point := Some (PointDescription (section_text line));
         correlations := correlations result;
         anomalies := anomalies result; summary := summary result |}
  | Some HCorrelation =>
      {| trend := trend result; max_point := max_point result;
         min_point := min_point result;
         correlations := correlations result ++ [section_text line];
         anomalies := anomalies result; summary := summary result |}
  | Some HAnomaly =>
      {| trend := trend result; max_point := max_point result;
         min_point := min_point result; correlations := correlations result;
         anomalies := anomalies result ++ [section_text line]; summary := summary result |}
  | Some HSummary =>
      {| trend := trend result; max_point := max_point result;
         min_point := min_point result; correlations := correlations result;
         anomalies := anomalies result; summary := section_text line |}
  | None => result
  end.
Proof.
  unfold parse_line, heading_of.
  destruct (contains ":" line); rewrite ?andb_true_r, ?andb_false_r; [|reflexivity].
  destruct (contains "trend" (lower_strip line)); [reflexivity|].
  destruct (contains "max" (lower_strip line)); [reflexivity|].
  destruct (contains "min" (lower_strip line)); [reflexivity|].
  destruct (contains "correlation" (lower_strip line)); [reflexivity|].
  destruct (contains "anomal" (lower_strip line)); [reflexivity|].
  destruct (contains "summary" (lower_strip line)); reflexivity.
Qed.

Lemma last_or_cons {A} (before : option A) (x : A) (l : list A) :
  last_or before (x :: l) = last_or (Some x) l.
Proof. unfold last_or. rewrite last_cons. by destruct (last l). Qed.

Lemma default_last_cons {A} (d x : A) (l : list A) :
  default d (last (x :: l)) = default x (last l).
Proof. rewrite last_cons. by destruct (last l). Qed.

Lemma last_map_option {A B} (f : A -> B) (l : list A) :
  last (map f l) = f <$> last l.
Proof.
  induction l as [|x l IH]; simpl; [reflexivity|].
  rewrite !last_cons, IH. by destruct (last l).
Qed.

Lemma parsed_from_nil (acc : Inference) : parsed_from acc [] = acc.
Proof.
  destruct acc. unfold parsed_from, sections, last_or. simpl. by rewrite !app_nil_r.
Qed.

Lemma fold_parse_line (lines : list string) :
  forall acc, fold_left parse_line lines acc = parsed_from acc lines.
Proof.
  induction lines as [|line lines IH]; intros acc; simpl.
  - by rewrite parsed_from_nil.
  - rewrite IH, parse_line_by_heading. unfold parsed_from, sections, has_heading.
    cbn [List.filter].
    destruct (heading_of line) as [[]|];
      cbn [trend max_point min_point correlations anomalies summary map];
      rewrite ?last_or_cons, ?default_last_cons, <- ?app_assoc; reflexivity.
Qed.

(** X9. [_parse_response] in closed form.  A line counts under the first
    of the headings trend, max, min, correlation, anomal, summary that its
    lower-cased text contains, and only when it holds a colon.  The trend,
    max_point and min_point are the text after the first colon of the
    LAST line under their heading, or None; correlations and anomalies
    are those texts for ALL their lines, in order; the summary is that of
    the last summary line, or the whole response when there is none. *)
Theorem parse_response_closed_form (response_text : string) (ocr_data : OcrResult) :
  let lines := split_lines response_text in
  _parse_response response_text ocr_data =
  {| trend := last (sections HTrend lines);
     max_point := PointDescription <$> last (sections HMax lines);
     min_point := PointDescription <$> last (sections HMin lines);
     correlations := sections HCorrelation lines;
     anomalies := sections HAnomaly lines;
     summary := default response_text (last (sections HSummary lines)) |}.
Proof.
  simpl. unfold _parse_response. rewrite fold_parse_line. unfold parsed_from, last_or.
  cbn [trend max_point min_point correlations anomalies summary app].
  f_equal.
  - by destruct (last (sections HTrend (split_lines response_text))).
  - rewrite last_map_option.
    by destruct (last (sections HMax (split_lines response_text))).
  - rewrite last_map_option.
    by destruct (last (sections HMin (split_lines response_text))).
Qed.

(** ** An answer without a colon *)

Lemma contains_one_char (c : ascii) (l : list ascii) :
  contains_chars [c] l = true <-> In c l.
Proof.
  induction l as [|d l IH]; simpl.
  - split; [discriminate | intros []].
  - rewrite andb_true_r, orb_true_iff, IH, Ascii.eqb_eq.
    destruct l; simpl; split; intros [H|H]; auto.
Qed.

Lemma split_chars_pieces (c : ascii) (l : list ascii) :
  forall cur piece x,
    In piece (split_chars c cur l) -> In x piece -> In x cur \/ In x l.
Proof.
  induction l as [|d l IH]; intros cur piece x Hp Hx; simpl in Hp.
  - destruct Hp as [<-|[]]. left. by apply in_rev.
  - destruct (Ascii.eqb d c).
    + destruct Hp as [<-|Hp].
      * left. by apply in_rev.
      * destruct (IH [] piece x Hp Hx) as [[]|H]. right. by right.
    + destruct (IH (d :: cur) piece x Hp Hx) as [[<-|H]|H]; simpl; auto.
Qed.

Lemma line_without_colon (response_text line : string) :
  contains ":" response_text = false ->
  In line (split_lines response_text) -> heading_of line = None.
Proof.
  intros Hno Hline. unfold heading_of.
  destruct (contains ":" line) eqn:Hc; [|reflexivity]. exfalso.
  unfold split_lines in Hline. apply in_map_iff in Hline as (piece & <- & Hp).
  unfold contains in Hc, Hno. rewrite chars_of_chars in Hc.
  change (chars ":") with [":"%char] in Hc, Hno.
  apply contains_one_char in Hc.
  destruct (split_chars_pieces _ _ _ _ _ Hp Hc) as [[]|Hin].
  apply contains_one_char in Hin. congruence.
Qed.

(** X10. An answer of the language model that holds no colon is kept
    whole as the summary; nothing else is read from it, whatever words
    it contains. *)
Theorem answer_without_colon_is_summary (response_text : string) (ocr_data : OcrResult) :
  contains ":" response_text = false ->
  _parse_response response_text ocr_data =
  {| trend := None; max_point := None; min_point := None;
     correlations := []; anomalies := []; summary := response_text |}.
Proof.
  intros Hno. unfold _parse_response.
  assert (G : forall lines acc,
             (forall line, In line lines -> heading_of line = None) ->
             fold_left parse_line lines acc = acc).
  { induction lines as [|line lines IH]; intros acc Hall; simpl; [reflexivity|].
    rewrite parse_line_by_heading, (Hall line (or_introl eq_refl)).
    apply IH. intros l Hl. apply Hall. by right. }
  apply G. intros line Hline. by apply (line_without_colon response_text).
Qed.

Lemma answer_without_colon_is_summary_witness :
  summary (_parse_response "The trend is rising, max in 2020" _empty_result)
  = "The trend is rising, max in 2020".
Proof.
  rewrite (answer_without_colon_is_summary "The trend is rising, max in 2020" _empty_result);
    [reflexivity | vm_compute; reflexivity].
Defined.

(** ** A summary line that names another section *)

(** One of the five words that are tested before "summary". *)
Definition earlier_word (line : string) : bool :=
  contains "trend" (lower_strip line) || contains "max" (lower_strip line)
  || contains "min" (lower_strip line) || contains "correlation" (lower_strip line)
  || contains "anomal" (lower_strip line).

Lemma earlier_word_heading (line : string) :
  earlier_word line = true -> heading_of line <> Some HSummary.
Proof.
  unfold earlier_word, heading_of. intros H.
  destruct (contains ":" line); [|discriminate].
  destruct (contains "trend" (lower_strip line)); [discriminate|].
  destruct (contains "max" (lower_strip line)); [discriminate|].
  destruct (contains "min" (lower_strip line)); [discriminate|].
  destruct (contains "correlation" (lower_strip line)); [discriminate|].
  destruct (contains "anomal" (lower_strip line)); [discriminate|].
  discriminate.
Qed.

Lemma filter_none {A} (p : A -> bool) (l : list A) :
  (forall x, In x l -> p x = false) -> List.filter p l = [].
Proof.
  induction l as [|x l IH]; intros H; simpl; [reflexivity|].
  rewrite (H x (or_introl eq_refl)). apply IH. intros y Hy. apply H. by right.
Qed.

(** X11. The summary of the answer is lost when each of its summary lines
    also contains, anywhere in the line, one of the words trend, max,
    min, correlation or anomal (as in "Summary: sales reach their maximum
    in 2020"): such a line is read under the other heading and the
    summary stays the whole answer. *)
Theorem summary_line_with_earlier_word (response_text : string) (ocr_data : OcrResult) :
  (forall line, In line (split_lines response_text) ->
                contains "summary" (lower_strip line) = true ->
                earlier_word line = true) ->
  summary (_parse_response response_text ocr_data) = response_text.
Proof.
  intros Hall. unfold _parse_response. rewrite fold_parse_line.
  unfold parsed_from, sections. cbn [summary].
  rewrite filter_none; [reflexivity|].
  intros line Hline. unfold has_heading.
  destruct (heading_of line) as [[]|] eqn:Hh; try reflexivity.
  exfalso. refine (earlier_word_heading line _ Hh). apply Hall; [exact Hline|].
  unfold heading_of in Hh.
  repeat match type of Hh with
         | (if ?c then _ else _) = _ => destruct c eqn:?; try discriminate
         end.
  reflexivity.
Qed.

Lemma summary_line_with_earlier_word_witness :
  summary (_parse_response labelled_answer _empty_result) = labelled_answer /\
  max_point (_parse_response labelled_answer _empty_result)
  = Some (PointDescription "the maximum is reached in 2020").
Proof.
  split; [|vm_compute; reflexivity].
  apply (summary_line_with_earlier_word labelled_answer _empty_result).
  intros line Hline. vm_compute in Hline.
  destruct Hline as [<-|[<-|[<-|[]]]]; vm_compute; congruence.
Defined.

(** ** The fallback *)

Lemma trend_of_values (first lst : float) :
  trend_of first lst = "increasing" \/ trend_of first lst = "decreasing"
  \/ trend_of first lst = "stable".
Proof.
  unfold trend_of. destruct (fgt lst first); [tauto|]. destruct (flt lst first); tauto.
Qed.

(** The trend and the two points depend on the parsed values only. *)
Lemma fallback_by_parsed_values (ocr_data ocr_data' : OcrResult) :
  numeric_values (values (structured ocr_data))
  = numeric_values (values (structured ocr_data')) ->
  trend (_fallback_inference ocr_data) = trend (_fallback_inference ocr_data') /\
  max_point (_fallback_inference ocr_data) = max_point (_fallback_inference ocr_data') /\
  min_point (_fallback_inference ocr_data) = min_point (_fallback_inference ocr_data').
Proof.
  intros H. unfold _fallback_inference. cbv zeta. rewrite H.
  destruct (if (2 <=? length (numeric_values (values (structured ocr_data'))))%nat
            then _ else _) as [[t mx] mn].
  repeat split.
Qed.

(** X12. The fallback always answers with one of the trends increasing,
    decreasing, stable and unknown, and with no correlation and no
    anomaly.  The trend is unknown exactly when fewer than two values
    parse as numbers, and exactly then max_point and min_point are unset:
    the three go together. *)
Theorem fallback_inference_shape (ocr_data : OcrResult) :
  let nums := numeric_values (values (structured ocr_data)) in
  let r := _fallback_inference ocr_data in
  In (trend r) [Some "increasing"; Some "decreasing"; Some "stable"; Some "unknown"] /\
  (trend r = Some "unknown" <-> (length nums < 2)%nat) /\
  (max_point r = None <-> (length nums < 2)%nat) /\
  (min_point r = None <-> (length nums < 2)%nat) /\
  correlations r = [] /\ anomalies r = [].
Proof.
  cbv zeta. unfold _fallback_inference.
  destruct (numeric_values (values (structured ocr_data))) as [|a [|b rest]] eqn:E.
  - simpl. repeat split; auto; try lia.
  - simpl. repeat split; auto; try lia.
  - assert (Hlen : (2 <=? length (a :: b :: rest))%nat = true) by reflexivity.
    rewrite Hlen.
    destruct (last (a :: b :: rest)) as [lst|] eqn:El.
    2:{ apply last_None in El. discriminate. }
    destruct (py_max (a :: b :: rest)) as [mx|] eqn:Emax; [|discriminate].
    destruct (py_min (a :: b :: rest)) as [mn|] eqn:Emin; [|discriminate].
    cbn [trend max_point min_point correlations anomalies].
    split; [|split; [|split; [|split; [|split]]]]; try reflexivity.
    + destruct (trend_of_values a lst) as [-> | [-> | ->]]; simpl; tauto.
    + split; [|simpl; lia].
      destruct (trend_of_values a lst) as [-> | [-> | ->]]; discriminate.
    + split; [discriminate | simpl; lia].
    + split; [discriminate | simpl; lia].
Qed.

(** X13. A value that does not read as a number once commas, percent and
    dollar signs are removed is skipped by the fallback: the trend and
    the two points are the same with it as without it, wherever it
    stands in the list. *)
Theorem unparsable_value_is_skipped
    (ocr_data ocr_data' : OcrResult) (before after : list string) (bad : string) :
  py_float (remove_char "$" (remove_char "%" (remove_char "," bad))) = None ->
  values (structured ocr_data) = before ++ bad :: after ->
  values (structured ocr_data') = before ++ after ->
  trend (_fallback_inference ocr_data) = trend (_fallback_inference ocr_data') /\
  max_point (_fallback_inference ocr_data) = max_point (_fallback_inference ocr_data') /\
  min_point (_fallback_inference ocr_data) = min_point (_fallback_inference ocr_data').
Proof.
  intros Hbad Hv Hv'. apply fallback_by_parsed_values.
  rewrite Hv, Hv'. unfold numeric_values.
  rewrite !omap_app. simpl. by rewrite Hbad.
Qed.

Lemma unparsable_value_is_skipped_witness :
  trend (_fallback_inference (ocr_with_values ["10"; "n/a"; "20"]))
  = trend (_fallback_inference (ocr_with_values ["10"; "20"])) /\
  max_point (_fallback_inference (ocr_with_values ["10"; "n/a"; "20"]))
  = max_point (_fallback_inference (ocr_with_values ["10"; "20"])) /\
  min_point (_fallback_inference (ocr_with_values ["10"; "n/a"; "20"]))
  = min_point (_fallback_inference (ocr_with_values ["10"; "20"])).
Proof.
  apply (unparsable_value_is_skipped _ _ ["10"] ["20"] "n/a");
    [vm_compute; reflexivity | reflexivity | reflexivity].
Defined.

End InferenceMore.

(* ===================================================================== *)
(** * More on the background tasks *)
(* ===================================================================== *)

Section RouterMore.
Import PyFloat PyStr Py Router.

(** A computation that writes to the entry of [task_id] only, and that
    adds to the history nothing but values of that task, whether it
    returns or raises. *)
Definition frames (task_id : string) {A} (c : M A) : Prop :=
  forall w r w',
    c w = (r, w') ->
    (forall t, t <> task_id -> processing_status w' !! t = processing_status w !! t) /\
    exists ps, progress_log w' = progress_log w ++ map (pair task_id) ps.

(** The table with two jobs accepted. *)
Definition two_jobs : World :=
  {| processing_status := {[ "t1" := submitted "PDF uploaded, starting extraction...";
                             "t2" := submitted "Image uploaded, starting analysis..." ]};
     progress_log := [] |}.

Lemma frames_ret (task_id : string) {A} (a : A) : frames task_id (ret a).
Proof. intros w r w' [= <- <-]. split; [done|]. exists []. by rewrite app_nil_r. Qed.

Lemma frames_raise (task_id : string) {A} (e : exn) : frames task_id (@raise A e).
Proof. intros w r w' [= <- <-]. split; [done|]. exists []. by rewrite app_nil_r. Qed.

Lemma frames_lift (task_id : string) {A} (r : exn + A) : frames task_id (lift r).
Proof. destruct r; [apply frames_raise | apply frames_ret]. Qed.

Lemma frames_bind (task_id : string) {A B} (c : M A) (k : A -> M B) :
  frames task_id c -> (forall a, frames task_id (k a)) -> frames task_id (bind c k).
Proof.
  intros Hc Hk w r w'. unfold bind. destruct (c w) as [[e|a] w1] eqn:E.
  - intros [= <- <-]. exact (Hc _ _ _ E).
  - intros H. destruct (Hc _ _ _ E) as [H1 (ps1 & L1)].
    destruct (Hk a _ _ _ H) as [H2 (ps2 & L2)]. split.
    + intros t Ht. by rewrite (H2 t Ht), (H1 t Ht).
    + exists (ps1 ++ ps2). by rewrite L2, L1, map_app, app_assoc.
Qed.

Lemma frames_try_except (task_id : string) {A} (body : M A) (handler : exn -> M A) :
  frames task_id body -> (forall e, frames task_id (handler e)) ->
  frames task_id (try_except body handler).
Proof.
  intros Hb Hh w r w'. unfold try_except. destruct (body w) as [[e|a] w1] eqn:E.
  - intros H. destruct (Hb _ _ _ E) as [H1 (ps1 & L1)].
    destruct (Hh e _ _ _ H) as [H2 (ps2 & L2)]. split.
    + intros t Ht. by rewrite (H2 t Ht), (H1 t Ht).
    + exists (ps1 ++ ps2). by rewrite L2, L1, map_app, app_assoc.
  - intros [= <- <-]. exact (Hb _ _ _ E).
Qed.

Lemma frames_set_message (task_id msg : string) : frames task_id (set_message task_id msg).
Proof.
  intros w r w'. unfold set_message. destruct (processing_status w !! task_id).
  - intros [= <- <-]. simpl. split.
    + intros t Ht. by apply lookup_insert_ne.
    + exists []. by rewrite app_nil_r.
  - intros [= <- <-]. split; [done|]. exists []. by rewrite app_nil_r.
Qed.

Lemma frames_set_progress (task_id : string) (p : Z) :
  frames task_id (set_progress task_id p).
Proof.
  intros w r w'. unfold set_progress. destruct (processing_status w !! task_id).
  - intros [= <- <-]. simpl. split.
    + intros t Ht. by apply lookup_insert_ne.
    + by exists [p].
  - intros [= <- <-]. split; [done|]. exists []. by rewrite app_nil_r.
Qed.

Lemma frames_set_status (task_id : string) (entry : StatusEntry) :
  frames task_id (set_status task_id entry).
Proof.
  intros w r w'. unfold set_status. intros [= <- <-]. simpl. split.
  - intros t Ht. by apply lookup_insert_ne.
  - by exists [progress entry].
Qed.

Lemma frames_getitem (task_id : string) (d : gmap string value) (key : string) :
  frames task_id (getitem d key).
Proof. unfold getitem. destruct (d !! key); [apply frames_ret | apply frames_raise]. Qed.

Lemma frames_generate (svc : Services) (task_id : string)
    (pos : list pyarg) (kw : list (string * pyarg)) :
  frames task_id (generate_chart_inference svc pos kw).
Proof.
  unfold generate_chart_inference.
  repeat match goal with
         | |- frames _ (match ?x with _ => _ end) => destruct x
         end;
    try apply frames_raise; apply frames_lift.
Qed.

Lemma frames_validate (task_id : string) (v : value) : frames task_id (validate_type v).
Proof. destruct v; try apply frames_raise. apply frames_ret. Qed.

Lemma frames_loop_progress (task_id : string) (idx total_images : Z) :
  frames task_id (loop_progress idx total_images).
Proof.
  unfold loop_progress, int_of_float. apply frames_bind.
  - destruct (to_Z_trunc _); [apply frames_ret | apply frames_raise].
  - intros n. apply frames_ret.
Qed.

Ltac frame :=
  repeat first
    [ apply frames_ret | apply frames_raise | apply frames_lift
    | apply frames_set_message | apply frames_set_progress | apply frames_set_status
    | apply frames_getitem | apply frames_generate | apply frames_validate
    | apply frames_loop_progress
    | apply frames_bind; [|intros ?]
    | match goal with |- frames _ (if ?c then _ else _) => destruct c end ].

Lemma frames_process_pdf_images (svc : Services) (task_id : string) (content : PdfContent)
    (total_images : Z) (imgs : list ImgInfo) :
  forall idx acc,
    frames task_id (process_pdf_images svc task_id content total_images idx imgs acc).
Proof.
  induction imgs as [|img imgs IH]; intros idx acc; simpl.
  - apply frames_ret.
  - apply frames_bind; [|intros ?; apply IH].
    unfold process_pdf_image. cbv zeta. frame.
Qed.

Lemma frames_job_body (svc : Services) (j : Job) (task_id file_path filename : string) :
  frames task_id (job_body svc j task_id file_path filename).
Proof.
  destruct j; simpl.
  - unfold process_pdf_body. cbv zeta.
    repeat first [ apply frames_process_pdf_images | progress frame ].
  - unfold process_image_body. cbv zeta. frame.
Qed.

(** X14. A background task, whether it completes or fails, leaves the
    status entry of every other task as it was, and the progress values it
    reports are filed under its own task. *)
Theorem other_tasks_are_untouched
    (svc : Services) (j : Job) (task_id file_path filename other : string)
    (w w' : World) (r : exn + unit) :
  other <> task_id ->
  job_task svc j task_id file_path filename w = (r, w') ->
  processing_status w' !! other = processing_status w !! other /\
  exists ps, progress_log w' = progress_log w ++ map (pair task_id) ps.
Proof.
  intros Hne Hrun.
  assert (F : frames task_id (job_task svc j task_id file_path filename)).
  { pose proof (frames_job_body svc j task_id file_path filename) as Hb.
    destruct j; simpl in *; apply frames_try_except; try exact Hb;
      intros e; apply frames_set_status. }
  destruct (F _ _ _ Hrun) as [H1 H2]. split; [by apply H1 | exact H2].
Qed.

Lemma other_tasks_are_untouched_witness :
  exists w',
    process_image (example_services broken_pdf) "t2" "photo.png" "photo.png" two_jobs
    = (inr tt, w') /\
    processing_status w' !! "t1" = processing_status two_jobs !! "t1" /\
    exists ps, progress_log w' = progress_log two_jobs ++ map (pair "t2") ps.
Proof.
  eexists. split; [vm_compute; reflexivity|].
  eapply (other_tasks_are_untouched (example_services broken_pdf) ImageJob "t2"
            "photo.png" "photo.png" "t1" two_jobs).
  - discriminate.
  - vm_compute. reflexivity.
Defined.

(** ** How a task ends *)

(** A body that, when it returns, has filed the result it saved. *)
Definition ends_completed (svc : Services) (task_id filename : string) (c : M unit)
  : Prop :=
  forall w w',
    c w = (inr tt, w') ->
    exists res saved_id,
      processing_status w' !! task_id = Some (completed res saved_id) /\
      save_result svc res = inr saved_id /\
      pdf_name res = filename /\ processed_at res = now svc.

Lemma ends_completed_bind (svc : Services) (task_id filename : string) {A}
    (c : M A) (k : A -> M unit) :
  (forall a, ends_completed svc task_id filename (k a)) ->
  ends_completed svc task_id filename (bind c k).
Proof.
  intros Hk w w' H. apply bind_inv in H as (a & w1 & _ & H). exact (Hk a _ _ H).
Qed.

Lemma lift_inv {A} (r : exn + A) (w w' : World) (a : A) :
  lift r w = (inr a, w') -> r = inr a /\ w' = w.
Proof. destruct r; simpl; [discriminate|]. by intros [= <- <-]. Qed.

Lemma getitem_inv (d : gmap string value) (key : string) (w w' : World) (v : value) :
  getitem d key w = (inr v, w') -> d !! key = Some v /\ w' = w.
Proof. unfold getitem. destruct (d !! key); [|discriminate]. by intros [= <- <-]. Qed.

Lemma validate_inv (v : value) (w w' : World) (s : string) :
  validate_type v w = (inr s, w') -> v = VStr s /\ w' = w.
Proof. destruct v; try discriminate. by intros [= <- <-]. Qed.

Lemma ends_completed_save (svc : Services) (task_id filename : string)
    (res : PDFExtractionResult) :
  pdf_name res = filename -> processed_at res = now svc ->
  ends_completed svc task_id filename
    (saved_id <- lift (save_result svc res) ;; set_status task_id (completed res saved_id)).
Proof.
  intros Hn Hp w w' H. apply bind_inv in H as (saved_id & w1 & H1 & H).
  apply lift_inv in H1 as [H1 ->]. apply set_status_log in H as [_ H].
  exists res, saved_id. done.
Qed.

Lemma job_body_ends_completed (svc : Services) (j : Job)
    (task_id file_path filename : string) :
  ends_completed svc task_id filename (job_body svc j task_id file_path filename).
Proof.
  destruct j; simpl.
  - unfold process_pdf_body. cbv zeta.
    repeat (first [ by apply ends_completed_save
                  | apply ends_completed_bind; intros ? ]).
  - unfold process_image_body. cbv zeta.
    repeat (first [ by apply ends_completed_save
                  | apply ends_completed_bind; intros ? ]).
Qed.

(** X15. A background task always returns, without raising, and always
    leaves an entry for its task that is final: either "completed", with
    progress 100, the result under the name of the upload and the
    identifier that [save_result] returned for that very result, or
    "failed", with progress 0, no result, and the text of the exception
    that its body raised.  This holds from any table, even one without
    the task. *)
Theorem task_ends_completed_or_failed
    (svc : Services) (j : Job) (task_id file_path filename : string) (w : World) :
  exists w' entry,
    job_task svc j task_id file_path filename w = (inr tt, w') /\
    processing_status w' !! task_id = Some entry /\
    ((exists res saved_id,
        entry = completed res saved_id /\ save_result svc res = inr saved_id /\
        pdf_name res = filename /\ processed_at res = now svc /\
        exists w1, job_body svc j task_id file_path filename w = (inr tt, w1)) \/
     (exists e w1,
        entry = failed e /\
        job_body svc j task_id file_path filename w = (inl e, w1))).
Proof.
  assert (Htask : job_task svc j task_id file_path filename
                  = try_except (job_body svc j task_id file_path filename)
                               (fun e => set_status task_id (failed e)))
    by (by destruct j).
  rewrite Htask. unfold try_except.
  destruct (job_body svc j task_id file_path filename w) as [[e|[]] w1] eqn:Hbody.
  - eexists _, (failed e). split; [reflexivity|]. split; [apply lookup_insert_eq|].
    right. eauto.
  - destruct (job_body_ends_completed svc j task_id file_path filename _ _ Hbody)
      as (res & saved_id & Hentry & Hsave & Hname & Hat).
    exists w1, (completed res saved_id). split; [reflexivity|]. split; [exact Hentry|].
    left. exists res, saved_id. eauto 10.
Qed.

(** ** What a completed PDF job holds *)

(** The extraction that the loop of [process_pdf] builds for one image. *)
Definition extraction_of (svc : Services) (content : PdfContent)
    (ie : ImageExtraction) (img : ImgInfo) : Prop :=
  ie_image_id ie = image_id img /\
  ie_image_path ie = image_path img /\
  ie_page_number ie = page_number img /\
  exists detection is_chart,
    detect_chart svc (image_path img) = inr detection /\
    detection !! "is_chart" = Some is_chart /\
    if truthy is_chart then
      exists ocr_result inference,
        extract_chart_text svc (image_path img) = inr ocr_result /\
        detection !! "chart_type" = Some (VStr (ie_type ie)) /\
        generate_inference svc (image_path img) (VStr (ie_type ie)) ocr_result
          (substring 0 2000 (pc_text content)) = inr inference /\
        ie_ocr_data ie = Some (ocr_data_of ocr_result) /\
        ie_inference ie = Some inference
    else
      ie_type ie = "image" /\ ie_ocr_data ie = None /\ ie_inference ie = None.

Lemma process_pdf_image_result (svc : Services) (task_id : string) (content : PdfContent)
    (total_images idx : Z) (img : ImgInfo) (acc acc' : list ImageExtraction)
    (w w' : World) :
  process_pdf_image svc task_id content total_images idx img acc w = (inr acc', w') ->
  exists ie, acc' = acc ++ [ie] /\ extraction_of svc content ie img.
Proof.
  unfold process_pdf_image. cbv zeta. intros H.
  apply bind_inv in H as (detection & w1 & H1 & H). apply lift_inv in H1 as [Hdet ->].
  apply bind_inv in H as (is_chart & w2 & H2 & H). apply getitem_inv in H2 as [Hic ->].
  apply bind_inv in H as (exts & w3 & H3 & H).
  apply bind_inv in H as (p & w4 & _ & H).
  apply bind_inv in H as ([] & w5 & _ & H).
  injection H as <- _.
  unfold extraction_of.
  destruct (truthy is_chart) eqn:Htr.
  - apply bind_inv in H3 as ([] & wa & _ & H3).
    apply bind_inv in H3 as (ocr_result & wb & Hb & H3). apply lift_inv in Hb as [Hocr ->].
    apply bind_inv in H3 as (ct & wc & Hc & H3). apply getitem_inv in Hc as [Hct ->].
    apply bind_inv in H3 as (inference & wd & Hd & H3).
    rewrite four_positionals_bind in Hd. apply lift_inv in Hd as [Hinf ->].
    apply bind_inv in H3 as (ct' & we & He & H3). apply getitem_inv in He as [Hct' ->].
    apply bind_inv in H3 as (ty & wf & Hf & H3). apply validate_inv in Hf as [-> ->].
    injection H3 as <- _.
    assert (ct = VStr ty) as -> by congruence.
    eexists. split; [reflexivity|]. cbn [ie_image_id ie_image_path ie_page_number
      ie_type ie_ocr_data ie_inference].
    repeat split. exists detection, is_chart. rewrite Htr. eauto 10.
  - injection H3 as <- _.
    eexists. split; [reflexivity|]. cbn [ie_image_id ie_image_path ie_page_number
      ie_type ie_ocr_data ie_inference].
    repeat split. exists detection, is_chart. rewrite Htr. eauto.
Qed.

Lemma process_pdf_images_result (svc : Services) (task_id : string) (content : PdfContent)
    (total_images : Z) (imgs : list ImgInfo) :
  forall idx acc res w w',
    process_pdf_images svc task_id content total_images idx imgs acc w = (inr res, w') ->
    exists new, res = acc ++ new /\ Forall2 (extraction_of svc content) new imgs.
Proof.
  induction imgs as [|img imgs IH]; intros idx acc res w w' H; simpl in H.
  - injection H as <- _. exists []. split; [by rewrite app_nil_r | constructor].
  - apply bind_inv in H as (acc1 & w1 & H1 & H).
    apply process_pdf_image_result in H1 as (ie & -> & Hie).
    apply IH in H as (new & -> & Hnew).
    exists (ie :: new). split; [by rewrite <- app_assoc | by constructor].
Qed.

(** A completed PDF job, read backwards. *)
Lemma completed_pdf_job (svc : Services) (task_id file_path filename : string)
    (w w' : World) (entry : StatusEntry) :
  process_pdf svc task_id file_path filename w = (inr tt, w') ->
  processing_status w' !! task_id = Some entry ->
  status entry = "completed" ->
  exists content exts,
    extract_pdf svc file_path = inr content /\
    result entry = Some {| pdf_name := filename;
                           processed_at := now svc;
                           total_pages := pc_total_pages content;
                           extracted_text := pc_text content;
                           extractions := exts |} /\
    Forall2 (extraction_of svc content) exts (pc_images content).
Proof.
  intros Hrun Hentry Hstatus. unfold process_pdf, try_except in Hrun.
  destruct (process_pdf_body svc task_id file_path filename w) as [[e|[]] w1] eqn:Hbody.
  - apply set_status_log in Hrun as [_ Hfailed].
    rewrite Hfailed in Hentry. injection Hentry as <-. discriminate Hstatus.
  - injection Hrun as <-. unfold process_pdf_body in Hbody. cbv zeta in Hbody.
    rename Hbody into H.
    apply bind_inv in H as ([] & w2 & _ & H).
    apply bind_inv in H as ([] & w3 & _ & H).
    apply bind_inv in H as (content & w4 & H4 & H). apply lift_inv in H4 as [H4 ->].
    apply bind_inv in H as ([] & w5 & _ & H).
    apply bind_inv in H as ([] & w6 & _ & H).
    apply bind_inv in H as (exts & w7 & H7 & H).
    apply bind_inv in H as ([] & w8 & _ & H).
    apply bind_inv in H as ([] & w9 & _ & H).
    apply bind_inv in H as (saved_id & w10 & _ & H).
    apply set_status_log in H as [_ H]. rewrite H in Hentry. injection Hentry as <-.
    apply process_pdf_images_result in H7 as (new & -> & Hnew).
    exists content, new. split; [exact H4|]. split; [reflexivity | exact Hnew].
Qed.

(** X16. The result of a completed PDF job mirrors what [extract_pdf]
    returned: the same number of pages and the same text, and one
    extraction per image, in the order of the images, with the image's
    identifier, path and page.  An image that the detector takes for a
    chart carries the detector's chart type, the OCR data of that image
    and the inference made from them and from the first 2000 characters
    of the text of the PDF; any other image has the type "image" and
    neither OCR data nor inference. *)
Theorem pdf_result_mirrors_the_images
    (svc : Services) (task_id file_path filename : string) (w w' : World)
    (entry : StatusEntry) (content : PdfContent) :
  extract_pdf svc file_path = inr content ->
  process_pdf svc task_id file_path filename w = (inr tt, w') ->
  processing_status w' !! task_id = Some entry ->
  status entry = "completed" ->
  exists res,
    result entry = Some res /\
    pdf_name res = filename /\
    total_pages res = pc_total_pages content /\
    extracted_text res = pc_text content /\
    Forall2 (extraction_of svc content) (extractions res) (pc_images content).
Proof.
  intros Hex Hrun Hentry Hstatus.
  destruct (completed_pdf_job svc task_id file_path filename w w' entry
              Hrun Hentry Hstatus) as (content' & exts & Hex' & Hres & Hall).
  assert (content' = content) as -> by congruence.
  eexists. split; [exact Hres|]. simpl. repeat split. exact Hall.
Qed.

Lemma pdf_result_mirrors_the_images_witness :
  exists w' entry content,
    two_image_pdf "report.pdf" = inr content /\
    process_pdf two_image_services "t1" "report.pdf" "report.pdf" world_after_upload
    = (inr tt, w') /\
    processing_status w' !! "t1" = Some entry /\
    status entry = "completed" /\
    exists res,
      result entry = Some res /\
      pdf_name res = "report.pdf" /\
      total_pages res = pc_total_pages content /\
      extracted_text res = pc_text content /\
      Forall2 (extraction_of two_image_services content) (extractions res)
              (pc_images content).
Proof.
  eexists _, _, _. split; [vm_compute; reflexivity|].
  split; [vm_compute; reflexivity|]. split; [vm_compute; reflexivity|].
  split; [reflexivity|].
  eapply (pdf_result_mirrors_the_images two_image_services "t1" "report.pdf"
            "report.pdf" world_after_upload).
  - vm_compute. reflexivity.
  - vm_compute. reflexivity.
  - vm_compute. reflexivity.
  - reflexivity.
Defined.

(** ** An uploaded image that is no chart *)

(** The single extraction of an upload that the detector does not take
    for a chart. *)
Definition plain_image_result (svc : Services) (file_path filename : string)
  : PDFExtractionResult :=
  {| pdf_name := filename;
     processed_at := now svc;
     total_pages := 1;
     extracted_text := "";
     extractions :=
       [{| ie_image_id := new_image_id svc;
           ie_image_path := target_path svc file_path (new_image_id svc);
           ie_type := "image";
           ie_page_number := 1;
           ie_ocr_data := None;
           ie_inference := None |}] |}.

(** Services whose detector sees no chart. *)
Definition photo_services : Services :=
  {| extract_pdf := broken_pdf;
     detect_chart := fun _ => inr (ChartDetector.analysis false "image" lit_0_3);
     extract_chart_text := fun _ => inl (Exn "RuntimeError" "no OCR engine");
     generate_inference := fun _ _ _ _ => inl (Exn "RuntimeError" "no language model");
     save_result := fun _ => inr "extraction_20260101_000000";
     copy2 := fun _ _ => inr tt;
     new_image_id := "0123abcd";
     target_path := fun _ id => "output/images/" +:+ id +:+ ".png";
     now := 0 |}.

(** X17. An uploaded image that the detector does not take for a chart
    is processed to the end when the copy and the saving succeed: neither
    the OCR nor the inference is called, the job is "completed" with one
    extraction of type "image" on page 1 without OCR data or inference,
    under the identifier that [save_result] returned, and the progress
    values reported are 20, 90 and 100. *)
Theorem plain_image_upload_completes
    (svc : Services) (task_id file_path filename : string) (w : World)
    (detection : gmap string value) (is_chart : value) (saved_id : string) :
  has_task task_id w ->
  let target := target_path svc file_path (new_image_id svc) in
  copy2 svc file_path target = inr tt ->
  detect_chart svc target = inr detection ->
  detection !! "is_chart" = Some is_chart ->
  truthy is_chart = false ->
  save_result svc (plain_image_result svc file_path filename) = inr saved_id ->
  exists w',
    process_image svc task_id file_path filename w = (inr tt, w') /\
    processing_status w' !! task_id
    = Some (completed (plain_image_result svc file_path filename) saved_id) /\
    progress_log w' = progress_log w ++ map (pair task_id) [20; 90; 100].
Proof.
  intros Ht target Hcopy Hdet Hic Htruthy Hsave. subst target.
  unfold process_image, try_except, process_image_body. cbv zeta.
  destruct (set_message_ok task_id "Analyzing image content..." w Ht)
    as (wa & Ha & Hta & La).
  rewrite (bind_ok _ _ _ _ _ Ha).
  destruct (set_progress_ok task_id 20 wa Hta) as (wb & Hb & Htb & Lb).
  rewrite (bind_ok _ _ _ _ _ Hb).
  rewrite Hcopy, Hdet. unfold lift at 1 2.
  rewrite (bind_ok _ _ wb wb tt) by reflexivity.
  rewrite (bind_ok _ _ wb wb detection) by reflexivity.
  unfold getitem at 1. rewrite Hic.
  rewrite (bind_ok _ _ wb wb is_chart) by reflexivity.
  rewrite Htruthy.
  destruct (set_message_ok task_id "Processing as generic image..." wb Htb)
    as (wc & Hc & Htc & Lc).
  rewrite (bind_ok _ _ wb wc []) by (by rewrite (bind_ok _ _ _ _ _ Hc)).
  cbv beta iota.
  destruct (set_message_ok task_id "Saving results..." wc Htc) as (wd & Hd & Htd & Ld).
  rewrite (bind_ok _ _ _ _ _ Hd).
  destruct (set_progress_ok task_id 90 wd Htd) as (we & He & Hte & Le).
  rewrite (bind_ok _ _ _ _ _ He).
  unfold plain_image_result in *.
  rewrite Hsave. unfold lift.
  rewrite (bind_ok _ _ we we saved_id) by reflexivity.
  unfold set_status. eexists. split; [reflexivity|]. simpl.
  split; [apply lookup_insert_eq|].
  rewrite Le, Ld, Lc, Lb, La, <- !app_assoc. reflexivity.
Qed.

Lemma plain_image_upload_completes_witness :
  exists w',
    process_image photo_services "t1" "photo.png" "photo.png" world_after_upload
    = (inr tt, w') /\
    processing_status w' !! "t1"
    = Some (completed (plain_image_result photo_services "photo.png" "photo.png")
                      "extraction_20260101_000000") /\
    progress_log w' = progress_log world_after_upload ++ map (pair "t1") [20; 90; 100].
Proof.
  apply (plain_image_upload_completes photo_services "t1" "photo.png" "photo.png"
           world_after_upload (ChartDetector.analysis false "image" lit_0_3)
           (VBool false) "extraction_20260101_000000").
  - unfold has_task. vm_compute. eauto.
  - reflexivity.
  - reflexivity.
  - reflexivity.
  - reflexivity.
  - reflexivity.
Defined.

(** ** The progress of the loop *)

(** X18. The progress expression of the loop of [process_pdf],
    [30 + int((idx + 1) / total_images * 60)], never raises for an index
    of the loop, [0 <= idx < total_images]: the division is never by
    zero and [int] never meets an infinity or a NaN.  Its value lies
    between 30 and 90, and for the last image it is exactly 90, whatever
    the number of images and the rounding of the two float operations. *)
Theorem loop_progress_is_defined (idx total_images : Z) (w : World) :
  0 <= idx < total_images ->
  exists p,
    loop_progress idx total_images w = (inr p, w) /\
    30 <= p <= 90 /\
    loop_progress (total_images - 1) total_images w = (inr 90, w).
Proof.
  intros Hidx.
  destruct (fraction60_defined (idx + 1) total_images ltac:(lia)) as [v Hv].
  pose proof (fraction60_bounds (idx + 1) total_images v ltac:(lia) Hv) as Hb.
  pose proof (fraction60_full total_images ltac:(lia)) as Hfull.
  unfold fraction60 in Hv, Hfull. exists (30 + v).
  unfold loop_progress, int_of_float, bind, ret.
  rewrite Hv. split; [reflexivity|]. split; [lia|].
  replace (total_images - 1 + 1) with total_images by lia.
  rewrite Hfull. reflexivity.
Qed.

Lemma loop_progress_is_defined_witness :
  exists p,
    loop_progress 1 3 world_after_upload = (inr p, world_after_upload) /\
    30 <= p <= 90 /\
    loop_progress (3 - 1) 3 world_after_upload = (inr 90, world_after_upload).
Proof. apply (loop_progress_is_defined 1 3 world_after_upload). lia. Defined.

(** ** A PDF job whose stages succeed *)

(** The stages for one image succeed: the detector answers with a
    verdict that has the key is_chart and, for a chart, the OCR returns,
    the chart type is a string and the inference returns. *)
Definition image_ok (svc : Services) (content : PdfContent) (img : ImgInfo) : Prop :=
  exists detection is_chart,
    detect_chart svc (image_path img) = inr detection /\
    detection !! "is_chart" = Some is_chart /\
    (truthy is_chart = true ->
     exists ocr_result ty inference,
       extract_chart_text svc (image_path img) = inr ocr_result /\
       detection !! "chart_type" = Some (VStr ty) /\
       generate_inference svc (image_path img) (VStr ty) ocr_result
         (substring 0 2000 (pc_text content)) = inr inference).

Lemma loop_progress_ok (idx total_images : Z) (w : World) :
  0 <= idx < total_images -> exists p, loop_progress idx total_images w = (inr p, w).
Proof.
  intros Hidx.
  destruct (fraction60_defined (idx + 1) total_images ltac:(lia)) as [v Hv].
  unfold fraction60 in Hv. exists (30 + v).
  unfold loop_progress, int_of_float, bind, ret. by rewrite Hv.
Qed.

Lemma process_pdf_image_ok (svc : Services) (task_id : string) (content : PdfContent)
    (total_images idx : Z) (img : ImgInfo) (acc : list ImageExtraction) (w : World) :
  has_task task_id w -> 0 <= idx < total_images -> image_ok svc content img ->
  exists acc' w',
    process_pdf_image svc task_id content total_images idx img acc w = (inr acc', w') /\
    has_task task_id w' /\ length acc' = S (length acc).
Proof.
  intros Ht Hidx (detection & is_chart & Hdet & Hic & Hchart).
  unfold process_pdf_image. cbv zeta.
  rewrite Hdet. unfold lift at 1.
  rewrite (bind_ok _ _ w w detection) by reflexivity.
  unfold getitem at 1. rewrite Hic.
  rewrite (bind_ok _ _ w w is_chart) by reflexivity.
  match goal with
  | |- exists _ _, bind ?c _ _ = _ /\ _ =>
      assert (Hbranch : exists exts w1, c w = (inr exts, w1) /\ has_task task_id w1 /\
                                        length exts = S (length acc))
  end.
  { destruct (truthy is_chart) eqn:Htr.
    - destruct (Hchart eq_refl) as (ocr_result & ty & inference & Hocr & Hct & Hinf).
      destruct (set_message_ok task_id
                  ("Analyzing chart " +:+ str_of_Z (idx + 1) +:+ "/"
                   +:+ str_of_Z total_images +:+ "...") w Ht) as (wa & Ha & Hta & _).
      eexists _, wa. split; [|split; [exact Hta|]].
      + rewrite (bind_ok _ _ _ _ _ Ha). rewrite Hocr. unfold lift at 1.
        rewrite (bind_ok _ _ wa wa ocr_result) by reflexivity.
        unfold getitem at 1. rewrite Hct.
        rewrite (bind_ok _ _ wa wa (VStr ty)) by reflexivity.
        rewrite four_positionals_bind, Hinf. unfold lift at 1.
        rewrite (bind_ok _ _ wa wa inference) by reflexivity.
        unfold getitem at 1. rewrite Hct.
        rewrite (bind_ok _ _ wa wa (VStr ty)) by reflexivity.
        rewrite (bind_ok _ _ wa wa ty) by reflexivity.
        reflexivity.
      + rewrite length_app. simpl. lia.
    - eexists _, w. split; [reflexivity|]. split; [exact Ht|].
      rewrite length_app. simpl. lia. }
  destruct Hbranch as (exts & w1 & Hb & Ht1 & Hlen).
  rewrite (bind_ok _ _ _ _ _ Hb).
  destruct (loop_progress_ok idx total_images w1 Hidx) as [p Hp].
  rewrite (bind_ok _ _ _ _ _ Hp).
  destruct (set_progress_ok task_id p w1 Ht1) as (w2 & H2 & Ht2 & _).
  rewrite (bind_ok _ _ _ _ _ H2).
  exists exts, w2. split; [reflexivity|]. split; [exact Ht2 | exact Hlen].
Qed.

Lemma process_pdf_images_ok (svc : Services) (task_id : string) (content : PdfContent)
    (total_images : Z) (imgs : list ImgInfo) :
  forall idx acc w,
    has_task task_id w -> 0 <= idx -> idx + Z.of_nat (length imgs) <= total_images ->
    Forall (image_ok svc content) imgs ->
    exists res w',
      process_pdf_images svc task_id content total_images idx imgs acc w = (inr res, w') /\
      has_task task_id w' /\ length res = (length acc + length imgs)%nat.
Proof.
  induction imgs as [|img imgs IH]; intros idx acc w Ht Hidx Htot Hall; simpl.
  - exists acc, w. split; [reflexivity|]. split; [exact Ht | lia].
  - inversion Hall as [|? ? Himg Hrest]; subst. simpl length in Htot.
    destruct (process_pdf_image_ok svc task_id content total_images idx img acc w Ht
                ltac:(lia) Himg) as (acc1 & w1 & H1 & Ht1 & Hlen1).
    rewrite (bind_ok _ _ _ _ _ H1).
    destruct (IH (idx + 1) acc1 w1 Ht1 ltac:(lia) ltac:(lia) Hrest)
      as (res & w' & H & Ht' & Hlen).
    exists res, w'. split; [exact H|]. split; [exact Ht'|]. lia.
Qed.

(** X19. A PDF job completes whenever its stages succeed: if the task is
    in the table, [extract_pdf] returns, the stages of every image
    succeed and the saving succeeds, then [process_pdf] ends with the
    status "completed" and one extraction per image; no step of its own
    (the lookups in the verdict, the call of the inference, the
    validation of the type, the progress arithmetic) can make it fail,
    whatever the number of images, none included. *)
Theorem pdf_job_completes
    (svc : Services) (task_id file_path filename : string) (w : World)
    (content : PdfContent) :
  has_task task_id w ->
  extract_pdf svc file_path = inr content ->
  Forall (image_ok svc content) (pc_images content) ->
  (forall res, exists saved_id, save_result svc res = inr saved_id) ->
  exists w' res saved_id,
    process_pdf svc task_id file_path filename w = (inr tt, w') /\
    processing_status w' !! task_id = Some (completed res saved_id) /\
    save_result svc res = inr saved_id /\
    length (extractions res) = length (pc_images content).
Proof.
  intros Ht Hex Hall Hsave.
  unfold process_pdf, try_except, process_pdf_body. cbv zeta.
  destruct (set_message_ok task_id "Extracting text and images from PDF..." w Ht)
    as (wa & Ha & Hta & _).
  rewrite (bind_ok _ _ _ _ _ Ha).
  destruct (set_progress_ok task_id 10 wa Hta) as (wb & Hb & Htb & _).
  rewrite (bind_ok _ _ _ _ _ Hb).
  rewrite Hex. unfold lift at 1.
  rewrite (bind_ok _ _ wb wb content) by reflexivity.
  destruct (set_progress_ok task_id 30 wb Htb) as (wc & Hc & Htc & _).
  rewrite (bind_ok _ _ _ _ _ Hc).
  destruct (set_message_ok task_id
              ("Found " +:+ str_of_nat (length (pc_images content))
               +:+ " images, analyzing...") wc Htc) as (wd & Hd & Htd & _).
  rewrite (bind_ok _ _ _ _ _ Hd).
  destruct (process_pdf_images_ok svc task_id content
              (Z.of_nat (length (pc_images content))) (pc_images content) 0 [] wd Htd
              ltac:(lia) ltac:(lia) Hall) as (exts & we & He & Hte & Hlen).
  rewrite (bind_ok _ _ _ _ _ He).
  destruct (set_message_ok task_id "Saving results..." we Hte) as (wf & Hf & Htf & _).
  rewrite (bind_ok _ _ _ _ _ Hf).
  destruct (set_progress_ok task_id 95 wf Htf) as (wg & Hg & Htg & _).
  rewrite (bind_ok _ _ _ _ _ Hg).
  match goal with
  | |- context [save_result svc ?r] => destruct (Hsave r) as [saved_id Hid]; rewrite Hid
  end.
  unfold lift. rewrite (bind_ok _ _ wg wg saved_id) by reflexivity.
  unfold set_status. eexists _, _, saved_id. split; [reflexivity|]. simpl.
  split; [apply lookup_insert_eq|]. split; [exact Hid | exact Hlen].
Qed.

Lemma pdf_job_completes_witness :
  exists content,
    two_image_pdf "report.pdf" = inr content /\
    exists w' res saved_id,
      process_pdf two_image_services "t1" "report.pdf" "report.pdf" world_after_upload
      = (inr tt, w') /\
      processing_status w' !! "t1" = Some (completed res saved_id) /\
      save_result two_image_services res = inr saved_id /\
      length (extractions res) = length (pc_images content).
Proof.
  eexists. split; [reflexivity|].
  eapply (pdf_job_completes two_image_services "t1" "report.pdf" "report.pdf"
            world_after_upload).
  - unfold has_task. vm_compute. eauto.
  - reflexivity.
  - repeat constructor.
    + exists table_verdict, (VBool true). split; [reflexivity|]. split; [reflexivity|].
      intros _. eexists _, "table", _. split; [reflexivity|]. split; reflexivity.
    + exists (ChartDetector.analysis false "image" lit_0_3), (VBool false).
      split; [reflexivity|]. split; [reflexivity|]. discriminate.
  - intros res. eexists. reflexivity.
Defined.

End RouterMore.

(* ===================================================================== *)
(** * File names and uploads *)
(* ===================================================================== *)

Section FileNames.
Import PyStr InferenceService FileUtils.

Lemma split_chars_no_sep (c : ascii) (l : list ascii) :
  forall cur, ~ In c l -> split_chars c cur l = [rev cur ++ l].
Proof.
  induction l as [|d l IH]; intros cur Hc; simpl.
  - by rewrite app_nil_r.
  - destruct (Ascii.eqb_spec d c) as [->|Hd]; [destruct Hc; by left|].
    rewrite IH by (intros H; apply Hc; by right).
    simpl. by rewrite <- app_assoc.
Qed.

Lemma split_chars_app (c : ascii) (a b : list ascii) :
  forall cur,
    split_chars c cur (a ++ c :: b) = split_chars c cur a ++ split_chars c [] b.
Proof.
  induction a as [|d a IH]; intros cur; simpl.
  - by rewrite Ascii.eqb_refl.
  - destruct (Ascii.eqb d c); simpl; by rewrite IH.
Qed.

Lemma split_chars_pieces_no_sep (c : ascii) (l : list ascii) :
  forall cur piece, ~ In c cur -> In piece (split_chars c cur l) -> ~ In c piece.
Proof.
  induction l as [|d l IH]; intros cur piece Hcur Hp; simpl in Hp.
  - destruct Hp as [<-|[]]. by rewrite <- in_rev.
  - destruct (Ascii.eqb_spec d c) as [->|Hd].
    + destruct Hp as [<-|Hp]; [by rewrite <- in_rev|].
      apply (IH [] piece); [intros [] | exact Hp].
    + apply (IH (d :: cur) piece); [|exact Hp]. intros [H|H]; [by apply Hd | by apply Hcur].
Qed.

Lemma path_name_no_slash (path : list ascii) : ~ In "/"%char (path_name path).
Proof.
  unfold path_name, components.
  destruct (last (List.filter is_component (split_chars "/" [] path))) as [n|] eqn:E;
    simpl; [|intros []].
  apply last_Some in E as [l' E].
  assert (Hin : In n (List.filter is_component (split_chars "/" [] path))).
  { rewrite E. apply in_or_app. right. by left. }
  apply filter_In in Hin as [Hin _].
  apply (split_chars_pieces_no_sep "/" path [] n); [intros [] | exact Hin].
Qed.

(** The name of a path that ends with a proper component. *)
Lemma path_name_join (dir name : list ascii) :
  ~ In "/"%char name -> is_component name = true ->
  path_name (dir ++ "/"%char :: name) = name.
Proof.
  intros Hs Hc. unfold path_name, components.
  rewrite split_chars_app, (split_chars_no_sep "/" name [] Hs). simpl.
  rewrite List.filter_app. simpl. rewrite Hc. by rewrite last_snoc.
Qed.

Lemma path_name_single (name : list ascii) :
  ~ In "/"%char name -> is_component name = true -> path_name name = name.
Proof.
  intros Hs Hc. unfold path_name, components.
  rewrite (split_chars_no_sep "/" name [] Hs). simpl. by rewrite Hc.
Qed.

Lemma rfind_None (c : ascii) (l : list ascii) : rfind c l = None <-> ~ In c l.
Proof.
  induction l as [|d l IH]; simpl; [tauto|].
  destruct (rfind c l) as [i|].
  - split; [discriminate|]. intros H. exfalso.
    assert (Hn : ~ In c l) by tauto. apply IH in Hn. discriminate.
  - destruct (Ascii.eqb_spec d c) as [->|Hd].
    + split; [discriminate | tauto].
    + split; [|done]. intros _ [H|H]; [done|]. by apply (proj1 IH).
Qed.

Lemma rfind_Some (c : ascii) (l : list ascii) (i : nat) :
  rfind c l = Some i ->
  exists pre post, l = pre ++ c :: post /\ length pre = i /\ ~ In c post.
Proof.
  revert i. induction l as [|d l IH]; intros i; simpl; [discriminate|].
  destruct (rfind c l) as [j|] eqn:E.
  - intros [= <-]. destruct (IH j eq_refl) as (pre & post & -> & <- & Hpost).
    exists (d :: pre), post. done.
  - destruct (Ascii.eqb_spec d c) as [->|Hd]; [|discriminate].
    intros [= <-]. exists [], l. split; [done|]. split; [done|]. by apply rfind_None.
Qed.

Lemma rfind_last (c : ascii) (pre post : list ascii) :
  ~ In c post -> rfind c (pre ++ c :: post) = Some (length pre).
Proof.
  intros Hpost. induction pre as [|d pre IH]; simpl.
  - apply rfind_None in Hpost. by rewrite Hpost, Ascii.eqb_refl.
  - by rewrite IH.
Qed.

(** A suffix is empty, or a dot followed by characters that are not
    dots, and then something stands before it in the name. *)
Lemma suffix_of_name_shape (name : list ascii) :
  suffix_of_name name = [] \/
  exists pre rest,
    name = pre ++ "."%char :: rest /\ pre <> [] /\ rest <> [] /\
    ~ In "."%char rest /\ suffix_of_name name = "."%char :: rest.
Proof.
  unfold suffix_of_name. destruct (rfind "." name) as [i|] eqn:E; [|by left].
  destruct (rfind_Some _ _ _ E) as (pre & post & -> & <- & Hpost).
  destruct ((0 <? length pre) && (length pre + 1 <? length (pre ++ "."%char :: post)))%nat
    eqn:Hc; [|by left].
  right. apply andb_true_iff in Hc as [H0 H1].
  apply Nat.ltb_lt in H0, H1. rewrite length_app in H1. simpl in H1.
  exists pre, post. split; [done|].
  split; [by destruct pre; simpl in *; [lia|]|].
  split; [by destruct post; simpl in *; [lia|]|].
  split; [exact Hpost|]. by rewrite drop_app_length.
Qed.

Lemma suffix_of_name_append (hex name : list ascii) :
  hex <> [] -> ~ In "."%char hex ->
  suffix_of_name (hex ++ suffix_of_name name) = suffix_of_name name.
Proof.
  intros Hne Hdot.
  destruct (suffix_of_name_shape name) as [->|(pre & rest & _ & _ & Hrest & Hnd & ->)].
  - rewrite app_nil_r. unfold suffix_of_name.
    apply rfind_None in Hdot. by rewrite Hdot.
  - unfold suffix_of_name. rewrite (rfind_last "." hex rest Hnd).
    assert (H0 : (0 <? length hex)%nat = true)
      by (apply Nat.ltb_lt; destruct hex; simpl; [done | lia]).
    assert (H1 : (length hex + 1 <? length (hex ++ "."%char :: rest))%nat = true).
    { apply Nat.ltb_lt. rewrite length_app. simpl. destruct rest; simpl; [done | lia]. }
    rewrite H0, H1. simpl. by rewrite drop_app_length.
Qed.

Lemma suffix_of_name_no_slash (name : list ascii) :
  ~ In "/"%char name -> ~ In "/"%char (suffix_of_name name).
Proof.
  intros Hs. destruct (suffix_of_name_shape name) as [->|(pre & rest & -> & _ & _ & _ & ->)].
  - intros [].
  - intros H. apply Hs. apply in_or_app. by right.
Qed.

Lemma unique_name_is_component (hex sfx : list ascii) :
  hex <> [] -> ~ In "."%char hex -> is_component (hex ++ sfx) = true.
Proof.
  intros Hne Hdot. destruct hex as [|h hex]; [done|]. simpl.
  destruct (hex ++ sfx); [|reflexivity].
  destruct (Ascii.eqb_spec h "."%char) as [->|]; [|reflexivity].
  destruct Hdot. by left.
Qed.

Lemma suffix_unique_and_stored (upload_dir hex original_filename : string) :
  hex <> EmptyString -> ~ In "."%char (chars hex) -> ~ In "/"%char (chars hex) ->
  suffix (generate_unique_filename hex original_filename) = suffix original_filename /\
  suffix (upload_file_path upload_dir hex original_filename) = suffix original_filename.
Proof.
  intros Hne Hdot Hslash.
  assert (Hne' : chars hex <> []) by (destruct hex; [done | discriminate]).
  set (sfx := suffix_of_name (path_name (chars original_filename))).
  assert (Hs : ~ In "/"%char (chars hex ++ sfx)).
  { intros H. apply in_app_or in H as [H|H]; [done|].
    revert H. apply suffix_of_name_no_slash, path_name_no_slash. }
  assert (Hc : is_component (chars hex ++ sfx) = true)
    by (by apply unique_name_is_component).
  split.
  - unfold suffix, generate_unique_filename, suffix.
    rewrite chars_append, chars_of_chars. fold sfx.
    rewrite (path_name_single _ Hs Hc). unfold sfx.
    by rewrite suffix_of_name_append.
  - unfold upload_file_path, joinpath, generate_unique_filename, suffix.
    rewrite !chars_append, chars_of_chars. fold sfx.
    change (chars "/") with ["/"%char]. simpl app.
    rewrite (path_name_join _ _ Hs Hc). unfold sfx.
    by rewrite suffix_of_name_append.
Qed.

(** X20. The name under which an upload is stored keeps the extension of
    the original name: with an identifier that is not empty and holds no
    dot and no slash (as [uuid4().hex] is), the suffix of the unique file
    name, and of the path returned by [save_upload_file], is the suffix
    of the original name; so the stored file is allowed exactly when the
    original is. *)
Theorem unique_filename_keeps_suffix (upload_dir hex original_filename : string) :
  hex <> EmptyString -> ~ In "."%char (chars hex) -> ~ In "/"%char (chars hex) ->
  suffix (generate_unique_filename hex original_filename) = suffix original_filename /\
  suffix (upload_file_path upload_dir hex original_filename) = suffix original_filename /\
  is_allowed_file (upload_file_path upload_dir hex original_filename)
  = is_allowed_file original_filename.
Proof.
  intros Hne Hdot Hslash.
  destruct (suffix_unique_and_stored upload_dir hex original_filename Hne Hdot Hslash)
    as [H1 H2].
  split; [exact H1|]. split; [exact H2|]. unfold is_allowed_file. by rewrite H2.
Qed.

Lemma unique_filename_keeps_suffix_witness :
  suffix (generate_unique_filename "0123abcd" "Q3 report.PDF") = suffix "Q3 report.PDF" /\
  suffix (upload_file_path "/srv/uploads" "0123abcd" "Q3 report.PDF")
  = suffix "Q3 report.PDF" /\
  is_allowed_file (upload_file_path "/srv/uploads" "0123abcd" "Q3 report.PDF")
  = is_allowed_file "Q3 report.PDF".
Proof.
  apply (unique_filename_keeps_suffix "/srv/uploads" "0123abcd" "Q3 report.PDF").
  - discriminate.
  - vm_compute. intuition discriminate.
  - vm_compute. intuition discriminate.
Defined.

End FileNames.

Section Uploads.
Import PyStr Py Router FileUtils Endpoints.

(** Either upload endpoint. *)
Definition upload (pdf : bool) : UploadEnv -> option string -> World
                                 -> (Failure + Accepted) * World :=
  if pdf then upload_pdf else upload_image.

(** An environment in which the file is written. *)
Definition example_env : UploadEnv :=
  {| upload_dir := "/srv/uploads"; images_dir := "/srv/output/images";
     write_file := fun _ => inr tt;
     file_hex := "0123abcd"; task_hex := "89ef4567" |}.

Definition empty_world : World := {| processing_status := ∅; progress_log := [] |}.

Lemma member_image_allowed (x : string) :
  member x IMAGE_EXTENSIONS = true -> member x ALLOWED_EXTENSIONS = true.
Proof.
  unfold member, IMAGE_EXTENSIONS, ALLOWED_EXTENSIONS. simpl.
  intros H. rewrite H. apply orb_true_r.
Qed.

(** X21. Whatever [upload_image] accepts, [upload_pdf] accepts too: the
    PDF endpoint, whose refusal reads "Only PDF files are allowed", lets
    every file with an image extension through, stores it the same way
    and schedules [process_pdf] on it under the same task identifier. *)
Theorem pdf_upload_accepts_images
    (env : UploadEnv) (filename : option string) (w w1 : World) (a : Accepted) :
  upload_image env filename w = (inr a, w1) ->
  exists a' w1' file_path fn,
    upload_pdf env filename w = (inr a', w1') /\
    filename = Some fn /\
    acc_task a = ProcessImage (acc_task_id a) file_path fn /\
    acc_task a' = ProcessPdf (acc_task_id a) file_path fn /\
    acc_task_id a' = acc_task_id a.
Proof.
  unfold upload_image, upload_pdf, is_allowed_file.
  destruct filename as [[|c fn]|]; try discriminate.
  destruct (member (lower_str (suffix (String c fn))) IMAGE_EXTENSIONS) eqn:Hm;
    [|discriminate].
  rewrite (member_image_allowed _ Hm). simpl negb. cbv iota.
  destruct (save_upload_file env (String c fn)) as [e|file_path]; [discriminate|].
  unfold accept. intros [= <- <-]. simpl. eauto 10.
Qed.

Lemma pdf_upload_accepts_images_witness :
  exists a w1 a' w1' file_path fn,
    upload_image example_env (Some "photo.PNG") empty_world = (inr a, w1) /\
    upload_pdf example_env (Some "photo.PNG") empty_world = (inr a', w1') /\
    Some "photo.PNG" = Some fn /\
    acc_task a = ProcessImage (acc_task_id a) file_path fn /\
    acc_task a' = ProcessPdf (acc_task_id a) file_path fn /\
    acc_task_id a' = acc_task_id a.
Proof.
  eexists _, _. 
  assert (H : upload_image example_env (Some "photo.PNG") empty_world
              = (inr {| acc_task_id := "89ef4567";
                        acc_message := "Image uploaded successfully, processing started";
                        acc_task := ProcessImage "89ef4567" "/srv/uploads/0123abcd.PNG"
                                                 "photo.PNG" |},
                 snd (set_status "89ef4567"
                        (submitted "Image uploaded, starting analysis...") empty_world)))
    by (vm_compute; reflexivity).
  destruct (pdf_upload_accepts_images example_env (Some "photo.PNG") empty_world _ _ H)
    as (a' & w1' & file_path & fn & H1 & H2 & H3 & H4 & H5).
  exists a', w1', file_path, fn. split; [exact H|]. done.
Defined.

(** ** From the upload to the final status *)

Lemma job_task_final (svc : Services) (j : Job) (task_id file_path filename : string)
    (w : World) :
  exists w' entry,
    job_task svc j task_id file_path filename w = (inr tt, w') /\
    processing_status w' !! task_id = Some entry /\
    (status entry = "completed" \/ status entry = "failed").
Proof.
  assert (Htask : job_task svc j task_id file_path filename
                  = try_except (job_body svc j task_id file_path filename)
                               (fun e => set_status task_id (failed e)))
    by (by destruct j).
  rewrite Htask. unfold try_except.
  destruct (job_body svc j task_id file_path filename w) as [[e|[]] w1] eqn:Hbody.
  - eexists _, (failed e). split; [reflexivity|]. split; [apply lookup_insert_eq|].
    by right.
  - destruct (job_body_ends_completed svc j task_id file_path filename _ _ Hbody)
      as (res & saved_id & Hentry & _).
    exists w1, (completed res saved_id). split; [reflexivity|]. split; [exact Hentry|].
    by left.
Qed.

Lemma upload_accepted (pdf : bool) (env : UploadEnv) (filename : option string)
    (w w1 : World) (a : Accepted) :
  upload pdf env filename w = (inr a, w1) ->
  exists fn file_path msg,
    filename = Some fn /\
    save_upload_file env fn = inr file_path /\
    acc_task_id a = task_hex env /\
    acc_task a = (if pdf then ProcessPdf else ProcessImage) (task_hex env) file_path fn /\
    w1 = snd (set_status (task_hex env) (submitted msg) w).
Proof.
  unfold upload. destruct pdf; unfold upload_pdf, upload_image;
    (destruct filename as [[|c fn]|]; try discriminate);
    match goal with |- context [negb ?b] => destruct b; simpl negb; cbv iota end;
    try discriminate;
    (destruct (save_upload_file env (String c fn)) as [e|file_path] eqn:Hsave;
     [discriminate|]);
    unfold accept; intros [= <- <-]; simpl; eauto 10.
Qed.

(** X22. An upload that is refused or that fails leaves the status table
    as it was.  An upload that is accepted files its task as
    "processing" with progress 0 and no result, under the identifier it
    answers with, and schedules the task under that same identifier; so
    polling the identifier does not answer 404, and once the scheduled
    task has run, from whatever the table has become in the meantime, the
    status under the identifier is "completed" or "failed". *)
Theorem accepted_upload_is_tracked
    (svc : Services) (pdf : bool) (env : UploadEnv) (filename : option string)
    (w : World) :
  match upload pdf env filename w with
  | (inl _, w1) => w1 = w
  | (inr a, w1) =>
      (exists entry,
          get_processing_status (acc_task_id a) w1 = inr entry /\
          status entry = "processing" /\ progress entry = 0 /\ result entry = None) /\
      (forall w_later, exists w2 entry,
          run_task svc (acc_task a) w_later = (inr tt, w2) /\
          get_processing_status (acc_task_id a) w2 = inr entry /\
          (status entry = "completed" \/ status entry = "failed"))
  end.
Proof.
  destruct (upload pdf env filename w) as [[f|a] w1] eqn:Hup.
  - unfold upload in Hup. destruct pdf; unfold upload_pdf, upload_image in Hup;
      (destruct filename as [[|c fn]|]; try (by injection Hup));
      match type of Hup with context [negb ?b] => destruct b; simpl negb in Hup;
                                                  cbv iota in Hup end;
      try (by injection Hup);
      (destruct (save_upload_file env (String c fn)) as [e|file_path];
       [by injection Hup | discriminate]).
  - destruct (upload_accepted _ _ _ _ _ _ Hup) as (fn & fp & msg & -> & _ & Hid & Ht & ->).
    rewrite Hid, Ht. split.
    + exists (submitted msg). unfold get_processing_status, set_status. simpl.
      by rewrite lookup_insert_eq.
    + intros w_later.
      destruct (job_task_final svc (if pdf then PdfJob else ImageJob) (task_hex env) fp fn
                  w_later) as (w2 & entry & Hrun & Hentry & Hfinal).
      exists w2, entry. split; [by destruct pdf|]. split; [|exact Hfinal].
      unfold get_processing_status. by rewrite Hentry.
Qed.

(** ** Serving an uploaded image *)

Definition PROBED_EXTENSIONS : list string := ["png"; "jpg"; "jpeg"; "gif"; "bmp"].

Lemma lower_dot (c : ascii) : lower c = "."%char -> c = "."%char.
Proof.
  destruct c as [[] [] [] [] [] [] [] []]; vm_compute; intros H; try discriminate H;
    reflexivity.
Qed.

Lemma append_inj_l (a b c : string) : a +:+ b = a +:+ c -> b = c.
Proof. induction a as [|x a IH]; simpl; [done|]. intros [= H]. by apply IH. Qed.

Lemma lower_str_cons (c : ascii) (s : string) :
  lower_str (String c s) = String (lower c) (lower_str s).
Proof. reflexivity. Qed.

Lemma find_the_only {A} (f : A -> bool) (t : A) (l : list A) :
  (forall p, f p = true <-> p = t) ->
  (In t l -> List.find f l = Some t) /\ (~ In t l -> List.find f l = None).
Proof.
  intros Hf. induction l as [|x l [IH1 IH2]]; simpl.
  - split; [intros [] | reflexivity].
  - destruct (f x) eqn:Hx.
    + apply Hf in Hx as ->. split; [reflexivity | tauto].
    + assert (x <> t)
        by (intros ->; rewrite (proj2 (Hf t) eq_refl) in Hx; discriminate).
      split; [intros [?|?]; [done | by apply IH1] | intros ?; apply IH2; tauto].
Qed.

Lemma lstrip_skip (sp : ascii -> bool) (c : ascii) (l : list ascii) :
  sp c = true -> lstrip_chars sp (c :: l) = lstrip_chars sp l.
Proof. intros H. simpl. by rewrite H. Qed.

Lemma lstrip_stop (sp : ascii -> bool) (c : ascii) (l : list ascii) :
  sp c = false -> lstrip_chars sp (c :: l) = c :: l.
Proof. intros H. simpl. by rewrite H. Qed.

(** The suffix of a name that [upload_image] accepts. *)
Lemma accepted_image_suffix (sfx : string) :
  member (lower_str sfx) IMAGE_EXTENSIONS = true ->
  exists rest,
    sfx = String "." rest /\ In (lower_str rest) PROBED_EXTENSIONS /\
    lstrip_chars (fun c => Ascii.eqb c ".") (chars sfx) = chars rest.
Proof.
  unfold member. intros H. apply existsb_exists in H as (x & Hx & He).
  apply String.eqb_eq in He. rewrite <- He in Hx. clear He x.
  destruct sfx as [|c rest]; [simpl in Hx; intuition discriminate|].
  rewrite lower_str_cons in Hx.
  assert (Hc : lower c = "."%char /\ In (lower_str rest) PROBED_EXTENSIONS).
  { simpl in Hx. destruct Hx as [Hx|[Hx|[Hx|[Hx|[Hx|[]]]]]];
      injection Hx as <- <-; (split; [reflexivity|]); simpl; tauto. }
  destruct Hc as [Hc Hrest]. apply lower_dot in Hc as ->.
  exists rest. split; [reflexivity|]. split; [exact Hrest|].
  change (chars (String "." rest)) with ("."%char :: chars rest).
  rewrite lstrip_skip by reflexivity.
  destruct rest as [|d rest]; [reflexivity|].
  change (chars (String d rest)) with (d :: chars rest).
  apply lstrip_stop. destruct (Ascii.eqb_spec d "."%char) as [->|]; [|reflexivity].
  exfalso. rewrite lower_str_cons in Hrest.
  simpl in Hrest. destruct Hrest as [H|[H|[H|[H|[H|[]]]]]]; discriminate H.
Qed.

(** X23. An image upload is served by [get_image] only if its extension
    was written in lower case.  For an upload that [upload_image]
    accepted, [process_image] stores the copy under the image identifier
    followed by the extension as the client wrote it, while [get_image]
    probes the five extensions in lower case only: on a file system that
    tells names by case and holds the stored copy, [get_image] finds it
    when the extension is in lower case and answers 404 otherwise. *)
Theorem stored_upload_is_served_iff_lower_case
    (env : UploadEnv) (filename image_id : string) (w w1 : World) (a : Accepted)
    (exists_ : string -> bool) :
  upload_image env (Some filename) w = (inr a, w1) ->
  file_hex env <> EmptyString ->
  ~ In "."%char (chars (file_hex env)) -> ~ In "/"%char (chars (file_hex env)) ->
  let file_path := upload_file_path (upload_dir env) (file_hex env) filename in
  let target := image_target (images_dir env) file_path image_id in
  (forall p, exists_ p = true <-> p = target) ->
  acc_task a = ProcessImage (acc_task_id a) file_path filename /\
  get_image (images_dir env) exists_ image_id
  = if decide (suffix filename = lower_str (suffix filename))
    then inr target
    else inl {| status_code := 404; detail := "Image not found" |}.
Proof.
  intros Hup Hne Hdot Hslash file_path target Hfs.
  assert (Hacc : member (lower_str (suffix filename)) IMAGE_EXTENSIONS = true /\
                 acc_task a = ProcessImage (acc_task_id a) file_path filename).
  { unfold upload_image in Hup. destruct filename as [|c fn]; [discriminate|].
    destruct (member (lower_str (suffix (String c fn))) IMAGE_EXTENSIONS);
      [|discriminate]. split; [reflexivity|].
    simpl negb in Hup. cbv iota in Hup. unfold save_upload_file in Hup.
    fold file_path in Hup. destruct (write_file env file_path); [discriminate|].
    unfold accept in Hup. by injection Hup as <- _. }
  destruct Hacc as [Hm Htask]. split; [exact Htask|].
  destruct (suffix_unique_and_stored (upload_dir env) (file_hex env) filename
              Hne Hdot Hslash) as [_ Hsfx].
  fold file_path in Hsfx.
  destruct (accepted_image_suffix _ Hm) as (rest & Hrest & Hin & Hstrip).
  assert (Htarget : target = joinpath (images_dir env) (image_id +:+ "." +:+ rest)).
  { unfold target, image_target. cbv zeta. rewrite Hsfx, Hstrip.
    by rewrite of_chars_chars. }
  unfold get_image.
  destruct (find_the_only exists_ target
              (map (fun ext => joinpath (images_dir env) (image_id +:+ "." +:+ ext))
                   PROBED_EXTENSIONS) Hfs) as [Hfound Hnone].
  assert (Hiff : In target
                   (map (fun ext => joinpath (images_dir env) (image_id +:+ "." +:+ ext))
                        PROBED_EXTENSIONS)
                 <-> suffix filename = lower_str (suffix filename)).
  { rewrite Hrest, lower_str_cons. change (lower ".") with "."%char. split.
    - intros H. apply in_map_iff in H as (e & He & Hine). rewrite Htarget in He.
      unfold joinpath in He. apply append_inj_l, append_inj_l, append_inj_l in He.
      apply append_inj_l in He. subst e. f_equal.
      simpl in Hine. destruct Hine as [<-|[<-|[<-|[<-|[<-|[]]]]]]; reflexivity.
    - intros [= H]. rewrite <- H in Hin. rewrite Htarget.
      apply in_map_iff. exists rest. done. }
  change ["png"; "jpg"; "jpeg"; "gif"; "bmp"] with PROBED_EXTENSIONS.
  case_decide as Hlow.
  - by rewrite (Hfound (proj2 Hiff Hlow)).
  - rewrite Hnone; [reflexivity|]. intros H. by apply Hlow, Hiff.
Qed.

Lemma stored_upload_is_served_iff_lower_case_witness :
  exists a w1,
    upload_image example_env (Some "photo.PNG") empty_world = (inr a, w1) /\
    acc_task a = ProcessImage (acc_task_id a) "/srv/uploads/0123abcd.PNG" "photo.PNG" /\
    get_image "/srv/output/images"
      (String.eqb "/srv/output/images/77aa.PNG") "77aa"
    = inl {| status_code := 404; detail := "Image not found" |}.
Proof.
  eexists _, _.
  assert (H : upload_image example_env (Some "photo.PNG") empty_world
              = (inr {| acc_task_id := "89ef4567";
                        acc_message := "Image uploaded successfully, processing started";
                        acc_task := ProcessImage "89ef4567" "/srv/uploads/0123abcd.PNG"
                                                 "photo.PNG" |},
                 snd (set_status "89ef4567"
                        (submitted "Image uploaded, starting analysis...") empty_world)))
    by (vm_compute; reflexivity).
  split; [exact H|].
  destruct (stored_upload_is_served_iff_lower_case example_env "photo.PNG" "77aa"
              empty_world _ _ (String.eqb "/srv/output/images/77aa.PNG") H)
    as [H1 H2].
  - discriminate.
  - vm_compute. intuition discriminate.
  - vm_compute. intuition discriminate.
  - intros p. rewrite String.eqb_eq. vm_compute. split; congruence.
  - split; [exact H1|]. etransitivity; [exact H2|]. vm_compute. reflexivity.
Defined.

End Uploads.

(* ===================================================================== *)
(** * The results file *)
(* ===================================================================== *)

Section StorageFacts.
Import PyStr Py JSONStorage.

Context {Result : Type}.
Context {Time : Type}.
Variable strftime : Time -> string.
Variable isoformat : Time -> string.

(** The entry that [save_extraction] appends. *)
Definition saved_entry (now_id now_saved : Time) (result : Result) : Extraction :=
  {| ex_extraction_id := Some ("extraction_" +:+ strftime now_id);
     ex_saved_at := Some (isoformat now_saved);
     ex_result := result |}.

(** The storage once the singleton exists and the file holds [data]. *)
Definition holding (data : list (@Extraction Result)) : @Storage Result :=
  {| created := true; results_file := Data data |}.

(** Creating the singleton, when its write succeeds, changes nothing of
    what the file reads as. *)
Lemma storage_created (st : @Storage Result) :
  exists st',
    get_json_storage Written st = (inr tt, st') /\ created st' = true /\
    _read_data (results_file st') = _read_data (results_file st).
Proof.
  unfold get_json_storage. destruct st as [[] f]; simpl.
  - eexists. split; [reflexivity|]. done.
  - destruct f; simpl; eexists; (split; [reflexivity|]); done.
Qed.

(** A file that is there is left alone when the singleton is created. *)
Lemma storage_on_unreadable (wr_new : WriteOutcome) (st : @Storage Result) (e : exn) :
  results_file st = Unreadable e ->
  get_json_storage wr_new st = (inr tt, {| created := true; results_file := Unreadable e |}).
Proof.
  unfold get_json_storage. destruct st as [[] f]; simpl; intros ->; reflexivity.
Qed.

Lemma save_result_returns (now_id now_saved : Time) (result : Result)
    (st : @Storage Result) (before : list Extraction) :
  _read_data (results_file st) = inr before ->
  save_result strftime isoformat Written Written now_id now_saved result st
  = (inr ("extraction_" +:+ strftime now_id),
     holding (before ++ [saved_entry now_id now_saved result])).
Proof.
  intros Hread. unfold save_result.
  destruct (storage_created st) as (st' & -> & Hc & Hr).
  unfold save_extraction. rewrite Hr, Hread. simpl. by rewrite Hc.
Qed.

Lemma holding_get_all (wr_new : WriteOutcome) (data : list (@Extraction Result)) :
  get_all_results wr_new (holding data) = (inr data, holding data).
Proof. reflexivity. Qed.

Lemma holding_get_result (wr_new : WriteOutcome) (extraction_id : string)
    (data : list (@Extraction Result)) :
  get_result wr_new extraction_id (holding data)
  = (inr (List.find (has_id extraction_id) data), holding data).
Proof. reflexivity. Qed.

Lemma find_snoc {A} (p : A -> bool) (l : list A) (x : A) :
  p x = true -> List.find p (l ++ [x]) = Some (default x (List.find p l)).
Proof.
  intros Hx. induction l as [|y l IH]; simpl; [by rewrite Hx|].
  destruct (p y); [reflexivity | exact IH].
Qed.

(** X24. [save_result] on a results file that cannot be opened or
    decoded (bytes that are not UTF-8, say) raises the exception of the
    reading and leaves the file as it is.  On a file that can be read,
    where an absent file and text that is not JSON read as empty, and
    when the writes succeed, it returns the identifier made of the clock
    and appends: afterwards all results are the ones read before
    followed by the new entry, which carries the identifier and is the
    latest, and looking the identifier up gives the new entry, unless an
    entry read before bears the same identifier: then it gives that one.
    When the write of the new list raises, so does [save_result]. *)
Theorem saved_result_is_found_unless_id_taken
    (now_id now_saved : Time) (result : Result) (st : @Storage Result) :
  let entry := saved_entry now_id now_saved result in
  let extraction_id := "extraction_" +:+ strftime now_id in
  match _read_data (results_file st) with
  | inl e =>
      forall wr_new wr,
        save_result strftime isoformat wr_new wr now_id now_saved result st
        = (inl e, {| created := true; results_file := results_file st |})
  | inr before =>
      exists st1,
        save_result strftime isoformat Written Written now_id now_saved result st
        = (inr extraction_id, st1) /\
        ex_extraction_id entry = Some extraction_id /\
        (forall wr_new, get_all_results wr_new st1 = (inr (before ++ [entry]), st1)) /\
        get_latest_extraction (results_file st1) = inr (Some entry) /\
        (forall wr_new,
            get_result wr_new extraction_id st1
            = (inr (Some (default entry (List.find (has_id extraction_id) before))), st1)) /\
        (forall e remains,
            fst (save_result strftime isoformat Written (WriteFails e remains)
                   now_id now_saved result st) = inl e)
  end.
Proof.
  cbv zeta. destruct (_read_data (results_file st)) as [e|before] eqn:Hread.
  - intros wr_new wr.
    assert (Hf : results_file st = Unreadable e)
      by (destruct (results_file st); simpl in Hread; congruence).
    unfold save_result. rewrite (storage_on_unreadable wr_new st e Hf).
    unfold save_extraction. simpl. by rewrite Hf.
  - eexists. split; [by apply save_result_returns|]. split; [reflexivity|].
    split; [intros wr_new; apply holding_get_all|].
    split; [unfold get_latest_extraction; simpl; by rewrite last_snoc|].
    split.
    + intros wr_new. rewrite holding_get_result. f_equal. f_equal.
      apply find_snoc. unfold has_id. simpl. apply String.eqb_refl.
    + intros e remains. unfold save_result.
      destruct (storage_created st) as (st' & -> & Hc & Hr).
      unfold save_extraction. rewrite Hr, Hread. reflexivity.
Qed.

(** X25. The identifier is the second of the clock, so two results saved
    within one second get the same identifier, and the later one cannot
    be reached through it: on a results file that can be read and with
    writes that succeed, both savings return that identifier, and looking
    it up after the second saving gives what it gave after the first, an
    entry read before or the first result. *)
Theorem same_second_saves_collide
    (t1 t1' t2 t2' : Time) (r1 r2 : Result) (st : @Storage Result)
    (before : list Extraction) :
  strftime t1 = strftime t2 ->
  _read_data (results_file st) = inr before ->
  exists extraction_id st1 st2 found,
    save_result strftime isoformat Written Written t1 t1' r1 st = (inr extraction_id, st1) /\
    save_result strftime isoformat Written Written t2 t2' r2 st1 = (inr extraction_id, st2) /\
    get_result Written extraction_id st1 = (inr (Some found), st1) /\
    get_result Written extraction_id st2 = (inr (Some found), st2) /\
    (In found before \/ found = saved_entry t1 t1' r1).
Proof.
  intros Hsame Hread.
  set (e1 := saved_entry t1 t1' r1). set (e2 := saved_entry t2 t2' r2).
  set (p := @has_id Result ("extraction_" +:+ strftime t1)).
  assert (Hp1 : p e1 = true) by (unfold p, has_id; simpl; apply String.eqb_refl).
  assert (Hp2 : p e2 = true).
  { unfold p, has_id. simpl. rewrite <- Hsame. apply String.eqb_refl. }
  exists ("extraction_" +:+ strftime t1), (holding (before ++ [e1])),
    (holding ((before ++ [e1]) ++ [e2])), (default e1 (List.find p before)).
  split; [by apply save_result_returns|].
  split; [rewrite Hsame; by apply save_result_returns|].
  split; [rewrite holding_get_result; fold p; by rewrite (find_snoc p _ _ Hp1)|].
  split.
  - rewrite holding_get_result. fold p.
    by rewrite (find_snoc p _ _ Hp2), (find_snoc p _ _ Hp1).
  - destruct (List.find p before) as [old|] eqn:E; simpl.
    + left. by apply find_some in E as [E _].
    + by right.
Qed.

End StorageFacts.

(** Two results saved in the second 2026-01-01 00:00:00, on a file that
    is absent; the clock counts in milliseconds. *)
Lemma same_second_saves_collide_witness :
  let stamp := fun t : Z => PyStr.str_of_Z (20260101000000 + t / 1000) in
  let st := {| JSONStorage.created := false;
               JSONStorage.results_file := JSONStorage.Missing |} in
  exists extraction_id st1 st2 found,
    JSONStorage.save_result stamp PyStr.str_of_Z JSONStorage.Written JSONStorage.Written
      120 121 "first" st = (inr extraction_id, st1) /\
    JSONStorage.save_result stamp PyStr.str_of_Z JSONStorage.Written JSONStorage.Written
      870 871 "second" st1 = (inr extraction_id, st2) /\
    JSONStorage.get_result JSONStorage.Written extraction_id st1 = (inr (Some found), st1) /\
    JSONStorage.get_result JSONStorage.Written extraction_id st2 = (inr (Some found), st2) /\
    (In found [] \/ found = saved_entry stamp PyStr.str_of_Z 120 121 "first").
Proof.
  apply (same_second_saves_collide
           (fun t : Z => PyStr.str_of_Z (20260101000000 + t / 1000)) PyStr.str_of_Z
           120 121 870 871 "first" "second"
           {| JSONStorage.created := false;
              JSONStorage.results_file := JSONStorage.Missing |} []).
  - vm_compute. reflexivity.
  - reflexivity.
Defined.

(* ===================================================================== *)
(** * The images extracted from a PDF *)
(* ===================================================================== *)

Section ExtractorFacts.
Import PyStr Py Router FileUtils PDFExtractor.

Variable images_dir : string.
Variable uuid8 : nat -> nat -> string.

(** The images of a page that were extracted. *)
Definition extracted (page : Page) : list string :=
  match page_images page with
  | inr image_list =>
      omap (fun outcome => match outcome with inr ext => Some ext | inl _ => None end)
           image_list
  | inl _ => []
  end.

(** A document of three pages: no image on the first, two on the second,
    of which the first cannot be extracted, one on the third. *)
Definition three_pages : Document :=
  [ {| page_text := inr "Annual report"; page_images := inr [] |};
    {| page_text := inr " ";
       page_images := inr [inl (Exn "ValueError" "bad xref"); inr "png"] |};
    {| page_text := inr "Outlook"; page_images := inr [inr "jpeg"] |} ].

Lemma page_images_page (page_num : nat) (image_list : list (exn + string)) :
  forall img_index,
    Forall (fun img => page_number img = Z.of_nat page_num + 1)
           (extract_page_images images_dir uuid8 page_num img_index image_list).
Proof.
  induction image_list as [|[e|ext] rest IH]; intros img_index; simpl.
  - constructor.
  - apply IH.
  - constructor; [reflexivity | apply IH].
Qed.

Lemma page_images_length (page_num : nat) (image_list : list (exn + string)) :
  forall img_index,
    length (extract_page_images images_dir uuid8 page_num img_index image_list)
    = length (omap (fun outcome => match outcome with
                                   | inr ext => Some ext
                                   | inl _ => None
                                   end) image_list).
Proof.
  induction image_list as [|[e|ext] rest IH]; intros img_index; simpl; auto.
Qed.

Lemma constant_sorted (c : Z) (l : list Z) : Forall (eq c) l -> Sorted Z.le l.
Proof.
  induction 1 as [|x l <- Hl IH]; constructor; [exact IH|].
  destruct Hl as [|y l <- _]; constructor. lia.
Qed.

(** The loop over the pages, read backwards. *)
Lemma images_from_inv (page : Page) (rest : list Page) (page_num : nat)
    (imgs : list ImgInfo) :
  extract_images_from images_dir uuid8 page_num (page :: rest) = inr imgs ->
  exists image_list more,
    page_images page = inr image_list /\
    extract_images_from images_dir uuid8 (S page_num) rest = inr more /\
    imgs = extract_page_images images_dir uuid8 page_num 0 image_list ++ more.
Proof.
  simpl. destruct (page_images page) as [e|image_list]; [discriminate|].
  destruct (extract_images_from images_dir uuid8 (S page_num) rest) as [e|more];
    [discriminate|].
  intros [= <-]. eauto.
Qed.

Lemma images_from_pages (pages : list Page) :
  forall page_num imgs,
    extract_images_from images_dir uuid8 page_num pages = inr imgs ->
    Forall (fun img => Z.of_nat page_num + 1 <= page_number img
                       <= Z.of_nat page_num + Z.of_nat (length pages)) imgs /\
    Sorted Z.le (map page_number imgs) /\
    length imgs = length (concat (map extracted pages)).
Proof.
  induction pages as [|page rest IH]; intros page_num imgs H.
  - injection H as <-. split; [constructor|]. split; [constructor | reflexivity].
  - apply images_from_inv in H as (image_list & more & Hpage & Hmore & ->).
    destruct (IH (S page_num) more Hmore) as (Hrange & Hsorted & Hlen).
    pose proof (page_images_page page_num image_list 0%nat) as Hp.
    simpl length. split; [|split].
    + apply Forall_app. split.
      * eapply Forall_impl; [exact Hp|]. simpl. intros img ->. lia.
      * eapply Forall_impl; [exact Hrange|]. simpl. intros img H. lia.
    + rewrite map_app.
      apply (sorted_app _ _ (Z.of_nat page_num + 1)).
      * apply (constant_sorted (Z.of_nat page_num + 1)). apply Forall_map.
        eapply Forall_impl; [exact Hp|]. simpl. by intros img ->.
      * exact Hsorted.
      * apply Forall_map. eapply Forall_impl; [exact Hp|]. simpl. intros img ->. lia.
      * apply Forall_map. eapply Forall_impl; [exact Hrange|]. simpl. intros img H. lia.
    + simpl. rewrite !length_app, Hlen. f_equal.
      unfold extracted. rewrite Hpage. apply page_images_length.
Qed.

Lemma images_from_raises (pages : list Page) :
  forall page_num e,
    extract_images_from images_dir uuid8 page_num pages = inl e ->
    exists page, In page pages /\ page_images page = inl e.
Proof.
  induction pages as [|page rest IH]; intros page_num e; simpl; [discriminate|].
  destruct (page_images page) as [e'|image_list] eqn:Hpage.
  - intros [= <-]. exists page. split; [by left | exact Hpage].
  - destruct (extract_images_from images_dir uuid8 (S page_num) rest) as [e'|more] eqn:Hr;
      [|discriminate].
    intros [= <-]. destruct (IH _ _ Hr) as (pg & Hin & Hpg). exists pg.
    split; [by right | exact Hpg].
Qed.

(** X26. [extract_images] raises only with the exception of a page whose
    images could not be listed.  Otherwise the images it returns follow
    the pages of the document: each has a page number between 1 and the
    number of pages, the page numbers never decrease along the list, and
    there is exactly one entry per listed image whose extraction and
    saving did not raise, those that raised being skipped without ending
    the extraction. *)
Theorem extracted_images_follow_the_pages (doc : Document) :
  match extract_images images_dir uuid8 doc with
  | inl e => exists page, In page doc /\ page_images page = inl e
  | inr imgs =>
      Forall (fun img => 1 <= page_number img <= get_total_pages doc) imgs /\
      Sorted Z.le (map page_number imgs) /\
      length imgs = length (concat (map extracted doc))
  end.
Proof.
  unfold extract_images, get_total_pages.
  destruct (extract_images_from images_dir uuid8 0 doc) as [e|imgs] eqn:H.
  - by apply (images_from_raises doc 0%nat).
  - destruct (images_from_pages doc 0%nat imgs H) as (Hrange & Hsorted & Hlen).
    split; [|split; [exact Hsorted | exact Hlen]].
    eapply Forall_impl; [exact Hrange|]. simpl. intros img Hi. lia.
Qed.

(** ** The identifiers *)

Lemma uint_digits (d : Decimal.uint) :
  Forall (fun c => is_digit c = true) (chars (NilEmpty.string_of_uint d)).
Proof. induction d; simpl; constructor; auto. Qed.

Lemma str_of_nat_digits (n : nat) :
  Forall (fun c => is_digit c = true) (chars (str_of_nat n)).
Proof.
  unfold str_of_nat, str_of_Z. destruct (Z.of_nat n) as [|p|p] eqn:E; simpl.
  - repeat constructor.
  - unfold NilZero.string_of_uint.
    destruct (Pos.to_uint p) eqn:Ep; try (rewrite <- Ep; apply uint_digits).
    by destruct (DecimalPos.Unsigned.to_uint_nonnil p).
  - lia.
Qed.

Lemma str_of_Z_inj (a b : Z) : str_of_Z a = str_of_Z b -> a = b.
Proof.
  unfold str_of_Z. intros H.
  assert (Hn : forall z, Z.to_int z <> Decimal.Pos Decimal.Nil /\
                         Z.to_int z <> Decimal.Neg Decimal.Nil).
  { intros [|p|p]; simpl; split; try discriminate; intros [= Hp];
      by destruct (DecimalPos.Unsigned.to_uint_nonnil p). }
  pose proof (NilZero.isi (Z.to_int a) (proj1 (Hn a)) (proj2 (Hn a))) as Ha.
  pose proof (NilZero.isi (Z.to_int b) (proj1 (Hn b)) (proj2 (Hn b))) as Hb.
  rewrite H, Hb in Ha. injection Ha as Ha.
  rewrite <- (DecimalZ.of_to a), <- (DecimalZ.of_to b). by rewrite Ha.
Qed.

Lemma str_of_nat_inj (a b : nat) : str_of_nat a = str_of_nat b -> a = b.
Proof. unfold str_of_nat. intros H. apply str_of_Z_inj in H. lia. Qed.

(** A separator that stands in neither of two prefixes cuts in one
    place. *)
Lemma cut_unique (c : ascii) (a a' x x' : list ascii) :
  ~ In c a -> ~ In c a' -> a ++ c :: x = a' ++ c :: x' -> a = a' /\ x = x'.
Proof.
  revert a'. induction a as [|d a IH]; intros [|d' a'] Ha Ha'; simpl.
  - by intros [= ->].
  - intros [= <- _]. destruct Ha'. by left.
  - intros [= -> _]. destruct Ha. by left.
  - intros [= -> H]. destruct (IH a') as [-> ->]; auto.
    + intros ?. apply Ha. by right.
    + intros ?. apply Ha'. by right.
Qed.

Lemma digits_no_underscore (n : nat) : ~ In "_"%char (chars (str_of_nat n)).
Proof.
  intros H. pose proof (str_of_nat_digits n) as Hd. rewrite Forall_forall in Hd.
  apply list_elem_of_In in H. specialize (Hd _ H). discriminate Hd.
Qed.

(** The identifier tells the page and the index, whatever the random
    part. *)
Lemma image_id_of_inj (p i p' i' : nat) :
  image_id_of uuid8 p i = image_id_of uuid8 p' i' -> p = p' /\ i = i'.
Proof.
  unfold image_id_of. intros H. apply append_inj_l in H.
  apply (f_equal chars) in H. rewrite !chars_append in H.
  change (chars "_") with ["_"%char] in H. simpl app in H.
  apply cut_unique in H as [Hp H]; try apply digits_no_underscore.
  apply cut_unique in H as [Hi _]; try apply digits_no_underscore.
  apply (f_equal of_chars) in Hp, Hi. rewrite !of_chars_chars in Hp, Hi.
  apply str_of_nat_inj in Hp, Hi. lia.
Qed.

Lemma page_images_ids (page_num : nat) (image_list : list (exn + string)) :
  forall img_index,
    Forall (fun img => exists i, (img_index <= i)%nat /\
                                 image_id img = image_id_of uuid8 page_num i)
           (extract_page_images images_dir uuid8 page_num img_index image_list).
Proof.
  induction image_list as [|[e|ext] rest IH]; intros img_index; simpl.
  - constructor.
  - eapply Forall_impl; [apply (IH (S img_index))|]. simpl.
    intros img (i & Hi & ->). exists i. split; [lia | reflexivity].
  - constructor; [by exists img_index|].
    eapply Forall_impl; [apply (IH (S img_index))|]. simpl.
    intros img (i & Hi & ->). exists i. split; [lia | reflexivity].
Qed.

Lemma page_images_nodup (page_num : nat) (image_list : list (exn + string)) :
  forall img_index,
    NoDup (map image_id (extract_page_images images_dir uuid8 page_num img_index image_list)).
Proof.
  induction image_list as [|[e|ext] rest IH]; intros img_index; simpl.
  - constructor.
  - apply IH.
  - constructor; [|apply IH].
    intros Hin. apply list_elem_of_In, in_map_iff in Hin as (img & Hid & Hin).
    pose proof (page_images_ids page_num rest (S img_index)) as Hids.
    rewrite Forall_forall in Hids. apply list_elem_of_In in Hin.
    destruct (Hids _ Hin) as (i & Hi & Hid'). rewrite Hid' in Hid.
    apply image_id_of_inj in Hid as [_ ->]. lia.
Qed.

(** Where each image of the list comes from. *)
Lemma images_from_ids (pages : list Page) :
  forall page_num imgs,
    extract_images_from images_dir uuid8 page_num pages = inr imgs ->
    Forall (fun img => exists p i,
                (page_num <= p < page_num + length pages)%nat /\
                image_id img = image_id_of uuid8 p i /\
                page_number img = Z.of_nat p + 1) imgs.
Proof.
  induction pages as [|page rest IH]; intros page_num imgs H.
  - injection H as <-. constructor.
  - apply images_from_inv in H as (image_list & more & Hpage & Hmore & ->).
    apply Forall_app. split.
    + pose proof (page_images_ids page_num image_list 0%nat) as H1.
      pose proof (page_images_page page_num image_list 0%nat) as H2.
      rewrite Forall_forall in H1, H2. apply Forall_forall. intros img Hin.
      destruct (H1 _ Hin) as (i & _ & Hid). exists page_num, i.
      split; [simpl; lia|]. split; [exact Hid | exact (H2 _ Hin)].
    + eapply Forall_impl; [apply (IH (S page_num) more Hmore)|]. simpl.
      intros img (p & i & Hp & Hid & Hpg). exists p, i. split; [lia | done].
Qed.

Lemma images_from_nodup (pages : list Page) :
  forall page_num imgs,
    extract_images_from images_dir uuid8 page_num pages = inr imgs ->
    NoDup (map image_id imgs).
Proof.
  induction pages as [|page rest IH]; intros page_num imgs H.
  - injection H as <-. constructor.
  - apply images_from_inv in H as (image_list & more & Hpage & Hmore & ->).
    rewrite map_app. apply NoDup_app. split; [apply page_images_nodup|].
    split; [|by apply (IH (S page_num))].
    intros id H1 H2.
    apply list_elem_of_In, in_map_iff in H1 as (img1 & <- & H1).
    apply list_elem_of_In, in_map_iff in H2 as (img2 & Hid & H2).
    pose proof (page_images_ids page_num image_list 0%nat) as Hids1.
    pose proof (images_from_ids rest (S page_num) more Hmore) as Hids2.
    rewrite Forall_forall in Hids1, Hids2.
    apply list_elem_of_In in H1, H2.
    destruct (Hids1 _ H1) as (i1 & _ & E1).
    destruct (Hids2 _ H2) as (p2 & i2 & Hp2 & E2 & _).
    rewrite E1, E2 in Hid. apply image_id_of_inj in Hid as [-> _]. lia.
Qed.

(** X27. The identifiers of the images extracted from one PDF are
    pairwise distinct, whatever the random parts drawn for them: each
    identifier is that of a page of the document and of an index on that
    page, which already tell the images apart, and the page written into
    the identifier is the page number of the image. *)
Theorem image_ids_are_distinct (doc : Document) (imgs : list ImgInfo) :
  extract_images images_dir uuid8 doc = inr imgs ->
  NoDup (map image_id imgs) /\
  Forall (fun img => exists p i,
              (p < length doc)%nat /\
              image_id img = image_id_of uuid8 p i /\
              page_number img = Z.of_nat p + 1) imgs.
Proof.
  unfold extract_images. intros H. split; [by apply (images_from_nodup doc 0%nat)|].
  eapply Forall_impl; [apply (images_from_ids doc 0%nat imgs H)|]. simpl.
  intros img (p & i & Hp & Hi). exists p, i. split; [lia | exact Hi].
Qed.

(** ** A job on the extracted images *)

Lemma extractions_of_images (svc : Services) (content : PdfContent)
    (exts : list ImageExtraction) (imgs : list ImgInfo) :
  Forall2 (extraction_of svc content) exts imgs ->
  map ie_page_number exts = map page_number imgs /\
  map ie_image_id exts = map image_id imgs.
Proof.
  induction 1 as [|ie img exts imgs (Hid & _ & Hpage & _) _ [IH1 IH2]]; simpl; [done|].
  by rewrite Hid, Hpage, IH1, IH2.
Qed.

(** X28. When [process_pdf] runs on what this extractor returns for a
    document and completes, the result counts the pages of the document,
    every extraction lies on a page between 1 and that count, the
    extractions come in the order of the pages, and no two of them share
    an image identifier. *)
Theorem completed_job_pages_and_ids
    (svc : Services) (task_id file_path filename : string) (w w' : World)
    (entry : StatusEntry) (doc : Document) :
  Router.extract_pdf svc file_path = extract_pdf images_dir uuid8 (inr doc) ->
  process_pdf svc task_id file_path filename w = (inr tt, w') ->
  processing_status w' !! task_id = Some entry ->
  status entry = "completed" ->
  exists res,
    result entry = Some res /\
    total_pages res = Z.of_nat (length doc) /\
    Forall (fun n => 1 <= n <= total_pages res) (map ie_page_number (extractions res)) /\
    Sorted Z.le (map ie_page_number (extractions res)) /\
    NoDup (map ie_image_id (extractions res)).
Proof.
  intros Hex Hrun Hentry Hstatus.
  destruct (completed_pdf_job svc task_id file_path filename w w' entry
              Hrun Hentry Hstatus) as (content & exts & Hex' & Hres & Hall).
  rewrite Hex in Hex'. unfold extract_pdf in Hex'.
  destruct (extract_text doc) as [e|text]; [discriminate|].
  destruct (extract_images images_dir uuid8 doc) as [e|imgs] eqn:Himgs; [discriminate|].
  injection Hex' as <-.
  apply extractions_of_images in Hall as [Hpages Hids]. simpl in Hpages, Hids.
  eexists. split; [exact Hres|]. simpl.
  rewrite Hpages, Hids. unfold extract_images in Himgs.
  destruct (images_from_pages doc 0%nat imgs Himgs) as (Hrange & Hsorted & _).
  split; [reflexivity|].
  split; [|split; [exact Hsorted | by apply (images_from_nodup doc 0%nat)]].
  apply Forall_map. eapply Forall_impl; [exact Hrange|]. simpl.
  unfold get_total_pages. intros img H. lia.
Qed.

End ExtractorFacts.

Lemma image_ids_are_distinct_witness :
  exists imgs,
    PDFExtractor.extract_images "output/images" (fun _ _ => "0a1b2c3d") three_pages
    = inr imgs /\
    map Router.image_id imgs = ["img_2_2_0a1b2c3d"; "img_3_1_0a1b2c3d"] /\
    NoDup (map Router.image_id imgs) /\
    Forall (fun img => exists p i,
                (p < length three_pages)%nat /\
                Router.image_id img
                = PDFExtractor.image_id_of (fun _ _ => "0a1b2c3d") p i /\
                Router.page_number img = Z.of_nat p + 1) imgs.
Proof.
  eexists. split; [vm_compute; reflexivity|]. split; [vm_compute; reflexivity|].
  apply (image_ids_are_distinct "output/images" (fun _ _ => "0a1b2c3d") three_pages).
  vm_compute. reflexivity.
Defined.

(** Services that extract the document [three_pages] and see no chart. *)
Definition three_page_services : Router.Services :=
  {| Router.extract_pdf := fun _ =>
       PDFExtractor.extract_pdf "output/images" (fun _ _ => "0a1b2c3d") (inr three_pages);
     Router.detect_chart := fun _ =>
       inr (ChartDetector.analysis false "image" PyFloat.lit_0_3);
     Router.extract_chart_text := fun _ => inl (Py.Exn "RuntimeError" "no OCR engine");
     Router.generate_inference := fun _ _ _ _ =>
       inl (Py.Exn "RuntimeError" "no language model");
     Router.save_result := fun _ => inr "extraction_20260101_000000";
     Router.copy2 := fun _ _ => inr tt;
     Router.new_image_id := "0123abcd";
     Router.target_path := fun _ id => "output/images/" +:+ id +:+ ".png";
     Router.now := 0 |}.

Lemma completed_job_pages_and_ids_witness :
  exists w' entry,
    Router.process_pdf three_page_services "t1" "report.pdf" "report.pdf"
      world_after_upload = (inr tt, w') /\
    Router.processing_status w' !! "t1" = Some entry /\
    Router.status entry = "completed" /\
    exists res,
      Router.result entry = Some res /\
      Router.total_pages res = Z.of_nat (length three_pages) /\
      Forall (fun n => 1 <= n <= Router.total_pages res)
             (map Router.ie_page_number (Router.extractions res)) /\
      Sorted Z.le (map Router.ie_page_number (Router.extractions res)) /\
      NoDup (map Router.ie_image_id (Router.extractions res)).
Proof.
  eexists _, _. split; [vm_compute; reflexivity|]. split; [vm_compute; reflexivity|].
  split; [reflexivity|].
  eapply (completed_job_pages_and_ids "output/images" (fun _ _ => "0a1b2c3d")
            three_page_services "t1" "report.pdf" "report.pdf" world_after_upload).
  - reflexivity.
  - vm_compute. reflexivity.
  - vm_compute. reflexivity.
  - reflexivity.
Defined.

(* ===================================================================== *)
(** * The chart analyzer *)
(* ===================================================================== *)

Section AnalyzerFacts.
Import Py ChartAnalyzer.

Context {Processor Pix2Struct Picture : Type}.

(** The state after a load in which the processor came and the model
    did not. *)
Definition half_loaded (p : Processor) : @State Processor Pix2Struct :=
  {| processor := Some p; model := None |}.

Lemma answer_all_without_model (env : @Env Processor Pix2Struct Picture) (p : Processor) (image : Picture)
    (questions : list string) (results : gmap string string) :
  questions <> [] ->
  exists e, answer_all env (half_loaded p) image questions results = inl e.
Proof. destruct questions as [|q rest]; [done|]. intros _. simpl. eauto. Qed.

(** X29. A load that fails half-way is never repaired.  When the
    processor loads and the model does not, [analyze] answers with the
    fallback and keeps the processor; from then on [_load_model] takes
    the model for loaded and never calls the loaders again, so every
    later analysis that asks at least one question answers with the
    fallback and leaves the state as it is, even when loading the model
    would now succeed. *)
Theorem half_loaded_analyzer_never_recovers
    (env : @Env Processor Pix2Struct Picture) (p : Processor) (e : exn) (image_path : string)
    (questions : option (list string)) :
  TRANSFORMERS_AVAILABLE env = true ->
  load_processor env = inr p ->
  load_pix2struct env = inl e ->
  analyze env image_path questions initial = (_fallback_analysis, half_loaded p) /\
  forall (env' : @Env Processor Pix2Struct Picture) (image_path' : string) (questions' : option (list string)),
    default DEFAULT_QUESTIONS questions' <> [] ->
    _load_model env' (half_loaded p)
    = (TRANSFORMERS_AVAILABLE env', half_loaded p) /\
    analyze env' image_path' questions' (half_loaded p)
    = (_fallback_analysis, half_loaded p).
Proof.
  intros Hav Hp Hm. split.
  - unfold analyze, _load_model. rewrite Hav, Hp, Hm. reflexivity.
  - intros env' image_path' questions' Hq.
    assert (Hload : _load_model env' (half_loaded p)
                    = (TRANSFORMERS_AVAILABLE env', half_loaded p)).
    { unfold _load_model. by destruct (TRANSFORMERS_AVAILABLE env'). }
    split; [exact Hload|].
    unfold analyze. rewrite Hload.
    destruct (TRANSFORMERS_AVAILABLE env'); [|reflexivity]. simpl negb. cbv iota.
    destruct (open_image env' image_path') as [e'|image]; [reflexivity|].
    destruct (answer_all_without_model env' p image _ ∅ Hq) as [e' ->]. reflexivity.
Qed.

Lemma answer_all_spec (env : @Env Processor Pix2Struct Picture) (st : @State Processor Pix2Struct) (image : Picture)
    (questions : list string) :
  forall results out,
    answer_all env st image questions results = inr out ->
    dom out = dom results ∪ list_to_set questions /\
    forall q a, out !! q = Some a ->
                results !! q = Some a \/
                (In q questions /\ answer_question env st image q = inr a).
Proof.
  induction questions as [|question rest IH]; intros results out; simpl.
  - intros [= <-]. split; [by rewrite union_empty_r_L | tauto].
  - destruct (answer_question env st image question) as [e|answer] eqn:Hq; [discriminate|].
    intros H. apply IH in H as [Hdom Hall]. split.
    + rewrite Hdom, dom_insert_L.
      by rewrite (comm_L (∪) {[question]} (dom results)), (assoc_L (∪)).
    + intros q a Hqa. destruct (Hall q a Hqa) as [Hin|[Hin Ha]].
      * destruct (decide (q = question)) as [->|Hne].
        -- rewrite lookup_insert_eq in Hin. injection Hin as <-. right. split; [by left|done].
        -- rewrite lookup_insert_ne in Hin by done. by left.
      * right. split; [by right | exact Ha].
Qed.

(** X30. [analyze] never raises, and it answers all the questions or
    none: its result is either the fallback (no success, no answer, the
    message that the model is not available) or a success whose answers
    have exactly the questions asked as keys, each answer being what the
    loaded processor and model gave for that question on the opened
    image.  One question that fails discards the answers already
    obtained. *)
Theorem analysis_answers_all_or_nothing
    (env : @Env Processor Pix2Struct Picture) (image_path : string) (questions : option (list string)) (st : @State Processor Pix2Struct) :
  let '(r, st') := analyze env image_path questions st in
  r = _fallback_analysis \/
  (success r = true /\ message r = None /\
   dom (answers r) = list_to_set (default DEFAULT_QUESTIONS questions) /\
   exists image,
     open_image env image_path = inr image /\
     forall q a, answers r !! q = Some a ->
                 In q (default DEFAULT_QUESTIONS questions) /\
                 exists p m, processor st' = Some p /\ model st' = Some m /\
                             ask env p m image q = inr a).
Proof.
  unfold analyze. destruct (_load_model env st) as [[] st'].
  2:{ by left. }
  simpl negb. cbv iota.
  destruct (open_image env image_path) as [e|image]; [by left|].
  destruct (answer_all env st' image (default DEFAULT_QUESTIONS questions) ∅)
    as [e|results] eqn:Hall; [by left|].
  right. apply answer_all_spec in Hall as [Hdom Hall]. simpl.
  split; [reflexivity|]. split; [reflexivity|].
  split; [by rewrite Hdom, dom_empty_L, union_empty_l_L|].
  exists image. split; [reflexivity|]. intros q a Hqa.
  destruct (Hall q a Hqa) as [Hin|[Hin Ha]]; [by rewrite lookup_empty in Hin|].
  split; [exact Hin|]. unfold answer_question in Ha.
  destruct (processor st') as [p|]; [|discriminate].
  destruct (model st') as [m|]; [|discriminate]. eauto.
Qed.

End AnalyzerFacts.

(** A library whose processor loads and whose model does not. *)
Definition no_model_env : @ChartAnalyzer.Env unit unit unit :=
  {| ChartAnalyzer.TRANSFORMERS_AVAILABLE := true;
     ChartAnalyzer.load_processor := inr tt;
     ChartAnalyzer.load_pix2struct := inl (Py.Exn "OSError" "no such model");
     ChartAnalyzer.to_device := fun _ => inr tt;
     ChartAnalyzer.open_image := fun _ => inr tt;
     ChartAnalyzer.ask := fun _ _ _ _ => inr "42" |}.

Lemma half_loaded_analyzer_never_recovers_witness :
  ChartAnalyzer.analyze no_model_env "chart.png" None ChartAnalyzer.initial
  = (ChartAnalyzer._fallback_analysis, half_loaded tt) /\
  forall (env' : @ChartAnalyzer.Env unit unit unit) (image_path' : string)
         (questions' : option (list string)),
    default ChartAnalyzer.DEFAULT_QUESTIONS questions' <> [] ->
    ChartAnalyzer._load_model env' (half_loaded tt)
    = (ChartAnalyzer.TRANSFORMERS_AVAILABLE env', half_loaded tt) /\
    ChartAnalyzer.analyze env' image_path' questions' (half_loaded tt)
    = (ChartAnalyzer._fallback_analysis, half_loaded tt).
Proof.
  apply (half_loaded_analyzer_never_recovers no_model_env tt
           (Py.Exn "OSError" "no such model") "chart.png" None); reflexivity.
Defined.
